(** * Sydney RentSmart: affordability ranking and enrichment caches

    A shallow embedding of the TypeScript sources

    - [src/lib/suburbs.ts]   (dataset access, search, rent stress),
    - [src/lib/commute.ts]   (haversine distance, commute estimate),
    - [src/app/api/recommend/route.ts] (the recommendation handler),
    - the [getCached] helpers of the commute, directions, isochrone and
      overpass-poi routes,

    together with the properties of these functions.

    Numbers.  A JavaScript number is an IEEE-754 double.  The rent-stress
    percentage [Math.round ((rent / income) * 1000) / 10] is modelled on
    doubles ([Double], [Suburbs64]): every operation rounds its exact
    result to the nearest double.  The ranking, the shared-rent policy and
    the caches use only [+ - * /], [Math.round], [Math.min], [Math.max]
    and comparisons and are modelled with a number as [NaN] or an exact
    rational; the geospatial code uses [sin], [cos], [sqrt] and [atan2]
    and is modelled over the real numbers.  In these two cases the
    rounding error and the overflow of doubles are outside the model.

    Strings.  A string is a sequence of UTF-16 code units below 256, the
    characters of ISO 8859-1; code units from 256 on are outside the
    model. *)

From Stdlib Require Import ZArith QArith Qround Qminmax Qabs Qpower Lia Lqa.
From Stdlib Require Import List String Ascii Sorted Permutation DecimalString.
From Stdlib Require Import Reals Lra.
From Stdlib Require Floats.
From stdpp Require Import gmap strings.
Import ListNotations.

(** Linear arithmetic over the rationals and over the reals. *)
Ltac lraQ := Lqa.lra.
Ltac lraR := Lra.lra.

(* ===================================================================== *)
(** * JavaScript values                                                   *)
(* ===================================================================== *)

Module JS.

(** A number: [NaN] or a finite value.  Both zeros are [Fin 0]. *)
Inductive num : Type :=
| NaN
| Fin (q : Q).

(** What a property read or a nullable variable can hold. *)
Inductive value : Type :=
| Undefined
| Null
| Num (n : num).

Definition isNaN (a : num) : bool :=
  match a with NaN => true | Fin _ => false end.

(** Relational operators: [false] as soon as an operand is [NaN]. *)
Definition nle (a b : num) : bool :=
  match a, b with
  | Fin x, Fin y => Qle_bool x y
  | _, _ => false
  end.

Definition nlt (a b : num) : bool :=
  match a, b with
  | Fin x, Fin y => negb (Qle_bool y x)
  | _, _ => false
  end.

Definition nge (a b : num) : bool := nle b a.
Definition ngt (a b : num) : bool := nlt b a.

(** [===] on numbers. *)
Definition nseq (a b : num) : bool :=
  match a, b with
  | Fin x, Fin y => Qeq_bool x y
  | _, _ => false
  end.

Definition lift2 (f : Q -> Q -> Q) (a b : num) : num :=
  match a, b with
  | Fin x, Fin y => Fin (f x y)
  | _, _ => NaN
  end.

Definition nadd : num -> num -> num := lift2 Qplus.
Definition nsub : num -> num -> num := lift2 Qminus.
Definition nmul : num -> num -> num := lift2 Qmult.

(** [a / b].  A zero divisor would give an infinity (or [NaN] for [0/0]) in
    JavaScript; the model has no infinities and answers [NaN] there.  No
    division of the modelled code is reached with a zero divisor (see
    [calculateRentStress_traced] for the rent-stress one; the per-person
    division is guarded by [sharingCount <= 1] and the trend one by
    [oldest > 0]). *)
Definition ndiv (a b : num) : num :=
  match a, b with
  | Fin x, Fin y => if Qeq_bool y 0 then NaN else Fin (x / y)
  | _, _ => NaN
  end.

(** [Math.round]: the nearest integer, ties towards plus infinity. *)
Definition round (x : Q) : Z := Qfloor (x + (1 # 2)).

Definition Math_round (a : num) : num :=
  match a with
  | Fin x => Fin (inject_Z (round x))
  | NaN => NaN
  end.

(** [Math.min] and [Math.max] return [NaN] when an argument is [NaN]. *)
Definition Math_min : num -> num -> num := lift2 Qmin.
Definition Math_max : num -> num -> num := lift2 Qmax.

(** [ToNumber] and [ToBoolean] on the values that occur. *)
Definition toNumber (v : value) : num :=
  match v with
  | Undefined => NaN
  | Null => Fin 0
  | Num n => n
  end.

Definition truthy (v : value) : bool :=
  match v with
  | Undefined | Null => false
  | Num NaN => false
  | Num (Fin q) => negb (Qeq_bool q 0)
  end.

(** [a || b] on numbers. *)
Definition nor (a b : num) : num := if truthy (Num a) then a else b.

Definition ofOption (o : option Q) : value :=
  match o with
  | Some q => Num (Fin q)
  | None => Null
  end.

(** Equality of numbers up to the representation of the rational. *)
Definition num_eq (a b : num) : Prop :=
  match a, b with
  | NaN, NaN => True
  | Fin x, Fin y => x == y
  | _, _ => False
  end.

(** A number that is an integer. *)
Definition is_whole (a : num) : Prop :=
  exists z : Z, num_eq a (Fin (inject_Z z)).

(** A string is truthy when it is not empty. *)
Definition nonempty (s : string) : bool :=
  match s with
  | EmptyString => false
  | String _ _ => true
  end.

End JS.

Import JS.

Infix "=n=" := num_eq (at level 70, no associativity).

(* ===================================================================== *)
(** * IEEE-754 doubles                                                    *)
(* ===================================================================== *)

(** A JavaScript number as the binary64 format has it: [NaN], an infinity,
    or a finite value, given by the rational it denotes (both zeros are
    [finite 0]).  An arithmetic operation computes the exact result and
    rounds it to the nearest double, ties to the even significand; a
    result of magnitude [2^1024] or more after rounding is an infinity. *)
Module Double.

Local Open Scope Q_scope.

Inductive double : Type :=
| nan
| infinity (negative : bool)
| finite (q : Q).

Definition pow2 (k : Z) : Q := Qpower 2 k.

Arguments pow2 : simpl never.

(** The exponent [k] with [2^k <= a < 2^(k+1)], for [a > 0]. *)
Definition ilog2 (a : Q) : Z :=
  let k := (Z.log2 (Qnum a) - Z.log2 (Zpos (Qden a)))%Z in
  if Qle_bool (pow2 k) a then k else (k - 1)%Z.

(** The nearest integer, ties to the even one. *)
Definition nearest_even (x : Q) : Z :=
  let f := Qfloor x in
  match Qcompare (x - inject_Z f) (1 # 2) with
  | Lt => f
  | Gt => (f + 1)%Z
  | Eq => if Z.even f then f else (f + 1)%Z
  end.

Definition negative (q : Q) : bool := negb (Qle_bool 0 q).

(** The double nearest to [q]: a significand of 53 bits at the exponent of
    [q], or a multiple of [2^-1074] below [2^-1022]. *)
Definition round64 (q : Q) : double :=
  if Qeq_bool q 0 then finite 0
  else
    let a := Qabs q in
    let e := Z.max (ilog2 a - 52) (-1074) in
    let v := inject_Z (nearest_even (a / pow2 e)) * pow2 e in
    if Qle_bool (pow2 1024) v then infinity (negative q)
    else finite (if negative q then - v else v).

(** [a / b] *)
Definition div (a b : double) : double :=
  match a, b with
  | finite x, finite y =>
      if Qeq_bool y 0 then
        if Qeq_bool x 0 then nan else infinity (negative x)
      else round64 (x / y)
  | finite _, infinity _ => finite 0
  | infinity s, finite y => infinity (xorb s (negative y))
  | _, _ => nan
  end.

(** [a * b] *)
Definition mul (a b : double) : double :=
  match a, b with
  | finite x, finite y => round64 (x * y)
  | infinity s, finite y | finite y, infinity s =>
      if Qeq_bool y 0 then nan else infinity (xorb s (negative y))
  | infinity s, infinity t => infinity (xorb s t)
  | _, _ => nan
  end.

(** [a < b] and [a <= b]: [false] as soon as an operand is [NaN]. *)
Definition lt (a b : double) : bool :=
  match a, b with
  | finite x, finite y => negb (Qle_bool y x)
  | finite _, infinity s => negb s
  | infinity s, finite _ => s
  | infinity s, infinity t => s && negb t
  | _, _ => false
  end.

Definition le (a b : double) : bool :=
  match a, b with
  | finite x, finite y => Qle_bool x y
  | finite _, infinity s => negb s
  | infinity s, finite _ => s
  | infinity s, infinity t => s || negb t
  | _, _ => false
  end.

(** [Math.round]: the nearest integer, ties towards plus infinity; the
    result is an integer of the same format, so no rounding follows. *)
Definition Math_round (a : double) : double :=
  match a with
  | finite x => finite (inject_Z (Qfloor (x + (1 # 2))))
  | _ => a
  end.

End Double.

(* ===================================================================== *)
(** * Strings                                                             *)
(* ===================================================================== *)

(** A character is a UTF-16 code unit below 256: [nat_of_ascii] gives the
    code unit.  Case folding and white space are those of
    [String.prototype.toLowerCase] and [String.prototype.trim] on these
    code units. *)
Module Str.

(** The letters with a lower case are A to Z (U+0041 to U+005A) and U+00C0
    to U+00DE without the multiplication sign U+00D7; the lower case is 32
    further. *)
Definition lower_char (c : ascii) : ascii :=
  let n := nat_of_ascii c in
  if (((65 <=? n) && (n <=? 90)) ||
      ((192 <=? n) && (n <=? 222) && negb (n =? 215)))%nat
  then ascii_of_nat (n + 32) else c.

Fixpoint toLowerCase (s : string) : string :=
  match s with
  | EmptyString => EmptyString
  | String c s' => String (lower_char c) (toLowerCase s')
  end.

(** White space and line terminators: U+0009 to U+000D, the space U+0020
    and the no-break space U+00A0. *)
Definition is_space (c : ascii) : bool :=
  let n := nat_of_ascii c in
  (((9 <=? n) && (n <=? 13)) || (n =? 32) || (n =? 160))%nat.

Fixpoint trimStart (s : string) : string :=
  match s with
  | EmptyString => EmptyString
  | String c s' => if is_space c then trimStart s' else s
  end.

Fixpoint trimEnd (s : string) : string :=
  match s with
  | EmptyString => EmptyString
  | String c s' =>
      match trimEnd s' with
      | EmptyString => if is_space c then EmptyString else String c EmptyString
      | t => String c t
      end
  end.

Definition trim (s : string) : string := trimEnd (trimStart s).

(** [s.startsWith(q)] *)
Definition startsWith (s q : string) : bool := String.prefix q s.

(** [s.includes(q)] *)
Fixpoint includes (s q : string) : bool :=
  String.prefix q s ||
  match s with
  | EmptyString => false
  | String _ s' => includes s' q
  end.

Definition is_digit (c : ascii) : bool :=
  let n := nat_of_ascii c in ((48 <=? n) && (n <=? 57))%nat.

(** The test [/^\d{4}$/]. *)
Definition four_digits (s : string) : bool :=
  match s with
  | String a (String b (String c (String d EmptyString))) =>
      is_digit a && is_digit b && is_digit c && is_digit d
  | _ => false
  end.

End Str.

(* ===================================================================== *)
(** * src/lib/suburbs.ts                                                  *)
(* ===================================================================== *)

Module Suburbs.

(** One record of [sydney_suburbs.json].  The file is JSON, so a number is
    finite and a missing figure is [null] ([None]). *)
Record Suburb : Type := {
  suburb_key : string;
  postcode : string;
  suburb_name : option string;
  lat : option Q;
  lng : option Q;
  median_rent_overall : option Q;
  avg_rent : option Q;
  total_bonds : Q;
  median_rent_1bed : option Q;
  median_rent_2bed : option Q;
  median_rent_3bed : option Q;
  median_rent_4bed : option Q;
  median_rent_5plus_bed : option Q;
  dwelling_types : list (string * Q);
  rent_trend : list (string * Q);
  median_household_income_weekly : option Q;
  rent_stress_pct_1bed : option Q;
  rent_stress_pct_2bed : option Q;
  rent_stress_pct_3bed : option Q;
  rent_stress_pct_4bed : option Q;
  rent_stress_pct_5plus_bed : option Q
}.

Inductive RentStressRating : Type :=
| comfortable
| manageable
| stressed
| severe.

Record RentStressResult : Type := {
  percentage : num;
  rating : RentStressRating
}.

(** The property names [medianRentKey] can produce and the one the solo
    branch of the recommendation uses.  [String(bedrooms)] is one of "1",
    "2", "3", "4" exactly when [bedrooms] is that integer, so every other
    number below 5 (a fraction, zero, a negative number, [NaN]) gives a name
    that is no property of a suburb: [no_such_field]. *)
Inductive RentField : Type :=
| field_overall
| field_1bed
| field_2bed
| field_3bed
| field_4bed
| field_5plus_bed
| no_such_field.

(** [suburb[key]] *)
Definition get (s : Suburb) (key : RentField) : value :=
  match key with
  | field_overall => ofOption (median_rent_overall s)
  | field_1bed => ofOption (median_rent_1bed s)
  | field_2bed => ofOption (median_rent_2bed s)
  | field_3bed => ofOption (median_rent_3bed s)
  | field_4bed => ofOption (median_rent_4bed s)
  | field_5plus_bed => ofOption (median_rent_5plus_bed s)
  | no_such_field => Undefined
  end.

Definition medianRentKey (bedrooms : num) : RentField :=
  if nge bedrooms (Fin 5) then field_5plus_bed
  else if nseq bedrooms (Fin 1) then field_1bed
  else if nseq bedrooms (Fin 2) then field_2bed
  else if nseq bedrooms (Fin 3) then field_3bed
  else if nseq bedrooms (Fin 4) then field_4bed
  else no_such_field.

Definition getRentStressRating (percentage : num) : RentStressRating :=
  if nlt percentage (Fin 25) then comfortable
  else if nle percentage (Fin 30) then manageable
  else if nle percentage (Fin 40) then stressed
  else severe.

(** The divisions a computation performs, in evaluation order. *)
Record Division : Type := { dividend : num; divisor : num }.

Definition Traced (A : Type) : Type := (A * list Division)%type.

Definition ret {A} (a : A) : Traced A := (a, []).

Definition bind {A B} (m : Traced A) (k : A -> Traced B) : Traced B :=
  let (a, l1) := m in
  let (b, l2) := k a in
  (b, l1 ++ l2).

Definition divide (a b : num) : Traced num :=
  (ndiv a b, [{| dividend := a; divisor := b |}]).

(** [calculateRentStress], recording its divisions. *)
Definition calculateRentStress_traced (weeklyIncome weeklyRent : num)
  : Traced RentStressResult :=
  if nle weeklyIncome (Fin 0) then
    ret {| percentage := Fin 100; rating := severe |}
  else
    bind (divide weeklyRent weeklyIncome) (fun ratio =>
    bind (divide (Math_round (nmul ratio (Fin 1000))) (Fin 10)) (fun percentage =>
    ret {| percentage := percentage;
           rating := getRentStressRating percentage |})).

Definition calculateRentStress (weeklyIncome weeklyRent : num) : RentStressResult :=
  fst (calculateRentStress_traced weeklyIncome weeklyRent).

Section Dataset.

(** [suburbData]: the entries of the JSON object, key and record, in the
    order [Object.values] enumerates them.  The keys of a JSON object are
    pairwise distinct.  [getSuburbByKey] is the record the object has
    under the key itself; what the property read gives for a name the
    object only inherits ([constructor], [toString], ...) is given in
    [Lookup]. *)
Variable suburbs : list (string * Suburb).

Definition getAllSuburbs : list Suburb := map snd suburbs.

Definition getSuburbByKey (key : string) : option Suburb :=
  option_map snd (find (fun e => String.eqb (fst e) key) suburbs).

Definition getSuburbByPostcode (pc : string) : option Suburb :=
  match getSuburbByKey pc with
  | Some s => Some s
  | None => find (fun s => String.eqb (postcode s) pc) getAllSuburbs
  end.

Definition getSuburbsByPostcode (pc : string) : list Suburb :=
  List.filter (fun s => String.eqb (postcode s) pc) getAllSuburbs.

(** The four arrays [searchSuburbs] fills. *)
Record Buckets : Type := {
  exact : list Suburb;
  startsWith : list Suburb;
  contains : list Suburb;
  postcodeMatch : list Suburb
}.

Definition lowerName (s : Suburb) : string :=
  match suburb_name s with
  | Some n => Str.toLowerCase n
  | None => EmptyString
  end.

(** One iteration of the loop of [searchSuburbs]. *)
Definition search_step (q : string) (b : Buckets) (s : Suburb) : Buckets :=
  let name := lowerName s in
  if String.eqb name q then
    {| exact := exact b ++ [s]; startsWith := startsWith b;
       contains := contains b; postcodeMatch := postcodeMatch b |}
  else if Str.startsWith name q then
    {| exact := exact b; startsWith := startsWith b ++ [s];
       contains := contains b; postcodeMatch := postcodeMatch b |}
  else if Str.includes name q then
    {| exact := exact b; startsWith := startsWith b;
       contains := contains b ++ [s]; postcodeMatch := postcodeMatch b |}
  else if Str.startsWith (postcode s) q then
    {| exact := exact b; startsWith := startsWith b;
       contains := contains b; postcodeMatch := postcodeMatch b ++ [s] |}
  else b.

Definition searchSuburbs (query : string) : list Suburb :=
  let q := Str.trim (Str.toLowerCase query) in
  if negb (nonempty q) then getAllSuburbs
  else
    let b := fold_left (search_step q) getAllSuburbs
               {| exact := []; startsWith := []; contains := [];
                  postcodeMatch := [] |} in
    exact b ++ startsWith b ++ contains b ++ postcodeMatch b.

End Dataset.

End Suburbs.

(** ** The rent-stress functions on doubles *)

(** [getRentStressRating] and [calculateRentStress] with the arithmetic of
    doubles: the quotient, the product and the last quotient are each
    rounded. *)
Module Suburbs64.

Import Double.

Record RentStressResult : Type := {
  percentage : double;
  rating : Suburbs.RentStressRating
}.

Definition getRentStressRating (percentage : double) : Suburbs.RentStressRating :=
  if lt percentage (finite 25) then Suburbs.comfortable
  else if le percentage (finite 30) then Suburbs.manageable
  else if le percentage (finite 40) then Suburbs.stressed
  else Suburbs.severe.

Definition calculateRentStress (weeklyIncome weeklyRent : double)
  : RentStressResult :=
  if le weeklyIncome (finite 0) then
    {| percentage := finite 100; rating := Suburbs.severe |}
  else
    let percentage :=
      div (Math_round (mul (div weeklyRent weeklyIncome) (finite 1000)))
          (finite 10) in
    {| percentage := percentage; rating := getRentStressRating percentage |}.

End Suburbs64.

(* ===================================================================== *)
(** * src/lib/commute.ts                                                  *)
(* ===================================================================== *)

Module Commute.

Import Suburbs.
Local Open Scope R_scope.

Inductive StationType : Type :=
| heavy_rail
| metro
| light_rail
| ferry.

Record TrainStation : Type := {
  name : string;
  station_lat : Q;
  station_lng : Q;
  lines : list string;
  type : StationType
}.

Record NearestStationResult : Type := {
  station : TrainStation;
  station_distanceKm : R
}.

(** [estimatedMinutes] is [Math.max (5, Math.round (...))], an integer. *)
Record CommuteEstimate : Type := {
  distanceKm : R;
  estimatedMinutes : Z;
  label : string
}.

(** [Math.round] on a real: the integer [floor (x + 1/2)]. *)
Definition Rround (x : R) : Z := Int_part (x + / 2).

(** [Math.atan2 (y, x)]. *)
Definition atan2 (y x : R) : R :=
  if Rlt_dec 0 x then atan (y / x)
  else if Rlt_dec x 0 then
    if Rle_dec 0 y then atan (y / x) + PI else atan (y / x) - PI
  else if Rlt_dec 0 y then PI / 2
  else if Rlt_dec y 0 then - (PI / 2)
  else 0.

Definition toRad (deg : R) : R := deg * PI / 180.

(** Distance in kilometres between two points given in degrees; the
    commute route has a copy of it with [toRad] written out. *)
Definition haversineKm (lat1 lng1 lat2 lng2 : R) : R :=
  let R_earth := 6371 in
  let dLat := toRad (lat2 - lat1) in
  let dLng := toRad (lng2 - lng1) in
  let a :=
    (sin (dLat / 2)) ^ 2 +
    cos (toRad lat1) * cos (toRad lat2) * (sin (dLng / 2)) ^ 2 in
  R_earth * 2 * atan2 (sqrt a) (sqrt (1 - a)).

(** [`~${minutes} min`] *)
Definition minutes_label (minutes : Z) : string :=
  ("~" ++ NilZero.string_of_int (Z.to_int minutes) ++ " min")%string.

(** [!x] for a nullable coordinate: [null] and [0] are falsy. *)
Definition falsy (c : option Q) : bool :=
  match c with
  | None => true
  | Some q => Qeq_bool q 0
  end.

(** The coordinates of a looked-up suburb when the guard
    [!from?.lat || !from?.lng] lets them through. *)
Definition usable_coords (o : option Suburb) : option (Q * Q) :=
  match o with
  | None => None
  | Some s =>
      if falsy (lat s) || falsy (lng s) then None
      else
        match lat s, lng s with
        | Some la, Some lo => Some (la, lo)
        | _, _ => None
        end
  end.

Section Dataset.

Variable suburbs : list (string * Suburb).
Variable stations : list TrainStation.

(** One iteration of the scan of [getNearestStation]; [None] as distance
    is the initial [Infinity]. *)
Definition nearest_step (la lo : R) (acc : TrainStation * option R)
  (s : TrainStation) : TrainStation * option R :=
  let d := haversineKm la lo (Q2R (station_lat s)) (Q2R (station_lng s)) in
  match snd acc with
  | None => (s, Some d)
  | Some bestDist => if Rlt_dec d bestDist then (s, Some d) else acc
  end.

Definition getNearestStation (la lo : R) : option NearestStationResult :=
  match stations with
  | [] => None
  | s0 :: _ =>
      match fold_left (nearest_step la lo) stations (s0, None) with
      | (best, Some bestDist) =>
          Some {| station := best;
                  station_distanceKm := IZR (Rround (bestDist * 10)) / 10 |}
      | (_, None) => None
      end
  end.

Definition estimateCommuteTime (fromPostcode toPostcode : string)
  : option CommuteEstimate :=
  match usable_coords (getSuburbByPostcode suburbs fromPostcode),
        usable_coords (getSuburbByPostcode suburbs toPostcode) with
  | Some (fromLat, fromLng), Some (toLat, toLng) =>
      if String.eqb fromPostcode toPostcode then
        Some {| distanceKm := 0; estimatedMinutes := 5%Z;
                label := "~5 min" |}
      else
        let dist :=
          haversineKm (Q2R fromLat) (Q2R fromLng) (Q2R toLat) (Q2R toLng) in
        let minutes := Z.max 5 (Rround (dist * 2.5)) in
        Some {| distanceKm := IZR (Rround (dist * 10)) / 10;
                estimatedMinutes := minutes;
                label := minutes_label minutes |}
  | _, _ => None
  end.

End Dataset.

End Commute.

(* ===================================================================== *)
(** * src/app/api/recommend/route.ts                                      *)
(* ===================================================================== *)

Module Recommend.

Import Suburbs Commute.

Definition MAX_RESULTS : nat := 500.

(** What [resolveSharedRent] returns when it is not [null].  [totalRent]
    and [perPersonRent] hold what the property read gave, which is
    [undefined] for a name that is no field. *)
Record Resolved : Type := {
  totalRent : value;
  perPersonRent : value;
  rentEstimated : bool;
  bedsUsed : num
}.

(** The downward loop of [resolveSharedRent]: the first bedroom count from
    [beds] down to [minBeds] whose figure is not [null], with the figure
    and the [estimated] flag.  [fuel] bounds the number of iterations. *)
Fixpoint fallback (fuel : nat) (suburb : Suburb) (targetBeds minBeds beds : num)
  : option (value * num * bool) :=
  match fuel with
  | O => None
  | S fuel' =>
      if nge beds minBeds then
        match get suburb (medianRentKey beds) with
        | Null => fallback fuel' suburb targetBeds minBeds (nsub beds (Fin 1))
        | val => Some (val, beds, negb (nseq beds targetBeds))
        end
      else None
  end.

Definition targetBedsOf (sharingCount : num) (shareBedroom : bool) : num :=
  if nseq sharingCount (Fin 2) && shareBedroom then Fin 1
  else Math_min sharingCount (Fin 4).

Definition minBedsOf (sharingCount : num) (shareBedroom : bool) : num :=
  if nseq sharingCount (Fin 2) && shareBedroom then Fin 1
  else if nge sharingCount (Fin 4) then Fin 3
  else if nge sharingCount (Fin 3) then Fin 2
  else Fin 1.

Definition resolveSharedRent_fuel (fuel : nat) (suburb : Suburb)
  (userBedrooms : option num) (sharingCount : num) (shareBedroom : bool)
  : option Resolved :=
  if nle sharingCount (Fin 1) then
    let key :=
      match userBedrooms with
      | Some b => if truthy (Num b) then medianRentKey b else field_overall
      | None => field_overall
      end in
    match get suburb key with
    | Null => None
    | rent =>
        Some {| totalRent := rent; perPersonRent := rent;
                rentEstimated := false;
                bedsUsed := match userBedrooms with
                            | Some b => b
                            | None => Fin 0
                            end |}
    end
  else
    let targetBeds := targetBedsOf sharingCount shareBedroom in
    let minBeds := minBedsOf sharingCount shareBedroom in
    match fallback fuel suburb targetBeds minBeds targetBeds with
    | None => None
    | Some (rent, bedsUsed, estimated) =>
        let perPerson :=
          ndiv (Math_round (nmul (ndiv (toNumber rent) sharingCount) (Fin 10)))
               (Fin 10) in
        Some {| totalRent := rent; perPersonRent := Num perPerson;
                rentEstimated := estimated; bedsUsed := bedsUsed |}
    end.

(** The loop starts at most at 4 and stops below 1, so four iterations
    are all it can make ([resolveSharedRent_fuel_enough]). *)
Definition resolveSharedRent : Suburb -> option num -> num -> bool -> option Resolved :=
  resolveSharedRent_fuel 4.

(** [Array.prototype.sort] with a comparison function: the stable sort; a
    comparison that evaluates to [NaN] counts as [+0]. *)
Fixpoint insert {A} (cmp : A -> A -> num) (x : A) (l : list A) : list A :=
  match l with
  | [] => [x]
  | y :: l' => if ngt (cmp x y) (Fin 0) then y :: insert cmp x l' else x :: l
  end.

Definition Array_sort {A} (cmp : A -> A -> num) (l : list A) : list A :=
  fold_right (insert cmp) [] l.

(** [Object.keys(o).sort()]: the keys in ascending order of their code
    units. *)
Fixpoint insert_key (k : string) (l : list string) : list string :=
  match l with
  | [] => [k]
  | k' :: l' => if String.leb k k' then k :: l else k' :: insert_key k l'
  end.

Definition sorted_keys {V} (o : list (string * V)) : list string :=
  fold_right insert_key [] (map fst o).

(** [o[k]] on a [Record<string, number>]. *)
Definition lookup_number (o : list (string * Q)) (k : string) : num :=
  match find (fun e => String.eqb (fst e) k) o with
  | Some e => Fin (snd e)
  | None => NaN
  end.

Definition trendPenaltyOf (rent_trend : list (string * Q)) : num :=
  let trendYears := sorted_keys rent_trend in
  if (2 <=? length trendYears)%nat then
    let oldest := lookup_number rent_trend (hd EmptyString trendYears) in
    let newest := lookup_number rent_trend (List.last trendYears EmptyString) in
    if ngt oldest (Fin 0) then
      let increase := ndiv (nsub newest oldest) oldest in
      if ngt increase (Fin (1 # 10)) then
        Math_min (Fin 5) (nmul increase (Fin 10))
      else Fin 0
    else Fin 0
  else Fin 0.

Record StationInfo : Type := {
  ns_name : string;
  ns_distance_km : R;
  ns_type : StationType;
  ns_lines : list string
}.

Record ScoredSuburb : Type := {
  s_suburb_key : string;
  s_postcode : string;
  s_suburb_name : option string;
  s_lat : option Q;
  s_lng : option Q;
  median_rent : value;
  rent_stress_pct : num;
  affordability_score : num;
  s_rating : RentStressRating;
  s_total_bonds : Q;
  s_rent_trend : list (string * Q);
  s_dwelling_types : list (string * Q);
  nearest_station : option StationInfo;
  commute_minutes : option Z;
  commute_label : option string;
  sharing_mode : num;
  total_rent : value;
  per_person_rent : value;
  solo_rent : option Q;
  savings_vs_solo : option num;
  rent_estimated : bool
}.

(** The query parameters the handler reads ([params.get]). *)
Record Request : Type := {
  p_income : option string;
  p_bedrooms : option string;
  p_sharing : option string;
  p_share_bedroom : option string;
  p_workplace : option string
}.

Record Body : Type := {
  income_weekly : num;
  bedrooms : option num;
  body_sharing_mode : num;
  workplace : option string;
  workplace_postcode : option string;
  workplace_suburb_key : option string;
  workplace_lat : option Q;
  workplace_lng : option Q;
  total_matching : nat;
  showing : nat;
  suburbs : list ScoredSuburb
}.

Inductive Response : Type :=
| Status400 (error : string)
| Status200 (body : Body)
| Status500 (error : string).

(** [!s] for a parameter: absent or empty. *)
Definition present (p : option string) : option string :=
  match p with
  | Some s => if nonempty s then Some s else None
  | None => None
  end.

Section Handler.

(** [Number(s)], the conversion of a string to a number. *)
Variable Number : string -> num.

Variable dataset : list (string * Suburb).
Variable stations : list TrainStation.

Definition sharingCountOf (req : Request) : num :=
  match present (p_sharing req) with
  | Some sharingStr =>
      Math_min (Fin 4) (Math_max (Fin 1) (nor (Number sharingStr) (Fin 1)))
  | None => Fin 1
  end.

Definition shareBedroomOf (req : Request) : bool :=
  match p_share_bedroom req with
  | Some s => String.eqb s "1"
  | None => false
  end.

(** The suburb the workplace text resolves to. *)
Definition resolveWorkplace (req : Request) : option Suburb :=
  match present (p_workplace req) with
  | None => None
  | Some workplaceStr =>
      let trimmed := Str.trim workplaceStr in
      match searchSuburbs dataset trimmed with
      | m :: _ => Some m
      | [] =>
          if Str.four_digits trimmed then getSuburbByPostcode dataset trimmed
          else None
      end
  end.

(** The body of the loop over the suburbs: [None] is [continue]. *)
Definition scoreSuburb (income : num) (bedrooms : option num)
  (sharingCount : num) (shareBedroom : bool) (workplacePostcode : option string)
  (suburb : Suburb) : option ScoredSuburb :=
  match resolveSharedRent suburb bedrooms sharingCount shareBedroom with
  | None => None
  | Some resolved =>
      let stress :=
        calculateRentStress income (toNumber (perPersonRent resolved)) in
      if ngt (percentage stress) (Fin 100) then None
      else
        let soloRent :=
          if ngt sharingCount (Fin 1) then
            match median_rent_1bed suburb with
            | Some r => Some r
            | None => median_rent_overall suburb
            end
          else None in
        let savingsVsSolo :=
          match soloRent with
          | Some r =>
              Some (Math_round (nsub (Fin r) (toNumber (perPersonRent resolved))))
          | None => None
          end in
        let nearestStation :=
          match lat suburb, lng suburb with
          | Some la, Some lo =>
              match getNearestStation stations (Q2R la) (Q2R lo) with
              | Some ns =>
                  Some {| ns_name := name (station ns);
                          ns_distance_km := station_distanceKm ns;
                          ns_type := type (station ns);
                          ns_lines := lines (station ns) |}
              | None => None
              end
          | _, _ => None
          end in
        let est :=
          match workplacePostcode with
          | Some wp =>
              if nonempty wp then estimateCommuteTime dataset (postcode suburb) wp
              else None
          | None => None
          end in
        let supplyBonus :=
          Math_min (Fin 5) (ndiv (Fin (total_bonds suburb)) (Fin 500)) in
        let trendPenalty := trendPenaltyOf (rent_trend suburb) in
        let affordabilityScore :=
          ndiv (Math_round
                  (nmul (nadd (nsub (percentage stress) supplyBonus) trendPenalty)
                        (Fin 10)))
               (Fin 10) in
        Some {| s_suburb_key := suburb_key suburb;
                s_postcode := postcode suburb;
                s_suburb_name := suburb_name suburb;
                s_lat := lat suburb;
                s_lng := lng suburb;
                median_rent := perPersonRent resolved;
                rent_stress_pct := percentage stress;
                affordability_score := affordabilityScore;
                s_rating := rating stress;
                s_total_bonds := total_bonds suburb;
                s_rent_trend := rent_trend suburb;
                s_dwelling_types := dwelling_types suburb;
                nearest_station := nearestStation;
                commute_minutes := option_map estimatedMinutes est;
                commute_label := option_map label est;
                sharing_mode := sharingCount;
                total_rent := totalRent resolved;
                per_person_rent := perPersonRent resolved;
                solo_rent := soloRent;
                savings_vs_solo := savingsVsSolo;
                rent_estimated := rentEstimated resolved |}
  end.

(** [scored] after the loop: every suburb that was not skipped, pushed in
    dataset order. *)
Definition scoredList (income : num) (bedrooms : option num)
  (sharingCount : num) (shareBedroom : bool) (workplacePostcode : option string)
  : list ScoredSuburb :=
  fold_left
    (fun scored suburb =>
       match scoreSuburb income bedrooms sharingCount shareBedroom
               workplacePostcode suburb with
       | Some e => scored ++ [e]
       | None => scored
       end)
    (getAllSuburbs dataset) [].

Definition byRentStress (a b : ScoredSuburb) : num :=
  nsub (rent_stress_pct a) (rent_stress_pct b).

Definition GET (req : Request) : Response :=
  match present (p_income req) with
  | None => Status400 "Missing required param: income (weekly $)"
  | Some incomeStr =>
      let income := Number incomeStr in
      if isNaN income || nle income (Fin 0) then
        Status400 "income must be a positive number (weekly $)"
      else
        let bedrooms := option_map Number (present (p_bedrooms req)) in
        if match bedrooms with
           | Some b => isNaN b || nlt b (Fin 1) || ngt b (Fin 5)
           | None => false
           end
        then Status400 "bedrooms must be between 1 and 5"
        else
          let sharingCount := sharingCountOf req in
          let shareBedroom := shareBedroomOf req in
          let wp := resolveWorkplace req in
          let workplacePostcode := option_map postcode wp in
          let scored :=
            Array_sort byRentStress
              (scoredList income bedrooms sharingCount shareBedroom
                 workplacePostcode) in
          let top := firstn MAX_RESULTS scored in
          Status200
            {| income_weekly := income;
               bedrooms := bedrooms;
               body_sharing_mode := sharingCount;
               workplace :=
                 match wp with
                 | Some w =>
                     match suburb_name w with
                     | Some n => Some n
                     | None => p_workplace req
                     end
                 | None => p_workplace req
                 end;
               workplace_postcode := workplacePostcode;
               workplace_suburb_key := option_map suburb_key wp;
               workplace_lat := match wp with Some w => lat w | None => None end;
               workplace_lng := match wp with Some w => lng w | None => None end;
               total_matching := length scored;
               showing := length top;
               suburbs := top |}
  end.

End Handler.

End Recommend.

(* ===================================================================== *)
(** * The enrichment caches of the gateway routes                         *)
(* ===================================================================== *)

(** The commute, directions, isochrone and overpass-poi routes each keep a
    [Map] from a key string to a payload with its capture time, read with
    the same [getCached].  [Date.now()] is an integer number of
    milliseconds; every call that reads the clock takes the reading as an
    argument. *)
Module Cache.

Definition CACHE_TTL_MS : Z := 24 * 60 * 60 * 1000.

Section Gateway.

(** The payload: a response object, hence never falsy. *)
Variable Data : Type.

Record CachedResult : Type := {
  data : Data;
  timestamp : Z
}.

(** [getCached (key)] at clock reading [now]: the result and the map
    afterwards. *)
Definition getCached (now : Z) (key : string) (cache : gmap string CachedResult)
  : option Data * gmap string CachedResult :=
  match cache !! key with
  | None => (None, cache)
  | Some entry =>
      if (now - timestamp entry >? CACHE_TTL_MS)%Z then (None, delete key cache)
      else (Some (data entry), cache)
  end.

(** The process state a route sees: its cache and the upstream requests
    issued so far. *)
Record World (Call : Type) : Type := {
  cache : gmap string CachedResult;
  upstream : list Call
}.

Arguments cache {Call} _.
Arguments upstream {Call} _.

Inductive Reply : Type :=
| Json (payload : Data)
| Error500 (message : string).

(** The part of [POST /api/overpass-poi] after the parameters are
    validated: [call] is the upstream request for them, [key] their cache
    key, [answer] what the upstream gives if asked (an error message when
    the fetch throws). *)
Definition POST_overpass_poi {Call} (call : Call) (key : string)
  (now_read now_store : Z) (answer : Data + string) (w : World Call)
  : Reply * World Call :=
  let (cached, cache1) := getCached now_read key (cache w) in
  match cached with
  | Some d => (Json d, {| cache := cache1; upstream := upstream w |})
  | None =>
      let issued := upstream w ++ [call] in
      match answer with
      | inl amenities =>
          (Json amenities,
           {| cache := <[key := {| data := amenities; timestamp := now_store |}]> cache1;
              upstream := issued |})
      | inr message =>
          (Error500 message, {| cache := cache1; upstream := issued |})
      end
  end.

End Gateway.

Arguments data {Data} _.
Arguments timestamp {Data} _.
Arguments cache {Data Call} _.
Arguments upstream {Data Call} _.
Arguments Json {Data} _.
Arguments Error500 {Data} _.

(** ** GET /api/commute *)

Local Open Scope R_scope.

Record TransitResult : Type := {
  transit_duration_min : R;
  transfers : Z;
  modes : list string;
  summary : string;
  departure : string;
  arrival : string
}.

Record DrivingResult : Type := {
  duration_min : R;
  distance_km : R;
  traffic_note : string
}.

Record CommuteResponse : Type := {
  transit : option TransitResult;
  transit_error : option string;
  driving : option DrivingResult;
  driving_error : option string;
  straight_line_km : R
}.

Inductive CommuteCall : Type :=
| fetchTransit (fromLat fromLng toLat toLng : R)
| fetchDriving (fromLat fromLng toLat toLng : R).

(** The handler after its four coordinates parsed to numbers.  Both
    fetches are started and both outcomes awaited; [cacheKey] is the
    two-decimal key of the coordinates. *)
Definition GET_commute (cacheKey : R -> R -> R -> R -> string)
  (fromLat fromLng toLat toLng : R) (now_read now_store : Z)
  (transitResult : TransitResult + string)
  (drivingResult : DrivingResult + string)
  (w : World CommuteResponse CommuteCall)
  : Reply CommuteResponse * World CommuteResponse CommuteCall :=
  let straightLineKm :=
    IZR (Commute.Rround (Commute.haversineKm fromLat fromLng toLat toLng * 10)) / 10 in
  let key := cacheKey fromLat fromLng toLat toLng in
  let (cached, cache1) := getCached CommuteResponse now_read key (cache w) in
  match cached with
  | Some d => (Json d, {| cache := cache1; upstream := upstream w |})
  | None =>
      let issued :=
        upstream w ++ [fetchTransit fromLat fromLng toLat toLng;
                       fetchDriving fromLat fromLng toLat toLng] in
      let response :=
        {| transit := match transitResult with inl t => Some t | inr _ => None end;
           transit_error :=
             match transitResult with inl _ => None | inr m => Some m end;
           driving :=
             match drivingResult with
             | inl d => Some d
             | inr _ =>
                 Some {| duration_min := IZR (Commute.Rround (straightLineKm * 2));
                         distance_km :=
                           IZR (Commute.Rround (straightLineKm * 1.3 * 10)) / 10;
                         traffic_note := "estimate (API unavailable)" |}
             end;
           driving_error :=
             match drivingResult with inl _ => None | inr m => Some m end;
           straight_line_km := straightLineKm |} in
      (Json response,
       {| cache := <[key := {| data := response; timestamp := now_store |}]> cache1;
          upstream := issued |})
  end.

End Cache.

(* ===================================================================== *)
(** * The vocabulary of the statements                                    *)
(* ===================================================================== *)

(** ** The shared-living policy, in the words of the specification *)

Section SharedRentPolicy.

Import Suburbs.

(** The median for a whole bedroom count: 1 to 4, and "5+" from 5 on. *)
Definition rent_for (s : Suburb) (bedrooms : Z) : option Q :=
  match bedrooms with
  | 1%Z => median_rent_1bed s
  | 2%Z => median_rent_2bed s
  | 3%Z => median_rent_3bed s
  | 4%Z => median_rent_4bed s
  | _ => if (5 <=? bedrooms)%Z then median_rent_5plus_bed s else None
  end.

(** Target bedroom count of a group: [min (group size, 4)], except that a
    pair sharing one bedroom targets 1. *)
Definition target_bedrooms (group : Z) (shareBedroom : bool) : Z :=
  if (group =? 2)%Z && shareBedroom then 1%Z else Z.min group 4.

(** Lowest bedroom count a group falls back to: 1 for a bedroom-sharing
    pair, 2 for three people, 3 for four or more; 1 for a pair with
    separate bedrooms. *)
Definition floor_bedrooms (group : Z) (shareBedroom : bool) : Z :=
  if (group =? 2)%Z && shareBedroom then 1%Z
  else if (4 <=? group)%Z then 3%Z
  else if (3 <=? group)%Z then 2%Z
  else 1%Z.

(** The bedroom counts from the target down to the floor. *)
Definition candidates (target floor : Z) : list Z :=
  map (fun i => (target - Z.of_nat i)%Z)
      (seq 0 (Z.to_nat (target - floor + 1))).

(** The first of them with a known median, and that median. *)
Definition first_known (s : Suburb) (target floor : Z) : option (Z * Q) :=
  match find (fun b => match rent_for s b with Some _ => true | None => false end)
             (candidates target floor) with
  | Some b => option_map (pair b) (rent_for s b)
  | None => None
  end.

End SharedRentPolicy.

(** ** Sorting by a numeric key *)

Section SortKeys.

Context {A : Type}.
Variable key : A -> num.

Definition by_key (a b : A) : num := nsub (key a) (key b).

Definition key_le (a b : A) : Prop := nle (key a) (key b) = true.

Definition finite_key (a : A) : Prop := exists q, key a = Fin q.

End SortKeys.

(** ** Requests of the recommendation handler *)

Section RequestVocabulary.

Import Suburbs Commute Recommend.
Local Open Scope Q_scope.

Variable Number : string -> num.
Variable dataset : list (string * Suburb).
Variable stations : list TrainStation.

(** The income parameter is there and parses to a number above zero. *)
Definition income_positive (req : Request) : Prop :=
  exists s q, present (p_income req) = Some s /\ Number s = Fin q /\ 0 < q.

(** The income parameter is there and parses to a number that is not
    negative. *)
Definition income_nonnegative (req : Request) : Prop :=
  exists s q, present (p_income req) = Some s /\ Number s = Fin q /\ 0 <= q.

(** The bedrooms parameter is absent (or empty) or parses to a number from
    1 to 5. *)
Definition bedrooms_in_range (req : Request) : Prop :=
  match present (p_bedrooms req) with
  | None => True
  | Some s => exists q, Number s = Fin q /\ 1 <= q <= 5
  end.

(** What the handler computes from a request that passes validation. *)
Definition incomeOf (req : Request) : num :=
  match present (p_income req) with
  | Some s => Number s
  | None => NaN
  end.

Definition bedroomsOf (req : Request) : option num :=
  option_map Number (present (p_bedrooms req)).

Definition scoredOf (req : Request) : list ScoredSuburb :=
  scoredList dataset stations (incomeOf req) (bedroomsOf req)
    (sharingCountOf Number req) (shareBedroomOf req)
    (option_map postcode (resolveWorkplace dataset req)).

(** The group size is a whole number, and so is the bedroom count when
    one is given. *)
Definition whole_params (req : Request) : Prop :=
  is_whole (sharingCountOf Number req) /\
  match bedroomsOf req with
  | Some b => is_whole b
  | None => True
  end.

(** The response entry of a suburb: what the loop body builds for it. *)
Definition entry_of (req : Request) (s : Suburb) : option ScoredSuburb :=
  scoreSuburb dataset stations (incomeOf req) (bedroomsOf req)
    (sharingCountOf Number req) (shareBedroomOf req)
    (option_map postcode (resolveWorkplace dataset req)) s.


End RequestVocabulary.

(** ** Groups of search matches *)

Section SearchGroups.

Import Suburbs.

(** The four groups of matches for a normalised query [q], each without
    the suburbs of the groups before it. *)
Definition exact_match (q : string) (s : Suburb) : bool :=
  String.eqb (lowerName s) q.

Definition prefix_match (q : string) (s : Suburb) : bool :=
  negb (exact_match q s) && Str.startsWith (lowerName s) q.

Definition substring_match (q : string) (s : Suburb) : bool :=
  negb (exact_match q s) && negb (Str.startsWith (lowerName s) q) &&
  Str.includes (lowerName s) q.

Definition postcode_match (q : string) (s : Suburb) : bool :=
  negb (exact_match q s) && negb (Str.startsWith (lowerName s) q) &&
  negb (Str.includes (lowerName s) q) && Str.startsWith (postcode s) q.

(** The matches in priority order. *)
Definition grouped (q : string) (all : list Suburb) : list Suburb :=
  List.filter (exact_match q) all ++ List.filter (prefix_match q) all ++
  List.filter (substring_match q) all ++ List.filter (postcode_match q) all.

End SearchGroups.

(** ** Usable coordinates *)

Section Coordinates.

Import Suburbs.

Variable suburbs : list (string * Suburb).

(** The postcode resolves to a suburb whose latitude and longitude are
    both given and both different from 0. *)
Definition has_coordinates (pc : string) (la lo : Q) : Prop :=
  exists s, getSuburbByPostcode suburbs pc = Some s /\
            lat s = Some la /\ lng s = Some lo /\
            ~ (la == 0)%Q /\ ~ (lo == 0)%Q.

End Coordinates.

(** ** Doubles *)

Section DoubleVocabulary.

Import Double.

(** The double [d] is finite and denotes the rational [q]. *)
Definition denotes (d : double) (q : Q) : Prop :=
  match d with
  | finite v => (v == q)%Q
  | _ => False
  end.

(** The rational [q] is the value of a double: rounding leaves it. *)
Definition is_double (q : Q) : Prop := denotes (round64 q) q.

End DoubleVocabulary.

(** The doubles of the machine, to compare [Double] with. *)
Module Hardware.

Import Floats.SpecFloat.

(** The rational a float of the kernel denotes. *)
Definition value (f : PrimFloat.float) : option Q :=
  match FloatOps.Prim2SF f with
  | S754_zero _ => Some 0%Q
  | S754_finite s m e =>
      Some ((if s then - inject_Z (Zpos m) else inject_Z (Zpos m)) * Double.pow2 e)%Q
  | _ => None
  end.

(** The float of a natural number below [2^53]. *)
Definition ofZ (z : Z) : PrimFloat.float := PrimFloat.of_uint63 (Uint63.of_Z z).

Definition same (d : Double.double) (f : PrimFloat.float) : bool :=
  match d, FloatOps.Prim2SF f with
  | Double.nan, S754_nan => true
  | Double.infinity s, S754_infinity t => Bool.eqb s t
  | Double.finite q, _ =>
      match value f with
      | Some v => Qeq_bool q v
      | None => false
      end
  | _, _ => false
  end.

End Hardware.

(** ** The order of the keys of an object *)

Section KeyOrder.

Fixpoint digits_value (s : string) (acc : N) : option N :=
  match s with
  | EmptyString => Some acc
  | String c s' =>
      if Str.is_digit c
      then digits_value s' (acc * 10 + (N.of_nat (nat_of_ascii c) - 48))%N
      else None
  end.

(** The number of a key that is an array index: a decimal numeral without
    a leading zero ("0" itself apart) below [2^32 - 1]. *)
Definition array_index (key : string) : option N :=
  match key with
  | EmptyString => None
  | String c rest =>
      if Ascii.eqb c "0" && nonempty rest then None
      else
        match digits_value key 0 with
        | Some n => if (n <? 4294967295)%N then Some n else None
        | None => None
        end
  end.

Fixpoint indices_first (named : bool) (previous : option N) (keys : list string)
  : bool :=
  match keys with
  | [] => true
  | k :: rest =>
      match array_index k with
      | Some n =>
          negb named &&
          match previous with
          | Some p => (p <? n)%N
          | None => true
          end &&
          indices_first false (Some n) rest
      | None => indices_first true previous rest
      end
  end.

Fixpoint distinct (keys : list string) : bool :=
  match keys with
  | [] => true
  | k :: rest => negb (existsb (String.eqb k) rest) && distinct rest
  end.

(** [Object.values] enumerates the keys that are array indices first, in
    ascending order, and then the other keys in the order of their
    creation, which for a parsed JSON text is the order of the text.  So a
    list of keys is the order of the values of some object when the keys
    are pairwise distinct and the indices come first and ascend. *)
Definition enumeration_order (keys : list string) : bool :=
  distinct keys && indices_first false None keys.

End KeyOrder.

(* ===================================================================== *)
(** * Example data                                                        *)
(* ===================================================================== *)

Module Examples.

Import Suburbs Commute Recommend.

Fixpoint read_digits (s : string) (acc : Z) (n : nat) : Z * nat * string :=
  match s with
  | String c s' =>
      if Str.is_digit c
      then read_digits s' (acc * 10 + (Z.of_nat (nat_of_ascii c) - 48))%Z (S n)
      else (acc, n, s)
  | EmptyString => (acc, n, s)
  end.

(** A reader of plain decimal literals (optional sign, digits, optional
    fraction; the empty string is 0), which is what [Number] does on such
    strings.  Exponents, radix prefixes and [Infinity] are not read; the
    examples do not use them. *)
Definition Number_decimal (s : string) : num :=
  match Str.trim s with
  | EmptyString => Fin 0
  | String c r as t =>
      let (negative, body) :=
        if Ascii.eqb c "-" then (true, r)
        else if Ascii.eqb c "+" then (false, r)
        else (false, t) in
      let '(ip, n1, rest) := read_digits body 0 0 in
      let '(fp, n2, rest2) :=
        match rest with
        | String d r' => if Ascii.eqb d "." then read_digits r' 0 0 else (0%Z, O, rest)
        | EmptyString => (0%Z, O, rest)
        end in
      if (n1 + n2 =? 0)%nat then NaN
      else
        match rest2 with
        | EmptyString =>
            let v := (inject_Z ip + inject_Z fp / inject_Z (10 ^ Z.of_nat n2))%Q in
            Fin (if negative then - v else v)%Q
        | String _ _ => NaN
        end
  end.

(** A suburb with the given key, postcode, name, bond count and 1- to
    4-bedroom medians, and nothing else known. *)
Definition mkSuburb (key pc : string) (nm : option string) (bonds : Q)
  (r1 r2 r3 r4 : option Q) : Suburb :=
  {| suburb_key := key; postcode := pc; suburb_name := nm;
     lat := None; lng := None;
     median_rent_overall := None; avg_rent := None; total_bonds := bonds;
     median_rent_1bed := r1; median_rent_2bed := r2;
     median_rent_3bed := r3; median_rent_4bed := r4;
     median_rent_5plus_bed := None;
     dwelling_types := []; rent_trend := [];
     median_household_income_weekly := None;
     rent_stress_pct_1bed := None; rent_stress_pct_2bed := None;
     rent_stress_pct_3bed := None; rent_stress_pct_4bed := None;
     rent_stress_pct_5plus_bed := None |}.

Definition request (income bedrooms sharing share_bedroom workplace : option string)
  : Request :=
  {| p_income := income; p_bedrooms := bedrooms; p_sharing := sharing;
     p_share_bedroom := share_bedroom; p_workplace := workplace |}.

Local Open Scope Q_scope.

(** Two suburbs: the dearer one has the larger bond count. *)
Definition two_suburbs : list (string * Suburb) :=
  [ ("A_2000"%string,
     mkSuburb "A_2000" "2000" (Some "A"%string) 0 (Some 300) None None None);
    ("B_2001"%string,
     mkSuburb "B_2001" "2001" (Some "B"%string) 2500 (Some 310) None None None) ].

Definition income_1000_one_bedroom : Request :=
  request (Some "1000"%string) (Some "1"%string) None None None.

(** 501 suburbs with postcodes 2000 to 2500 and 1-bedroom medians 100 to
    600. *)
Definition numbered_suburb (i : nat) : string * Suburb :=
  let pc := NilZero.string_of_uint (Nat.to_uint (2000 + i)) in
  (pc, mkSuburb pc pc None 0 (Some (inject_Z (Z.of_nat (100 + i)))) None None None).

Definition many_suburbs : list (string * Suburb) := map numbered_suburb (seq 0 501).

Definition bondi_suburbs : list (string * Suburb) :=
  [ ("North Bondi_2026"%string,
     mkSuburb "North Bondi_2026" "2026" (Some "North Bondi"%string) 0 None None None None);
    ("Bondi Junction_2022"%string,
     mkSuburb "Bondi Junction_2022" "2022" (Some "Bondi Junction"%string) 0 None None None None);
    ("Bondi_2026"%string,
     mkSuburb "Bondi_2026" "2026" (Some "Bondi"%string) 0 None None None None) ].

(** A dataset whose second record has no name. *)
Definition unnamed_second : list (string * Suburb) :=
  [ ("Ryde_2112"%string,
     mkSuburb "Ryde_2112" "2112" (Some "Ryde"%string) 0 None None None None);
    ("Unnamed_2000"%string,
     mkSuburb "Unnamed_2000" "2000" None 0 None None None None) ].

Definition located (key pc : string) (la lo : Q) : Suburb :=
  {| suburb_key := key; postcode := pc; suburb_name := None;
     lat := Some la; lng := Some lo;
     median_rent_overall := None; avg_rent := None; total_bonds := 0;
     median_rent_1bed := None; median_rent_2bed := None;
     median_rent_3bed := None; median_rent_4bed := None;
     median_rent_5plus_bed := None;
     dwelling_types := []; rent_trend := [];
     median_household_income_weekly := None;
     rent_stress_pct_1bed := None; rent_stress_pct_2bed := None;
     rent_stress_pct_3bed := None; rent_stress_pct_4bed := None;
     rent_stress_pct_5plus_bed := None |}.

Definition sydney_parramatta : list (string * Suburb) :=
  [ ("Sydney_2000"%string, located "Sydney_2000" "2000" (-33.87) 151.21);
    ("Parramatta_2150"%string, located "Parramatta_2150" "2150" (-33.81) 151.00) ].

(** A dataset with a record on the equator. *)
Definition equator_and_sydney : list (string * Suburb) :=
  [ ("Equator_0001"%string, located "Equator_0001" "0001" 0 151.21);
    ("Sydney_2000"%string, located "Sydney_2000" "2000" (-33.87) 151.21) ].

End Examples.

(* ===================================================================== *)
(** * Reading a property of a JSON object                                 *)
(* ===================================================================== *)

(** [suburbData] and [amenityData] are objects parsed from JSON: their
    prototype is [Object.prototype], and [obj[key]] finds what the object
    has under the key or else what it inherits under that name. *)
Module Lookup.

(** The names every object inherits.  The value under each is a function
    or, under [__proto__], the prototype itself: it is truthy and not
    nullish, and it has none of the properties of a record of the data. *)
Definition Object_prototype : list string :=
  [ "constructor"; "__defineGetter__"; "__defineSetter__"; "hasOwnProperty";
    "__lookupGetter__"; "__lookupSetter__"; "isPrototypeOf";
    "propertyIsEnumerable"; "toString"; "valueOf"; "__proto__";
    "toLocaleString" ]%string.

Definition inherited (name : string) : bool :=
  existsb (String.eqb name) Object_prototype.

(** What a property read gives when it does not give [undefined]: the
    value the object has under the key, or the value inherited under the
    name. *)
Inductive Property (A : Type) : Type :=
| Own (a : A)
| Inherited (name : string).

Arguments Own {A} a.
Arguments Inherited {A} name.

(** [obj[key]], [None] for [undefined]. *)
Definition read {A} (obj : list (string * A)) (key : string)
  : option (Property A) :=
  match find (fun e => String.eqb (fst e) key) obj with
  | Some e => Some (Own (snd e))
  | None => if inherited key then Some (Inherited key) else None
  end.

Section Dataset.

Variable suburbs : list (string * Suburbs.Suburb).

(** [getSuburbByKey]: [suburbs[key]]. *)
Definition getSuburbByKey (key : string) : option (Property Suburbs.Suburb) :=
  read suburbs key.

(** [getSuburbByPostcode]: every value a read finds is truthy, so the
    scan by postcode runs only when the read gives [undefined]. *)
Definition getSuburbByPostcode (postcode : string)
  : option (Property Suburbs.Suburb) :=
  match read suburbs postcode with
  | Some v => Some v
  | None =>
      option_map Own
        (find (fun s => String.eqb (Suburbs.postcode s) postcode)
              (Suburbs.getAllSuburbs suburbs))
  end.

End Dataset.

End Lookup.

(* ===================================================================== *)
(** * src/lib/suburbs.ts, continued                                       *)
(* ===================================================================== *)

Module Medians.

Import Suburbs Recommend.

(** The values that pass [v != null]: the numbers. *)
Definition numbers (vs : list value) : list Q :=
  flat_map (fun v => match v with Num (Fin q) => [q] | _ => [] end) vs.

Definition ascending (a b : Q) : num := nsub (Fin a) (Fin b).

(** [sydneyMedianRent (field)], for the rent fields. *)
Definition sydneyMedianRent (suburbs : list (string * Suburb)) (field : RentField)
  : num :=
  let values :=
    Array_sort ascending
      (numbers (map (fun s => get s field) (getAllSuburbs suburbs))) in
  match nth_error values (Nat.div (length values) 2) with
  | Some v => Fin v
  | None => Fin 0
  end.

End Medians.

(* ===================================================================== *)
(** * src/lib/commute.ts, continued                                       *)
(* ===================================================================== *)

Module Stations.

Import Suburbs Commute.
Local Open Scope R_scope.

(** [Array.prototype.sort] for a comparison function with real values:
    the same stable sort as [Recommend.Array_sort]. *)
Fixpoint insert_real {A} (cmp : A -> A -> R) (x : A) (l : list A) : list A :=
  match l with
  | [] => [x]
  | y :: l' => if Rlt_dec 0 (cmp x y) then y :: insert_real cmp x l' else x :: l
  end.

Definition Array_sort_real {A} (cmp : A -> A -> R) (l : list A) : list A :=
  fold_right (insert_real cmp) [] l.

Section Dataset.

Variable suburbs : list (string * Suburb).
Variable stations : list TrainStation.

(** The loop of [getNearbyStations]: the stations within the radius, in
    station order, with the distance rounded to two decimals. *)
Definition within_radius (la lo radiusKm : R) : list NearestStationResult :=
  fold_left
    (fun results s =>
       let d := haversineKm la lo (Q2R (station_lat s)) (Q2R (station_lng s)) in
       if Rle_dec d radiusKm then
         results ++ [{| station := s;
                        station_distanceKm := IZR (Rround (d * 100)) / 100 |}]
       else results)
    stations [].

Definition getNearbyStations (la lo radiusKm : R) : list NearestStationResult :=
  Array_sort_real (fun a b => station_distanceKm a - station_distanceKm b)
    (within_radius la lo radiusKm).

Definition estimateCommuteFromCoords (fromLat fromLng : R) (toPostcode : string)
  : option CommuteEstimate :=
  match usable_coords (getSuburbByPostcode suburbs toPostcode) with
  | Some (toLat, toLng) =>
      let dist := haversineKm fromLat fromLng (Q2R toLat) (Q2R toLng) in
      let minutes := Z.max 5 (Rround (dist * 2.5)) in
      Some {| distanceKm := IZR (Rround (dist * 10)) / 10;
              estimatedMinutes := minutes;
              label := minutes_label minutes |}
  | None => None
  end.

End Dataset.

End Stations.

(* ===================================================================== *)
(** * src/lib/amenities.ts                                                *)
(* ===================================================================== *)

Module Amenities.

Record AmenityItem : Type := {
  amenity_name : string;
  distance_km : Q;
  amenity_lat : Q;
  amenity_lng : Q
}.

Record SuburbAmenities : Type := {
  hospitals : list AmenityItem;
  schools : list AmenityItem;
  universities : list AmenityItem;
  fire_stations : list AmenityItem;
  police : list AmenityItem;
  childcare : list AmenityItem
}.

Record AmenitySummary : Type := {
  hospital_count : nat;
  school_count : nat;
  university_count : nat;
  fire_station_count : nat;
  police_count : nat;
  childcare_count : nat
}.

Definition EMPTY : SuburbAmenities :=
  {| hospitals := []; schools := []; universities := [];
     fire_stations := []; police := []; childcare := [] |}.

(** [a.some (x => x.distance_km <= limit)] *)
Definition some_within (limit : Q) (a : list AmenityItem) : bool :=
  List.existsb (fun x => Qle_bool (distance_km x) limit) a.

(** How a call ends: it returns, or it throws the [TypeError] of reading
    a property of [undefined]. *)
Inductive Outcome (A : Type) : Type :=
| Returned (a : A)
| TypeError.

Arguments Returned {A} a.
Arguments TypeError {A}.

Section Dataset.

(** [amenityData]: postcode and amenity lists, the entries of the JSON
    object. *)
Variable data : list (string * SuburbAmenities).

(** [data[postcode] ?? EMPTY] *)
Definition getAmenities (postcode : string) : Lookup.Property SuburbAmenities :=
  match Lookup.read data postcode with
  | Some v => v
  | None => Lookup.Own EMPTY
  end.

(** An inherited value has no [hospitals]: [a.hospitals.length] throws. *)
Definition getAmenitySummary (postcode : string) : Outcome AmenitySummary :=
  match getAmenities postcode with
  | Lookup.Own a =>
      Returned
        {| hospital_count := length (hospitals a);
           school_count := length (schools a);
           university_count := length (universities a);
           fire_station_count := length (fire_stations a);
           police_count := length (police a);
           childcare_count := length (childcare a) |}
  | Lookup.Inherited _ => TypeError
  end.

(** The score is a sum of whole numbers.  On an inherited value
    [a.hospitals.some] throws. *)
Definition getAmenityScore (postcode : string) : Outcome Z :=
  match getAmenities postcode with
  | Lookup.Own a =>
      let score := 0%Z in
      let score := if some_within 2 (hospitals a) then (score + 25)%Z else score in
      let score :=
        if (3 <=? length (List.filter (fun s => Qle_bool (distance_km s) 5)
                                      (schools a)))%nat
        then (score + 25)%Z else score in
      let score := if some_within 5 (universities a) then (score + 15)%Z else score in
      let score := if some_within 5 (fire_stations a) then (score + 10)%Z else score in
      let score := if some_within 5 (police a) then (score + 10)%Z else score in
      let score := if some_within 3 (childcare a) then (score + 15)%Z else score in
      Returned score
  | Lookup.Inherited _ => TypeError
  end.

End Dataset.

End Amenities.

(* ===================================================================== *)
(** * src/app/api/affordability/route.ts                                  *)
(* ===================================================================== *)

Module Affordability.

Import Suburbs.

Record Request : Type := {
  p_postcode : option string;
  p_income : option string;
  p_bedrooms : option string
}.

Record Body : Type := {
  postcode : string;
  suburb_name : option string;
  bedrooms : option num;
  weekly_income : num;
  median_rent : value;
  rent_stress_pct : num;
  rating : RentStressRating;
  median_household_income_weekly : option Q
}.

Inductive Response : Type :=
| Status400 (error : string)
| Status404 (error : string)
| Status200 (body : Body)
| Status500 (error : string).

Section Handler.

(** [Number (s)] and the conversion of a number to a string in a
    template. *)
Variable Number : string -> num.
Variable String_of : num -> string.

Variable dataset : list (string * Suburb).

(** The handler for the postcodes that are no name every object inherits
    ([Lookup.inherited]): for those [getSuburbByPostcode] is the lookup of
    [Suburbs].  (For an inherited name the code finds the inherited value,
    which has no field at all.) *)
Definition GET (req : Request) : Response :=
  match Recommend.present (p_postcode req), Recommend.present (p_income req) with
  | Some postcode, Some incomeStr =>
      let income := Number incomeStr in
      if isNaN income || nlt income (Fin 0) then
        Status400 "income must be a non-negative number (weekly $)"
      else
        let bedrooms := option_map Number (Recommend.present (p_bedrooms req)) in
        if match bedrooms with
           | Some b => isNaN b || nlt b (Fin 1) || ngt b (Fin 5)
           | None => false
           end
        then Status400 "bedrooms must be between 1 and 5"
        else
          match getSuburbByPostcode dataset postcode with
          | None =>
              Status404 ("Postcode " ++ postcode ++ " not found in Sydney data")
          | Some suburb =>
              let rentKey :=
                match bedrooms with
                | Some b => if truthy (Num b) then medianRentKey b else field_overall
                | None => field_overall
                end in
              match get suburb rentKey with
              | Null =>
                  Status404
                    ("No rent data for "
                     ++ match bedrooms with
                        | Some b => String_of b
                        | None => "overall"
                        end
                     ++ "-bedroom in postcode " ++ postcode)
              | medianRent =>
                  let stress := calculateRentStress income (toNumber medianRent) in
                  Status200
                    {| postcode := Suburbs.postcode suburb;
                       suburb_name := Suburbs.suburb_name suburb;
                       bedrooms := bedrooms;
                       weekly_income := income;
                       median_rent := medianRent;
                       rent_stress_pct := percentage stress;
                       rating := Suburbs.rating stress;
                       median_household_income_weekly :=
                         Suburbs.median_household_income_weekly suburb |}
              end
          end
  | _, _ => Status400 "Missing required params: postcode, income"
  end.

End Handler.

End Affordability.

(* ===================================================================== *)
(** * src/app/api/suburbs/[suburbKey]/route.ts                             *)
(* ===================================================================== *)

Module SuburbRoutes.

Import Suburbs Commute Recommend.
Local Open Scope R_scope.

Record SydneyMedians : Type := {
  medians_overall : num;
  medians_1bed : num;
  medians_2bed : num;
  medians_3bed : num
}.

Record DetailBody : Type := {
  detail_suburb : Lookup.Property Suburb;
  nearby_stations : list StationInfo;
  detail_nearest_station : option StationInfo;
  sydney_medians : SydneyMedians
}.

(** The double-quote character. *)
Definition quote : string := String (ascii_of_nat 34) EmptyString.

Inductive DetailResponse : Type :=
| Detail404 (error : string)
| Detail200 (body : DetailBody).

Section Handlers.

Variable dataset : list (string * Suburb).
Variable stations : list TrainStation.

(** [GET /api/suburbs/[suburbKey]] *)
Definition GET_suburb (suburbKey : string) : DetailResponse :=
  match match Lookup.getSuburbByKey dataset suburbKey with
        | Some v => Some v
        | None => Lookup.getSuburbByPostcode dataset suburbKey
        end with
  | None => Detail404 ("Suburb " ++ quote ++ suburbKey ++ quote ++ " not found")
  | Some suburb =>
      let nearby :=
        match suburb with
        | Lookup.Own s =>
            match lat s, lng s with
            | Some la, Some lo =>
                map (fun ns => {| ns_name := name (station ns);
                                  ns_distance_km := station_distanceKm ns;
                                  ns_type := type (station ns);
                                  ns_lines := lines (station ns) |})
                    (Stations.getNearbyStations stations (Q2R la) (Q2R lo) 0.5)
            | _, _ => []
            end
        | Lookup.Inherited _ => []
        end in
      Detail200
        {| detail_suburb := suburb;
           nearby_stations := nearby;
           detail_nearest_station := List.hd_error nearby;
           sydney_medians :=
             {| medians_overall := Medians.sydneyMedianRent dataset field_overall;
                medians_1bed := Medians.sydneyMedianRent dataset field_1bed;
                medians_2bed := Medians.sydneyMedianRent dataset field_2bed;
                medians_3bed := Medians.sydneyMedianRent dataset field_3bed |} |}
  end.

End Handlers.

End SuburbRoutes.

(* ===================================================================== *)
(** * src/lib/ors-matrix.ts                                               *)
(* ===================================================================== *)

Module OrsMatrix.

Record Point : Type := { pt_lat : Q; pt_lng : Q }.

(** [toOrsCoords]: the provider wants longitude first. *)
Definition toOrsCoords (lat lng : Q) : Q * Q := (lng, lat).

Record MatrixRequest : Type := {
  locations : list (Q * Q);
  sources : list nat;
  destinations : list nat
}.

Record MatrixResult : Type := {
  durations_min : list (list num);
  distances_km : list (list num)
}.

(** [arr.map ((_, i) => f i)] *)
Definition map_index {A B} (f : nat -> B) (arr : list A) : list B :=
  map f (seq 0 (length arr)).

(** The request body [fetchOrsMatrix] builds: suburbs first, then hubs. *)
Definition matrixRequest (suburbs hubs : list Point) : MatrixRequest :=
  {| locations :=
       map (fun s => toOrsCoords (pt_lat s) (pt_lng s)) suburbs ++
       map (fun h => toOrsCoords (pt_lat h) (pt_lng h)) hubs;
     sources := map_index (fun i => i) suburbs;
     destinations := map_index (fun i => (length suburbs + i)%nat) hubs |}.

(** What [fetchOrsMatrix] makes of the provider's answer: seconds to
    rounded minutes, kilometres to one decimal. *)
Definition matrixResult (durations distances : list (list num)) : MatrixResult :=
  {| durations_min :=
       map (map (fun sec => Math_round (ndiv sec (Fin 60)))) durations;
     distances_km :=
       map (map (fun km => ndiv (Math_round (nmul km (Fin 10))) (Fin 10)))
           distances |}.

End OrsMatrix.

(* ===================================================================== *)
(** * Helpers of the pages                                                *)
(* ===================================================================== *)

(** [stressLabel] of the suburb page; [estimateCommuteMinutes] and
    [budgetBadge] of the results page. *)
Module Pages.

Definition stressLabel (pct : option num) : string :=
  match pct with
  | None => "N/A"
  | Some p =>
      if nlt p (Fin 25) then "Comfortable"
      else if nle p (Fin 30) then "Manageable"
      else if nle p (Fin 40) then "Stressed"
      else "Severe"
  end.

Record Badge : Type := { badge_label : string; color : string; bg : string }.

Definition budgetBadge (stressPct : num) : Badge :=
  if nle stressPct (Fin 25) then
    {| badge_label := "Great Value"; color := "text-emerald-700";
       bg := "bg-emerald-50 border-emerald-200" |}
  else if nle stressPct (Fin 30) then
    {| badge_label := "Comfortable"; color := "text-emerald-700";
       bg := "bg-emerald-50 border-emerald-200" |}
  else if nle stressPct (Fin 40) then
    {| badge_label := "Manageable"; color := "text-amber-700";
       bg := "bg-amber-50 border-amber-200" |}
  else
    {| badge_label := "Pricey"; color := "text-red-700";
       bg := "bg-red-50 border-red-200" |}.

Definition estimateCommuteMinutes (distKm : num) : num :=
  if nlt distKm (Fin 3) then
    Math_max (Fin 5) (Math_round (nmul distKm (Fin 12)))
  else if nlt distKm (Fin 10) then
    Math_round (nadd (Fin 15) (nmul distKm (Fin 2)))
  else if nlt distKm (Fin 30) then
    Math_round (nadd (Fin 20) (nmul distKm (Fin (18 # 10))))
  else Math_round (nadd (Fin 30) (nmul distKm (Fin (15 # 10)))).

(** [topDwellingType] of the results page: the entries of the record
    other than "Unknown" and "Other", sorted by count, largest first; the
    key of the first. *)
Definition named_type (e : string * Q) : bool :=
  negb (String.eqb (fst e) "Unknown") && negb (String.eqb (fst e) "Other").

Definition byCountDescending (a b : string * Q) : num :=
  nsub (Fin (snd b)) (Fin (snd a)).

Definition topDwellingType (types : list (string * Q)) : option string :=
  let entries := List.filter named_type types in
  match entries with
  | [] => None
  | _ :: _ =>
      option_map fst (List.hd_error (Recommend.Array_sort byCountDescending entries))
  end.



End Pages.

(* ===================================================================== *)
(** * src/components/SydneyMap.tsx                                        *)
(* ===================================================================== *)

Module SydneyMap.

Local Open Scope R_scope.

(** [circleRadius]: the radius of a suburb's circle, from its bond
    count. *)
Definition circleRadius (bonds : R) : R :=
  let minR := 4 in
  let maxR := 22 in
  let clamped := Rmax 1 (Rmin bonds 35000) in
  let t := ln clamped / ln 35000 in
  minR + t * (maxR - minR).

End SydneyMap.

(* ===================================================================== *)
(** * src/lib/overpass.ts                                                 *)
(* ===================================================================== *)

Module Overpass.

Local Open Scope R_scope.

(** The keys of [CategorizedAmenities]. *)
Inductive Category : Type :=
| hospitals
| schools
| universities
| fire_stations
| pharmacies
| medical_clinics
| childcare
| supermarkets
| parks
| gyms
| libraries
| train_stations.

Definition Category_eqb (a b : Category) : bool :=
  match a, b with
  | hospitals, hospitals | schools, schools | universities, universities
  | fire_stations, fire_stations | pharmacies, pharmacies
  | medical_clinics, medical_clinics | childcare, childcare
  | supermarkets, supermarkets | parks, parks | gyms, gyms
  | libraries, libraries | train_stations, train_stations => true
  | _, _ => false
  end.

(** The key as a string, for the fallback of an item's name. *)
Definition category_key (c : Category) : string :=
  match c with
  | hospitals => "hospitals"
  | schools => "schools"
  | universities => "universities"
  | fire_stations => "fire_stations"
  | pharmacies => "pharmacies"
  | medical_clinics => "medical_clinics"
  | childcare => "childcare"
  | supermarkets => "supermarkets"
  | parks => "parks"
  | gyms => "gyms"
  | libraries => "libraries"
  | train_stations => "train_stations"
  end.

Record AmenityItem : Type := {
  item_name : string;
  distance_km : R;
  item_lat : Q;
  item_lng : Q
}.

Record Center : Type := { center_lat : Q; center_lon : Q }.

Record OverpassElement : Type := {
  el_id : Z;
  el_lat : option Q;
  el_lon : option Q;
  center : option Center;
  tags : option (list (string * string))
}.

(** [tags.key] *)
Definition tag (tags : list (string * string)) (key : string) : option string :=
  option_map snd (List.find (fun e => String.eqb (fst e) key) tags).

Definition tag_is (v : option string) (s : string) : bool :=
  match v with
  | Some x => String.eqb x s
  | None => false
  end.

Definition getCoords (el : OverpassElement) : option (Q * Q) :=
  match el_lat el, el_lon el with
  | Some la, Some lo => Some (la, lo)
  | _, _ =>
      match center el with
      | Some c => Some (center_lat c, center_lon c)
      | None => None
      end
  end.

Definition categorize (tags : list (string * string)) : option Category :=
  let amenity := tag tags "amenity" in
  let shop := tag tags "shop" in
  let leisure := tag tags "leisure" in
  let railway := tag tags "railway" in
  if tag_is amenity "hospital" then Some hospitals
  else if tag_is amenity "school" then Some schools
  else if tag_is amenity "university" then Some universities
  else if tag_is amenity "fire_station" then Some fire_stations
  else if tag_is amenity "pharmacy" then Some pharmacies
  else if tag_is amenity "doctors" || tag_is amenity "clinic" then Some medical_clinics
  else if tag_is amenity "childcare" || tag_is amenity "kindergarten" then Some childcare
  else if tag_is amenity "library" then Some libraries
  else if tag_is shop "supermarket" then Some supermarkets
  else if tag_is leisure "park" then Some parks
  else if tag_is leisure "fitness_centre" then Some gyms
  else if tag_is railway "station" || tag_is railway "halt" then Some train_stations
  else None.

(** [CategorizedAmenities]: the twelve arrays, read by their key. *)
Definition Categorized : Type := Category -> list AmenityItem.

Definition emptyCategorized : Categorized := fun _ => [].

(** [result[category].push (item)] *)
Definition push (result : Categorized) (category : Category) (item : AmenityItem)
  : Categorized :=
  fun c => if Category_eqb c category then result c ++ [item] else result c.

(** What an element contributes: its category and its item, unless it has
    no tags, no category or no coordinates. *)
Definition itemOf (lat lng : R) (el : OverpassElement)
  : option (Category * AmenityItem) :=
  match tags el with
  | None => None
  | Some t =>
      match categorize t with
      | None => None
      | Some category =>
          match getCoords el with
          | None => None
          | Some (la, lo) =>
              let distance := Commute.haversineKm lat lng (Q2R la) (Q2R lo) in
              Some (category,
                    {| item_name :=
                         match tag t "name" with
                         | Some n => n
                         | None =>
                             match tag t "operator" with
                             | Some o => o
                             | None => category_key category
                             end
                         end;
                       distance_km := IZR (Commute.Rround (distance * 100)) / 100;
                       item_lat := la;
                       item_lng := lo |})
          end
      end
  end.

(** The loop of [fetchOverpassAmenities] over the elements of the answer. *)
Definition collect (lat lng : R) (elements : list OverpassElement) : Categorized :=
  fold_left
    (fun result el =>
       match itemOf lat lng el with
       | Some (category, item) => push result category item
       | None => result
       end)
    elements emptyCategorized.

(** The categorized amenities [fetchOverpassAmenities] returns for the
    elements of a successful answer: every array sorted by distance. *)
Definition categorizeElements (lat lng : R) (elements : list OverpassElement)
  : Categorized :=
  fun c =>
    Stations.Array_sort_real (fun a b => distance_km a - distance_km b)
      (collect lat lng elements c).

End Overpass.

(* ===================================================================== *)
(** * More vocabulary                                                     *)
(* ===================================================================== *)

(** The four ratings in order, best first. *)
Definition severity (r : Suburbs.RentStressRating) : nat :=
  match r with
  | Suburbs.comfortable => 0
  | Suburbs.manageable => 1
  | Suburbs.stressed => 2
  | Suburbs.severe => 3
  end.

(** The rating as the suburb page spells it. *)
Definition rating_label (r : Suburbs.RentStressRating) : string :=
  match r with
  | Suburbs.comfortable => "Comfortable"
  | Suburbs.manageable => "Manageable"
  | Suburbs.stressed => "Stressed"
  | Suburbs.severe => "Severe"
  end.

(** What [searchSuburbs] tests of a suburb, all in all: the name contains
    the query or the postcode starts with it. *)
Definition matches (q : string) (s : Suburbs.Suburb) : bool :=
  Str.includes (Suburbs.lowerName s) q || Str.startsWith (Suburbs.postcode s) q.

(** The distance both station scans compute for a station. *)
Definition distance_to (la lo : R) (s : Commute.TrainStation) : R :=
  Commute.haversineKm la lo (Q2R (Commute.station_lat s)) (Q2R (Commute.station_lng s)).

(** The order [getNearbyStations] sorts by. *)
Definition closer_or_equal (a b : Commute.NearestStationResult) : Prop :=
  (Commute.station_distanceKm a <= Commute.station_distanceKm b)%R.

(** The test of [getNearbyStations] on a station. *)
Definition within (la lo radiusKm : R) (s : Commute.TrainStation) : bool :=
  if Rle_dec (distance_to la lo s) radiusKm then true else false.

(** The six criteria of the amenity score, as [getAmenityScore] tests
    them. *)
Definition amenity_criteria (a : Amenities.SuburbAmenities) : list bool :=
  [ Amenities.some_within 2 (Amenities.hospitals a);
    (3 <=? length (List.filter (fun s => Qle_bool (Amenities.distance_km s) 5)
                               (Amenities.schools a)))%nat;
    Amenities.some_within 5 (Amenities.universities a);
    Amenities.some_within 5 (Amenities.fire_stations a);
    Amenities.some_within 5 (Amenities.police a);
    Amenities.some_within 3 (Amenities.childcare a) ].

(** ** Requests of [GET /api/affordability] *)

Section AffordabilityVocabulary.

Variable Number : string -> num.



End AffordabilityVocabulary.


(** The twelve categories. *)
Definition all_categories : list Overpass.Category :=
  [ Overpass.hospitals; Overpass.schools; Overpass.universities;
    Overpass.fire_stations; Overpass.pharmacies; Overpass.medical_clinics;
    Overpass.childcare; Overpass.supermarkets; Overpass.parks; Overpass.gyms;
    Overpass.libraries; Overpass.train_stations ].

(** An element that [fetchOverpassAmenities] keeps. *)
Definition kept (lat lng : R) (el : Overpass.OverpassElement) : bool :=
  match Overpass.itemOf lat lng el with
  | Some _ => true
  | None => false
  end.

(* ===================================================================== *)
(** * Properties of the number model                                      *)
(* ===================================================================== *)

Section NumFacts.

Local Open Scope Q_scope.

Lemma nle_Fin (a b : Q) : nle (Fin a) (Fin b) = true <-> a <= b.
Proof. simpl. apply Qle_bool_iff. Qed.

Lemma nle_Fin_false (a b : Q) : nle (Fin a) (Fin b) = false <-> b < a.
Proof.
  simpl. split; intros H.
  - apply Qnot_le_lt. intros Hle. apply Qle_bool_iff in Hle. congruence.
  - destruct (Qle_bool a b) eqn:E; [|reflexivity].
    apply Qle_bool_iff in E. exfalso. apply (Qlt_not_le _ _ H E).
Qed.

Lemma nlt_Fin (a b : Q) : nlt (Fin a) (Fin b) = true <-> a < b.
Proof.
  simpl. rewrite negb_true_iff. apply (nle_Fin_false b a).
Qed.

Lemma nlt_Fin_false (a b : Q) : nlt (Fin a) (Fin b) = false <-> b <= a.
Proof.
  simpl. rewrite negb_false_iff. apply Qle_bool_iff.
Qed.

Lemma Qeq_bool_false_iff (a b : Q) : Qeq_bool a b = false <-> ~ a == b.
Proof.
  split.
  - intros H E. apply Qeq_bool_iff in E. congruence.
  - intros H. destruct (Qeq_bool a b) eqn:E; [|reflexivity].
    apply Qeq_bool_iff in E. contradiction.
Qed.

Lemma ndiv_Fin (a b : Q) : ~ b == 0 -> ndiv (Fin a) (Fin b) = Fin (a / b).
Proof.
  intros H. simpl. apply Qeq_bool_false_iff in H. now rewrite H.
Qed.

(** [Math.round] is within one half of its argument. *)
Lemma round_spec (x : Q) :
  inject_Z (round x) - (1 # 2) <= x /\ x < inject_Z (round x) + (1 # 2).
Proof.
  unfold round.
  pose proof (Qfloor_le (x + (1 # 2))) as Hlo.
  pose proof (Qlt_floor (x + (1 # 2))) as Hhi.
  rewrite inject_Z_plus in Hhi. change (inject_Z 1) with 1 in Hhi.
  split; lraQ.
Qed.

Lemma round_inject_Z (z : Z) : round (inject_Z z) = z.
Proof.
  unfold round.
  pose proof (Qfloor_le (inject_Z z + (1 # 2))) as Hlo.
  pose proof (Qlt_floor (inject_Z z + (1 # 2))) as Hhi.
  set (f := Qfloor (inject_Z z + (1 # 2))) in *.
  assert (H1 : inject_Z f <= inject_Z z + (1 # 2)) by exact Hlo.
  assert (H2 : inject_Z z < inject_Z (f + 1)) by lraQ.
  assert (H3 : inject_Z f < inject_Z (z + 1)).
  { rewrite inject_Z_plus. change (inject_Z 1) with 1. lraQ. }
  rewrite <- Zlt_Qlt in H2, H3. lia.
Qed.

End NumFacts.

(* ===================================================================== *)
(** * Rent stress                                                         *)
(* ===================================================================== *)

Section RentStress.

Import Suburbs.
Local Open Scope Q_scope.

(** Closes the case of one tier: splits the equivalences and leaves
    linear arithmetic. *)
Ltac tiers_cases :=
  repeat match goal with
         | |- _ /\ _ => split
         | |- _ <-> _ => split
         end;
  intros;
  repeat match goal with
         | H : _ /\ _ |- _ => destruct H
         end;
  try discriminate; try reflexivity; try lraQ.

(** The rating as a function of a finite percentage. *)
Lemma getRentStressRating_Fin (p : Q) :
  (getRentStressRating (Fin p) = comfortable <-> p < 25) /\
  (getRentStressRating (Fin p) = manageable <-> 25 <= p <= 30) /\
  (getRentStressRating (Fin p) = stressed <-> 30 < p <= 40) /\
  (getRentStressRating (Fin p) = severe <-> 40 < p).
Proof.
  unfold getRentStressRating.
  destruct (nlt (Fin p) (Fin 25)) eqn:E1;
    [apply nlt_Fin in E1 | apply nlt_Fin_false in E1;
     destruct (nle (Fin p) (Fin 30)) eqn:E2;
       [apply nle_Fin in E2 | apply nle_Fin_false in E2;
        destruct (nle (Fin p) (Fin 40)) eqn:E3;
          [apply nle_Fin in E3 | apply nle_Fin_false in E3]]];
  tiers_cases.
Qed.

(** With a positive income both divisions are performed and the
    percentage is the rounded ratio. *)
Lemma calculateRentStress_positive (income : Q) (rent : num) :
  0 < income ->
  calculateRentStress (Fin income) rent =
  let p := ndiv (Math_round (nmul (ndiv rent (Fin income)) (Fin 1000))) (Fin 10) in
  {| percentage := p; rating := getRentStressRating p |}.
Proof.
  intros Hpos. unfold calculateRentStress, calculateRentStress_traced.
  assert (E : nle (Fin income) (Fin 0) = false) by (apply nle_Fin_false; exact Hpos).
  rewrite E. reflexivity.
Qed.

Lemma calculateRentStress_Fin (income rent : Q) :
  0 < income ->
  calculateRentStress (Fin income) (Fin rent) =
  let p := inject_Z (round (rent / income * 1000)) / 10 in
  {| percentage := Fin p; rating := getRentStressRating (Fin p) |}.
Proof.
  intros Hpos. rewrite calculateRentStress_positive by exact Hpos.
  cbv zeta.
  rewrite (ndiv_Fin rent income) by (intros E; rewrite E in Hpos; discriminate).
  cbn [nmul lift2 Math_round].
  rewrite ndiv_Fin by discriminate. reflexivity.
Qed.

Lemma calculateRentStress_percentage (income rent : Q) :
  0 < income ->
  percentage (calculateRentStress (Fin income) (Fin rent)) =
  Fin (inject_Z (round (rent / income * 1000)) / 10).
Proof.
  intros Hpos. now rewrite calculateRentStress_Fin.
Qed.

(** Every division [calculateRentStress] performs has a divisor other
    than zero, whatever the arguments. *)
Lemma calculateRentStress_divisors (income rent : num) (d : Division) :
  In d (snd (calculateRentStress_traced income rent)) ->
  nseq (divisor d) (Fin 0) = false.
Proof.
  unfold calculateRentStress_traced.
  destruct (nle income (Fin 0)) eqn:E; cbn; [tauto|].
  intros [<- | [<- | []]]; cbn; [|reflexivity].
  destruct income as [|q]; [reflexivity|].
  apply nle_Fin_false in E. apply Qeq_bool_false_iff.
  intros E0. rewrite E0 in E. discriminate.
Qed.

(** C3.  For a weekly income <= 0 (0 included) and a weekly rent > 0,
    [calculateRentStress] returns percentage 100 and rating severe and
    performs no division.  The function is total, and on no input at all
    (negative, zero, [NaN]) does a division it performs have the divisor
    zero. *)
Theorem calculateRentStress_nonpositive_income (income rent : Q) :
  income <= 0 -> 0 < rent ->
  calculateRentStress_traced (Fin income) (Fin rent) =
    ({| percentage := Fin 100; rating := severe |}, []) /\
  calculateRentStress (Fin income) (Fin rent) =
    {| percentage := Fin 100; rating := severe |} /\
  (forall i r : num, exists res, calculateRentStress i r = res) /\
  (forall (i r : num) (d : Division),
      In d (snd (calculateRentStress_traced i r)) ->
      nseq (divisor d) (Fin 0) = false).
Proof.
  intros Hle Hrent.
  assert (E : calculateRentStress_traced (Fin income) (Fin rent) =
              ({| percentage := Fin 100; rating := severe |}, [])).
  { unfold calculateRentStress_traced.
    apply nle_Fin in Hle. rewrite Hle. reflexivity. }
  split; [exact E|].
  split; [unfold calculateRentStress; rewrite E; reflexivity|].
  split; [intros i r; eexists; reflexivity|].
  exact calculateRentStress_divisors.
Qed.

Lemma calculateRentStress_nonpositive_income_witness :
  0 <= 0 /\ 0 < 520 /\
  calculateRentStress_traced (Fin 0) (Fin 520) =
    ({| percentage := Fin 100; rating := severe |}, []).
Proof.
  split; [discriminate|]. split; [reflexivity|].
  apply (calculateRentStress_nonpositive_income 0 520); [discriminate|reflexivity].
Defined.

End RentStress.

(* ===================================================================== *)
(** * Rent stress on doubles                                              *)
(* ===================================================================== *)

Section RentStress64.

Import Suburbs.
Import Double Suburbs64.
Local Open Scope Q_scope.

Lemma pow2_pos (k : Z) : 0 < pow2 k.
Proof. unfold pow2. apply Qpower_0_lt. reflexivity. Qed.

Lemma pow2_plus (a b : Z) : pow2 (a + b) == pow2 a * pow2 b.
Proof. unfold pow2. apply Qpower_plus. discriminate. Qed.

Lemma pow2_inject (k : Z) : (0 <= k)%Z -> pow2 k == inject_Z (2 ^ k).
Proof. intros H. unfold pow2. symmetry. apply (Zpower_Qpower 2 k H). Qed.

(** [ilog2] is not above the logarithm. *)
Lemma ilog2_le (a : Q) : 0 < a -> pow2 (ilog2 a) <= a.
Proof.
  intros Ha. unfold ilog2.
  set (k := (Z.log2 (Qnum a) - Z.log2 (Z.pos (Qden a)))%Z).
  destruct (Qle_bool (pow2 k) a) eqn:E; [apply Qle_bool_iff, E|].
  destruct a as [n d]. cbn [Qnum Qden] in k.
  assert (Hn : (0 < n)%Z) by (unfold Qlt in Ha; cbn in Ha; lia).
  pose proof (Z.log2_spec n Hn) as [Hn1 _].
  pose proof (Z.log2_spec (Z.pos d) (Pos2Z.is_pos d)) as [_ Hd2].
  pose proof (Z.log2_nonneg n) as Hln.
  pose proof (Z.log2_nonneg (Z.pos d)) as Hld.
  assert (Q1 : pow2 (Z.log2 n) <= inject_Z n).
  { rewrite pow2_inject by exact Hln. rewrite <- Zle_Qle. exact Hn1. }
  assert (Q2 : inject_Z (Z.pos d) <= pow2 (Z.log2 (Z.pos d) + 1)).
  { rewrite pow2_inject by lia. rewrite <- Zle_Qle.
    change (Z.succ ?x) with (x + 1)%Z in Hd2. unfold Z.succ in Hd2. lia. }
  assert (E1 : pow2 (k - 1) * pow2 (Z.log2 (Z.pos d) + 1) == pow2 (Z.log2 n)).
  { rewrite <- pow2_plus. unfold k.
    replace (Z.log2 n - Z.log2 (Z.pos d) - 1 + (Z.log2 (Z.pos d) + 1))%Z
      with (Z.log2 n) by lia. reflexivity. }
  assert (Hd : 0 < inject_Z (Z.pos d)) by reflexivity.
  assert (Ea : n # d == inject_Z n / inject_Z (Z.pos d)) by apply Qmake_Qdiv.
  rewrite Ea. apply Qle_shift_div_l; [exact Hd|].
  apply Qle_trans with (pow2 (k - 1) * pow2 (Z.log2 (Z.pos d) + 1)).
  - apply Qmult_le_l; [apply pow2_pos|exact Q2].
  - rewrite E1. exact Q1.
Qed.

Lemma nearest_even_error (x : Q) :
  Qabs (inject_Z (nearest_even x) - x) <= 1 # 2.
Proof.
  unfold nearest_even.
  pose proof (Qfloor_le x) as Hlo. pose proof (Qlt_floor x) as Hhi.
  rewrite inject_Z_plus in Hhi. change (inject_Z 1) with 1 in Hhi.
  set (f := Qfloor x) in *.
  assert (Hup : inject_Z (f + 1) == inject_Z f + 1)
    by (rewrite inject_Z_plus; reflexivity).
  apply Qabs_Qle_condition.
  destruct (Qcompare (x - inject_Z f) (1 # 2)) eqn:E.
  - apply Qeq_alt in E. destruct (Z.even f); rewrite ?Hup; split; lraQ.
  - apply Qlt_alt in E. split; lraQ.
  - apply Qgt_alt in E. rewrite Hup. split; lraQ.
Qed.

Lemma nearest_even_nonneg (x : Q) : 0 <= x -> (0 <= nearest_even x)%Z.
Proof.
  intros Hx. unfold nearest_even.
  assert (Hf : (0 <= Qfloor x)%Z).
  { change 0%Z with (Qfloor 0). apply Qfloor_resp_le. exact Hx. }
  destruct (Qcompare _ _); [destruct (Z.even _)| |]; lia.
Qed.

(** A number that rounds to a finite double is within half a unit in the
    last place of it. *)
Lemma round64_error (q v : Q) :
  round64 q = finite v ->
  Qabs (v - q) <= Qabs q * pow2 (-53) + pow2 (-1075).
Proof.
  unfold round64.
  pose proof (pow2_pos (-53)) as Hu. pose proof (pow2_pos (-1075)) as Heta.
  pose proof (Qabs_nonneg q) as Habs.
  destruct (Qeq_bool q 0) eqn:E0.
  { apply Qeq_bool_iff in E0. intros [= <-].
    assert (Ez : 0 - q == 0) by lraQ. rewrite Ez. change (Qabs 0) with 0.
    assert (0 <= Qabs q * pow2 (-53)) by (apply Qmult_le_0_compat; lraQ).
    lraQ. }
  assert (Hq : ~ q == 0).
  { intros H. apply Qeq_bool_iff in H. congruence. }
  assert (Ha : 0 < Qabs q).
  { destruct (Qlt_le_dec 0 (Qabs q)) as [H|H]; [exact H|].
    exfalso. apply Hq. apply Qabs_Qle_condition in H. lraQ. }
  set (a := Qabs q) in *.
  set (e := Z.max (ilog2 a - 52) (-1074)).
  set (m := nearest_even (a / pow2 e)).
  destruct (Qle_bool (pow2 1024) (inject_Z m * pow2 e)); [discriminate|].
  intros H. injection H as <-.
  pose proof (pow2_pos e) as He.
  pose proof (nearest_even_error (a / pow2 e)) as Hm. fold m in Hm.
  apply Qabs_Qle_condition in Hm. destruct Hm as [Hm1 Hm2].
  assert (Eae : a / pow2 e * pow2 e == a) by (field; lraQ).
  assert (Hval : Qabs (inject_Z m * pow2 e - a) <= pow2 e * (1 # 2)).
  { apply Qabs_Qle_condition.
    assert (L1 : (inject_Z m - a / pow2 e) * pow2 e <= (1 # 2) * pow2 e)
      by (apply Qmult_le_compat_r; lraQ).
    assert (L2 : - (1 # 2) * pow2 e <= (inject_Z m - a / pow2 e) * pow2 e)
      by (apply Qmult_le_compat_r; lraQ).
    assert (E3 : (inject_Z m - a / pow2 e) * pow2 e ==
                 inject_Z m * pow2 e - a / pow2 e * pow2 e) by ring.
    rewrite E3, Eae in L1, L2. split; lraQ. }
  assert (Hulp : pow2 e * (1 # 2) <= a * pow2 (-53) + pow2 (-1075)).
  { assert (Hpa : 0 <= a * pow2 (-53)) by (apply Qmult_le_0_compat; lraQ).
    unfold e. destruct (Z.max_spec (ilog2 a - 52) (-1074)) as [[_ ->]|[_ ->]].
    - assert (Ec : pow2 (-1074) * (1 # 2) == pow2 (-1075)).
      { change (1 # 2) with (pow2 (-1)). rewrite <- pow2_plus. reflexivity. }
      rewrite Ec. lraQ.
    - assert (Ec : pow2 (ilog2 a - 52) * (1 # 2) == pow2 (ilog2 a) * pow2 (-53)).
      { change (1 # 2) with (pow2 (-1)). rewrite <- !pow2_plus.
        replace (ilog2 a - 52 + -1)%Z with (ilog2 a + -53)%Z by lia. reflexivity. }
      rewrite Ec.
      assert (L : pow2 (ilog2 a) * pow2 (-53) <= a * pow2 (-53)).
      { apply Qmult_le_compat_r; [apply ilog2_le; exact Ha|lraQ]. }
      lraQ. }
  set (val := inject_Z m * pow2 e) in *.
  apply Qabs_Qle_condition in Hval. destruct Hval as [Hv1 Hv2].
  apply Qabs_Qle_condition.
  unfold negative. unfold a in *.
  destruct (Qle_bool 0 q) eqn:Es; cbn [negb].
  - apply Qle_bool_iff in Es. rewrite (Qabs_pos q Es) in *. split; lraQ.
  - assert (Hneg : q < 0).
    { apply Qnot_le_lt. intros H. apply Qle_bool_iff in H. congruence. }
    rewrite (Qabs_neg q) in * by lraQ. split; lraQ.
Qed.

(** A number that is not negative does not round to a negative one. *)
Lemma round64_nonneg (q : Q) :
  0 <= q ->
  (exists v, round64 q = finite v /\ 0 <= v) \/ round64 q = infinity false.
Proof.
  intros Hq. unfold round64.
  destruct (Qeq_bool q 0); [left; exists 0; split; [reflexivity|lraQ]|].
  assert (Hs : negative q = false).
  { unfold negative. apply Qle_bool_iff in Hq. now rewrite Hq. }
  rewrite Hs.
  set (e := Z.max _ _). set (m := nearest_even _).
  destruct (Qle_bool _ _); [right; reflexivity|].
  left. eexists. split; [reflexivity|].
  apply Qmult_le_0_compat; [|apply Qlt_le_weak, pow2_pos].
  change 0 with (inject_Z 0). rewrite <- Zle_Qle.
  apply nearest_even_nonneg.
  apply Qle_shift_div_l; [apply pow2_pos|].
  rewrite (Qabs_pos q Hq). lraQ.
Qed.

Lemma pow2_m53 : pow2 (-53) == 1 # 9007199254740992.
Proof. reflexivity. Qed.

Lemma pow2_m51 : pow2 (-51) == 1 # 2251799813685248.
Proof. reflexivity. Qed.

Lemma pow2_m1064 : 1002 * pow2 (-1075) <= pow2 (-1064).
Proof.
  assert (E : pow2 (-1064) == 2048 * pow2 (-1075)).
  { change 2048 with (pow2 11). rewrite <- pow2_plus. reflexivity. }
  rewrite E. pose proof (pow2_pos (-1075)). lraQ.
Qed.

Lemma pow2_m1075_small : pow2 (-1075) <= 1 # 1000.
Proof.
  apply Qle_trans with (pow2 (-10)); [|discriminate].
  unfold pow2. apply Qpower_le_compat_l; [lia|discriminate].
Qed.

Ltac tier_cases :=
  repeat match goal with
         | |- _ /\ _ => split
         | |- _ <-> _ => split
         end;
  let H := fresh "Hcase" in
  intros H; try discriminate H; try reflexivity; try lraQ.

Lemma getRentStressRating_finite (p : Q) :
  (getRentStressRating (finite p) = comfortable <-> p < 25) /\
  (getRentStressRating (finite p) = manageable <-> 25 <= p <= 30) /\
  (getRentStressRating (finite p) = stressed <-> 30 < p <= 40) /\
  (getRentStressRating (finite p) = severe <-> 40 < p).
Proof.
  unfold getRentStressRating, lt, le.
  destruct (Qle_bool 25 p) eqn:E1; cbn [negb].
  - apply Qle_bool_iff in E1.
    destruct (Qle_bool p 30) eqn:E2.
    + apply Qle_bool_iff in E2.
      tier_cases.
    + assert (H2 : 30 < p).
      { apply Qnot_le_lt. intros H. apply Qle_bool_iff in H. congruence. }
      destruct (Qle_bool p 40) eqn:E3.
      * apply Qle_bool_iff in E3.
        tier_cases.
      * assert (H3 : 40 < p).
        { apply Qnot_le_lt. intros H. apply Qle_bool_iff in H. congruence. }
        tier_cases.
  - assert (H1 : p < 25).
    { apply Qnot_le_lt. intros H. apply Qle_bool_iff in H. congruence. }
    tier_cases.
Qed.

(** The double nearest to a whole number of tenths is on the same side of
    25, 30 and 40 as the tenths themselves. *)
Lemma tenths_thresholds (K : Z) (p : Q) :
  (0 <= K)%Z -> round64 (inject_Z K / 10) = finite p ->
  (p < 25 <-> (K < 250)%Z) /\ (p <= 30 <-> (K <= 300)%Z) /\
  (p <= 40 <-> (K <= 400)%Z).
Proof.
  intros HK Hp.
  pose proof (round64_error _ _ Hp) as He.
  pose proof (pow2_pos (-1075)) as Heta. pose proof pow2_m1075_small as Hsmall.
  rewrite pow2_m53 in He.
  assert (Hk : 0 <= inject_Z K).
  { change 0 with (inject_Z 0). rewrite <- Zle_Qle. exact HK. }
  assert (Hk10 : 0 <= inject_Z K / 10).
  { unfold Qdiv. change (/ 10) with (1 # 10). lraQ. }
  rewrite (Qabs_pos _ Hk10) in He. apply Qabs_Qle_condition in He.
  destruct He as [He1 He2].
  set (eta := pow2 (-1075)) in *.
  assert (E10 : inject_Z K / 10 == inject_Z K * (1 # 10))
    by (unfold Qdiv; reflexivity).
  rewrite E10 in He1, He2.
  assert (T : forall T : Z,
             (T = 25 \/ T = 30 \/ T = 40)%Z ->
             ((K <= 10 * T - 1)%Z -> p < inject_Z T) /\
             (K = (10 * T)%Z -> p == inject_Z T) /\
             ((10 * T + 1 <= K)%Z -> inject_Z T < p)).
  { intros T HT. split; [|split].
    - intros H. rewrite Zle_Qle in H. unfold Z.sub in H.
      rewrite inject_Z_plus, inject_Z_mult, inject_Z_opp in H.
      change (inject_Z 10) with 10 in H. change (inject_Z 1) with 1 in H.
      assert (Ht : inject_Z T <= 40).
      { change 40 with (inject_Z 40). rewrite <- Zle_Qle. lia. }
      lraQ.
    - intros ->. destruct HT as [-> | [-> | ->]]; vm_compute in Hp;
        injection Hp as <-; reflexivity.
    - intros H. rewrite Zle_Qle in H.
      rewrite inject_Z_plus, inject_Z_mult in H.
      change (inject_Z 10) with 10 in H. change (inject_Z 1) with 1 in H.
      assert (Ht : inject_Z T <= 40).
      { change 40 with (inject_Z 40). rewrite <- Zle_Qle. lia. }
      lraQ. }
  destruct (T 25%Z) as (A1 & A2 & A3); [auto|].
  destruct (T 30%Z) as (B1 & B2 & B3); [auto|].
  destruct (T 40%Z) as (C1 & C2 & C3); [auto|].
  change (inject_Z 25) with 25 in *. change (inject_Z 30) with 30 in *.
  change (inject_Z 40) with 40 in *.
  repeat split; intros H.
  - destruct (Z_lt_le_dec K 250%Z) as [L|L]; [exact L|].
    exfalso. destruct (Z.eq_dec K 250%Z) as [E|E].
    + specialize (A2 E). lraQ.
    + assert (L' : (10 * 25 + 1 <= K)%Z) by lia. specialize (A3 L'). lraQ.
  - apply A1. lia.
  - destruct (Z_le_gt_dec K 300%Z) as [L|L]; [exact L|].
    exfalso. assert (L' : (10 * 30 + 1 <= K)%Z) by lia. specialize (B3 L'). lraQ.
  - destruct (Z.eq_dec K 300%Z) as [E|E].
    + specialize (B2 E). lraQ.
    + assert (L' : (K <= 10 * 30 - 1)%Z) by lia. specialize (B1 L'). lraQ.
  - destruct (Z_le_gt_dec K 400%Z) as [L|L]; [exact L|].
    exfalso. assert (L' : (10 * 40 + 1 <= K)%Z) by lia. specialize (C3 L'). lraQ.
  - destruct (Z.eq_dec K 400%Z) as [E|E].
    + specialize (C2 E). lraQ.
    + assert (L' : (K <= 10 * 40 - 1)%Z) by lia. specialize (C1 L'). lraQ.
Qed.

Lemma Qabs_lt_cases (d z : Q) : d < Qabs z -> z < - d \/ d < z.
Proof.
  intros H. destruct (Qlt_le_dec z 0) as [Hz|Hz].
  - rewrite (Qabs_neg z) in H by lraQ. left. lraQ.
  - rewrite (Qabs_pos z Hz) in H. right. exact H.
Qed.

(** C2.  For a weekly income > 0 and a weekly rent > 0, both doubles,
    [calculateRentStress] returns the percentage
    [Math.round ((rent / income) * 1000) / 10] as the arithmetic of doubles
    computes it, and the rating is the tier of that percentage: below 25
    comfortable, from 25 to 30 manageable, above 30 up to 40 stressed,
    above 40 severe.  Unless a product or quotient overflows (then the
    percentage is [Infinity] and the rating severe), the percentage [p] is
    the double nearest to [K / 10] for a whole number [K >= 0] of tenths;
    [K] is within [1/2 + delta] of the exact [1000 * rent / income] and is
    its exact rounding when that value is farther than [delta], the error
    of the two rounded operations, from every half-integer; and the tiers
    of [p] are those of [K]: below 250 tenths, 250 to 300, 301 to 400,
    above 400.  So 25.0 and 30.0 are manageable, 30.1 and 40.0 stressed,
    40.1 severe. *)
Theorem calculateRentStress_tiers (income rent : Q) :
  is_double income -> is_double rent -> 0 < income -> 0 < rent ->
  let r := calculateRentStress (finite income) (finite rent) in
  let rho := 1000 * rent / income in
  let delta := rho * pow2 (-51) + pow2 (-1064) in
  percentage r =
    div (Math_round (mul (div (finite rent) (finite income)) (finite 1000)))
        (finite 10) /\
  rating r = getRentStressRating (percentage r) /\
  ((percentage r = infinity false /\ rating r = severe) \/
   exists (p : Q) (K : Z),
     percentage r = finite p /\ (0 <= K)%Z /\
     round64 (inject_Z K / 10) = finite p /\
     Qabs (p - inject_Z K / 10) <=
       inject_Z K / 10 * pow2 (-53) + pow2 (-1075) /\
     Qabs (inject_Z K - rho) <= (1 # 2) + delta /\
     ((forall n : Z, delta < Qabs (rho - (inject_Z n + (1 # 2)))) ->
      K = round rho) /\
     (rating r = comfortable <-> p < 25) /\
     (rating r = manageable <-> 25 <= p <= 30) /\
     (rating r = stressed <-> 30 < p <= 40) /\
     (rating r = severe <-> 40 < p) /\
     (rating r = comfortable <-> (K < 250)%Z) /\
     (rating r = manageable <-> (250 <= K <= 300)%Z) /\
     (rating r = stressed <-> (300 < K <= 400)%Z) /\
     (rating r = severe <-> (400 < K)%Z)) /\
  (denotes (percentage (calculateRentStress (finite 1000) (finite 250))) 25 /\
   rating (calculateRentStress (finite 1000) (finite 250)) = manageable) /\
  (denotes (percentage (calculateRentStress (finite 1000) (finite 300))) 30 /\
   rating (calculateRentStress (finite 1000) (finite 300)) = manageable) /\
  (percentage (calculateRentStress (finite 1000) (finite 301)) =
     round64 (301 / 10) /\
   rating (calculateRentStress (finite 1000) (finite 301)) = stressed) /\
  (denotes (percentage (calculateRentStress (finite 1000) (finite 400))) 40 /\
   rating (calculateRentStress (finite 1000) (finite 400)) = stressed) /\
  (percentage (calculateRentStress (finite 1000) (finite 401)) =
     round64 (401 / 10) /\
   rating (calculateRentStress (finite 1000) (finite 401)) = severe).
Proof.
  intros _ _ Hi Hr r rho delta.
  assert (Eguard : le (finite income) (finite 0) = false).
  { cbn [le]. destruct (Qle_bool income 0) eqn:E; [|reflexivity].
    apply Qle_bool_iff in E. lraQ. }
  assert (Er : r = {| percentage :=
                        div (Math_round (mul (div (finite rent) (finite income))
                                             (finite 1000))) (finite 10);
                      rating :=
                        getRentStressRating
                          (div (Math_round (mul (div (finite rent) (finite income))
                                                (finite 1000))) (finite 10)) |}).
  { unfold r, calculateRentStress. rewrite Eguard. reflexivity. }
  split; [rewrite Er; reflexivity|]. split; [rewrite Er; reflexivity|].
  split; [|repeat match goal with |- _ /\ _ => split end;
            vm_compute; reflexivity].
  rewrite Er. cbn [percentage rating]. clear Er r.
  assert (Hi0 : Qeq_bool income 0 = false).
  { destruct (Qeq_bool income 0) eqn:E; [|reflexivity].
    apply Qeq_bool_iff in E. lraQ. }
  assert (EX : div (finite rent) (finite income) = round64 (rent / income)).
  { cbn [div]. now rewrite Hi0. }
  rewrite EX.
  assert (Ht0 : 0 < rent / income).
  { apply Qlt_shift_div_l; [exact Hi|]. lraQ. }
  set (t := rent / income) in *.
  assert (Erho : rho == 1000 * t).
  { unfold rho, t. field. lraQ. }
  pose proof (pow2_pos (-1075)) as Heta. pose proof pow2_m1064 as Htheta.
  destruct (round64_nonneg t) as [(x & Ex & Hx0)|Ex]; [lraQ| |];
    rewrite Ex; [|left; split; reflexivity].
  cbn [mul].
  destruct (round64_nonneg (x * 1000)) as [(y & Ey & Hy0)|Ey]; [lraQ| |];
    rewrite Ey; [|left; split; reflexivity].
  cbn [Math_round].
  set (K := Qfloor (y + (1 # 2))).
  assert (HK0 : (0 <= K)%Z).
  { change 0%Z with (Qfloor 0). apply Qfloor_resp_le. lraQ. }
  assert (Hk : 0 <= inject_Z K).
  { change 0 with (inject_Z 0). rewrite <- Zle_Qle. exact HK0. }
  assert (ED : div (finite (inject_Z K)) (finite 10) = round64 (inject_Z K / 10))
    by reflexivity.
  rewrite ED.
  assert (Hk10 : 0 <= inject_Z K / 10).
  { unfold Qdiv. change (/ 10) with (1 # 10). lraQ. }
  destruct (round64_nonneg (inject_Z K / 10)) as [(p & Ep & Hp0)|Ep];
    [exact Hk10| |]; rewrite Ep; [|left; split; reflexivity].
  right. exists p, K.
  split; [reflexivity|]. split; [exact HK0|]. split; [exact Ep|].
  (* the three roundings *)
  pose proof (round64_error _ _ Ex) as Hex.
  pose proof (round64_error _ _ Ey) as Hey.
  pose proof (round64_error _ _ Ep) as Hep.
  rewrite (Qabs_pos t) in Hex by lraQ.
  assert (Hx1000 : 0 <= x * 1000) by lraQ.
  rewrite (Qabs_pos _ Hx1000) in Hey.
  rewrite (Qabs_pos _ Hk10) in Hep.
  split; [exact Hep|].
  rewrite pow2_m53 in Hex, Hey.
  apply Qabs_Qle_condition in Hex. destruct Hex as [Hx1 Hx2].
  apply Qabs_Qle_condition in Hey. destruct Hey as [Hy1 Hy2].
  pose proof (Qfloor_le (y + (1 # 2))) as HKlo.
  pose proof (Qlt_floor (y + (1 # 2))) as HKhi.
  fold K in HKlo, HKhi.
  rewrite inject_Z_plus in HKhi. change (inject_Z 1) with 1 in HKhi.
  assert (Hyrho : - delta <= y - rho /\ y - rho <= delta).
  { unfold delta. rewrite pow2_m51, Erho.
    set (eta := pow2 (-1075)) in *. set (theta := pow2 (-1064)) in *.
    split; lraQ. }
  destruct Hyrho as [Hd1 Hd2].
  split.
  { apply Qabs_Qle_condition. split; lraQ. }
  split.
  { intros Hfree. unfold round.
    pose proof (Qfloor_le (rho + (1 # 2))) as Hn1.
    pose proof (Qlt_floor (rho + (1 # 2))) as Hn2.
    set (n0 := Qfloor (rho + (1 # 2))) in *.
    rewrite inject_Z_plus in Hn2. change (inject_Z 1) with 1 in Hn2.
    pose proof (Qabs_lt_cases _ _ (Hfree n0)) as [Ha|Ha]; [|lraQ].
    pose proof (Qabs_lt_cases _ _ (Hfree (n0 - 1)%Z)) as [Hb|Hb].
    { unfold Z.sub in Hb. rewrite inject_Z_plus, inject_Z_opp in Hb.
      change (inject_Z 1) with 1 in Hb. lraQ. }
    unfold Z.sub in Hb. rewrite inject_Z_plus, inject_Z_opp in Hb.
    change (inject_Z 1) with 1 in Hb.
    assert (L1 : inject_Z K < inject_Z (n0 + 1)).
    { rewrite inject_Z_plus. change (inject_Z 1) with 1. lraQ. }
    assert (L2 : inject_Z n0 < inject_Z (K + 1)).
    { rewrite inject_Z_plus. change (inject_Z 1) with 1. lraQ. }
    rewrite <- Zlt_Qlt in L1, L2. lia. }
  pose proof (getRentStressRating_finite p) as (R1 & R2 & R3 & R4).
  pose proof (tenths_thresholds K p HK0 Ep) as (T1 & T2 & T3).
  split; [exact R1|]. split; [exact R2|]. split; [exact R3|].
  split; [exact R4|].
  rewrite R1, R2, R3, R4.
  assert (N1 : 25 <= p <-> (250 <= K)%Z).
  { split; intros H.
    - destruct (Z_lt_le_dec K 250%Z) as [L|L]; [|exact L].
      apply T1 in L. lraQ.
    - destruct (Qlt_le_dec p 25) as [L|L]; [|exact L]. apply T1 in L. lia. }
  assert (N2 : 30 < p <-> (300 < K)%Z).
  { split; intros H.
    - destruct (Z_le_gt_dec K 300%Z) as [L|L]; [|lia].
      apply T2 in L. lraQ.
    - destruct (Qlt_le_dec 30 p) as [L|L]; [exact L|]. apply T2 in L. lia. }
  assert (N3 : 40 < p <-> (400 < K)%Z).
  { split; intros H.
    - destruct (Z_le_gt_dec K 400%Z) as [L|L]; [|lia].
      apply T3 in L. lraQ.
    - destruct (Qlt_le_dec 40 p) as [L|L]; [exact L|]. apply T3 in L. lia. }
  split; [exact T1|]. split; [rewrite N1, T2; reflexivity|].
  split; [rewrite N2, T3; reflexivity|exact N3].
Qed.

Lemma calculateRentStress_tiers_witness :
  is_double 1200 /\ is_double 450 /\ 0 < 1200 /\ 0 < 450 /\
  denotes (percentage (calculateRentStress (finite 1200) (finite 450)))
          (375 # 10) /\
  rating (calculateRentStress (finite 1200) (finite 450)) =
    getRentStressRating
      (percentage (calculateRentStress (finite 1200) (finite 450))).
Proof.
  assert (H1 : is_double 1200) by (vm_compute; reflexivity).
  assert (H2 : is_double 450) by (vm_compute; reflexivity).
  split; [exact H1|]. split; [exact H2|].
  split; [reflexivity|]. split; [reflexivity|].
  split; [vm_compute; reflexivity|].
  exact (proj1 (proj2 (calculateRentStress_tiers 1200 450 H1 H2 eq_refl eq_refl))).
Defined.

(** The quotient is rounded before it is multiplied.  At income 1200 and
    rent 603 the exact [1000 * rent / income] is 502.5, which rounds to
    503, but the double of 603 / 1200 times 1000 is
    [502.5 - 2^-44], which [Math.round] takes to 502: the percentage is
    the double of 50.2.  The exact rational arithmetic of
    [Suburbs.calculateRentStress] gives 50.3 here. *)
Example calculateRentStress_rounded_quotient :
  1000 * 603 / 1200 == 1005 # 2 /\
  round (1000 * 603 / 1200) = 503%Z /\
  denotes (mul (div (finite 603) (finite 1200)) (finite 1000))
          ((1005 # 2) - pow2 (-44)) /\
  percentage (calculateRentStress (finite 1200) (finite 603)) =
    round64 (502 / 10) /\
  percentage (calculateRentStress (finite 1200) (finite 603)) <>
    round64 (503 / 10) /\
  rating (calculateRentStress (finite 1200) (finite 603)) = severe /\
  Suburbs.percentage (Suburbs.calculateRentStress (Fin 1200) (Fin 603)) =
    Fin (inject_Z 503 / 10).
Proof.
  split; [reflexivity|]. split; [reflexivity|].
  split; [vm_compute; reflexivity|]. split; [vm_compute; reflexivity|].
  split; [vm_compute; discriminate|]. split; vm_compute; reflexivity.
Qed.

(** [Double] computes what the doubles of the machine compute, here on
    the operations of the example above and of the tier boundaries. *)
Example doubles_of_the_machine :
  let f := Hardware.ofZ in
  Hardware.same (div (finite 603) (finite 1200))
                (PrimFloat.div (f 603%Z) (f 1200%Z)) = true /\
  Hardware.same (mul (div (finite 603) (finite 1200)) (finite 1000))
                (PrimFloat.mul (PrimFloat.div (f 603%Z) (f 1200%Z)) (f 1000%Z))
    = true /\
  Hardware.same (div (finite 502) (finite 10))
                (PrimFloat.div (f 502%Z) (f 10%Z)) = true /\
  Hardware.same (div (finite 503) (finite 10))
                (PrimFloat.div (f 503%Z) (f 10%Z)) = true /\
  Hardware.same (div (finite 301) (finite 10))
                (PrimFloat.div (f 301%Z) (f 10%Z)) = true /\
  Hardware.same (div (finite 401) (finite 10))
                (PrimFloat.div (f 401%Z) (f 10%Z)) = true /\
  Hardware.same (div (finite 1) (finite 0))
                (PrimFloat.div (f 1%Z) (f 0%Z)) = true /\
  Hardware.same (div (finite 0) (finite 0))
                (PrimFloat.div (f 0%Z) (f 0%Z)) = true.
Proof.
  cbv zeta. repeat match goal with |- _ /\ _ => split end;
    vm_compute; reflexivity.
Qed.

End RentStress64.

(* ===================================================================== *)
(** * Shared-rent resolution                                              *)
(* ===================================================================== *)

Section SharedRent.

Import Suburbs Recommend.
Local Open Scope Q_scope.

(** ** The loop needs no more than four iterations *)

Lemma fallback_NaN (fuel : nat) (s : Suburb) (t m : num) :
  fallback fuel s t m NaN = None.
Proof. destruct fuel; [reflexivity|]. destruct m; reflexivity. Qed.

Lemma fallback_fuel (k : nat) :
  forall (fuel : nat) (s : Suburb) (t : num) (m b : Q),
    b - m < inject_Z (Z.of_nat k) -> (k <= fuel)%nat ->
    fallback fuel s t (Fin m) (Fin b) = fallback k s t (Fin m) (Fin b).
Proof.
  induction k as [|k IH]; intros fuel s t m b Hlt Hfuel.
  - change (inject_Z (Z.of_nat 0)) with 0 in Hlt.
    destruct fuel as [|fuel]; [reflexivity|].
    cbn [fallback]. unfold nge.
    assert (E : nle (Fin m) (Fin b) = false) by (apply nle_Fin_false; lraQ).
    rewrite E. reflexivity.
  - destruct fuel as [|fuel]; [lia|].
    cbn [fallback].
    destruct (nge (Fin b) (Fin m)); [|reflexivity].
    destruct (get s (medianRentKey (Fin b))); try reflexivity.
    cbn [nsub lift2]. apply IH; [|lia].
    rewrite Nat2Z.inj_succ, <- Z.add_1_r, inject_Z_plus in Hlt.
    change (inject_Z 1) with 1 in Hlt. lraQ.
Qed.

Lemma minBedsOf_cases (sharingCount : num) (shareBedroom : bool) :
  minBedsOf sharingCount shareBedroom = Fin 1 \/
  minBedsOf sharingCount shareBedroom = Fin 2 \/
  minBedsOf sharingCount shareBedroom = Fin 3.
Proof.
  unfold minBedsOf.
  destruct (nseq sharingCount (Fin 2) && shareBedroom); [auto|].
  destruct (nge sharingCount (Fin 4)); [auto|].
  destruct (nge sharingCount (Fin 3)); auto.
Qed.

Lemma targetBedsOf_le_4 (sharingCount : num) (shareBedroom : bool) :
  targetBedsOf sharingCount shareBedroom = NaN \/
  exists t, targetBedsOf sharingCount shareBedroom = Fin t /\ t <= 4.
Proof.
  unfold targetBedsOf.
  destruct (nseq sharingCount (Fin 2) && shareBedroom).
  - right. exists 1. split; [reflexivity|discriminate].
  - destruct sharingCount as [|q]; [left; reflexivity|].
    right. exists (Qmin q 4). split; [reflexivity|]. apply Q.le_min_r.
Qed.

(** Enough fuel gives the result: with four or more iterations allowed
    the loop of [resolveSharedRent] ends by itself. *)
Lemma resolveSharedRent_fuel_enough (fuel : nat) (s : Suburb)
  (userBedrooms : option num) (sharingCount : num) (shareBedroom : bool) :
  (4 <= fuel)%nat ->
  resolveSharedRent_fuel fuel s userBedrooms sharingCount shareBedroom =
  resolveSharedRent s userBedrooms sharingCount shareBedroom.
Proof.
  intros Hfuel. unfold resolveSharedRent, resolveSharedRent_fuel.
  destruct (nle sharingCount (Fin 1)); [reflexivity|].
  destruct (targetBedsOf_le_4 sharingCount shareBedroom) as [-> | (t & -> & Ht)].
  { now rewrite !fallback_NaN. }
  assert (E : forall m, m = Fin 1 \/ m = Fin 2 \/ m = Fin 3 ->
              fallback fuel s (Fin t) m (Fin t) = fallback 4 s (Fin t) m (Fin t)).
  { intros m [-> | [-> | ->]]; apply fallback_fuel; try exact Hfuel;
      change (inject_Z (Z.of_nat 4)) with 4; lraQ. }
  rewrite (E _ (minBedsOf_cases sharingCount shareBedroom)). reflexivity.
Qed.

(** ** The code against the policy *)

Lemma nle_inject_Z (a b : Z) :
  nle (Fin (inject_Z a)) (Fin (inject_Z b)) = (a <=? b)%Z.
Proof.
  destruct (Z.leb_spec a b) as [H | H].
  - apply nle_Fin. now rewrite <- Zle_Qle.
  - apply nle_Fin_false. now rewrite <- Zlt_Qlt.
Qed.

Lemma nseq_inject_Z (a b : Z) :
  nseq (Fin (inject_Z a)) (Fin (inject_Z b)) = (a =? b)%Z.
Proof.
  cbn [nseq]. unfold Qeq_bool, inject_Z. cbn [Qnum Qden].
  now rewrite !Z.mul_1_r.
Qed.

Lemma Math_min_inject_Z (a b : Z) :
  Math_min (Fin (inject_Z a)) (Fin (inject_Z b)) = Fin (inject_Z (Z.min a b)).
Proof.
  cbn [Math_min lift2]. f_equal.
  unfold Qmin, GenericMinMax.gmin, Qcompare, inject_Z, Z.min. cbn [Qnum Qden].
  rewrite !Z.mul_1_r. now destruct (a ?= b)%Z.
Qed.

Lemma targetBedsOf_whole (n : Z) (sb : bool) :
  targetBedsOf (Fin (inject_Z n)) sb = Fin (inject_Z (target_bedrooms n sb)).
Proof.
  unfold targetBedsOf, target_bedrooms.
  rewrite (nseq_inject_Z n 2 : nseq _ (Fin 2) = _).
  destruct ((n =? 2)%Z && sb); [reflexivity|].
  apply (Math_min_inject_Z n 4).
Qed.

Lemma minBedsOf_whole (n : Z) (sb : bool) :
  minBedsOf (Fin (inject_Z n)) sb = Fin (inject_Z (floor_bedrooms n sb)).
Proof.
  unfold minBedsOf, floor_bedrooms, nge.
  rewrite (nseq_inject_Z n 2 : nseq _ (Fin 2) = _).
  rewrite (nle_inject_Z 4 n : nle (Fin 4) _ = _).
  rewrite (nle_inject_Z 3 n : nle (Fin 3) _ = _).
  destruct ((n =? 2)%Z && sb); [reflexivity|].
  destruct (4 <=? n)%Z; [reflexivity|].
  destruct (3 <=? n)%Z; reflexivity.
Qed.

(** The target and the floor of a group of two or more. *)
Lemma policy_cases (n : Z) (sb : bool) :
  (2 <= n)%Z ->
  let t := target_bedrooms n sb in
  let f := floor_bedrooms n sb in
  (t = 1 /\ f = 1)%Z \/ (t = 2 /\ f = 1)%Z \/ (t = 3 /\ f = 2)%Z \/ (t = 4 /\ f = 3)%Z.
Proof.
  intros Hn. unfold target_bedrooms, floor_bedrooms.
  destruct (Z.eqb_spec n 2) as [-> | Hne]; [destruct sb; cbn; lia|].
  cbn [andb].
  destruct (Z.leb_spec 4 n); [rewrite Z.min_r by lia; lia|].
  destruct (Z.leb_spec 3 n); [|lia].
  rewrite Z.min_l by lia. lia.
Qed.

(** The loop finds what [first_known] describes. *)
Lemma fallback_first_known (s : Suburb) (t f : Z) :
  (t = 1 /\ f = 1)%Z \/ (t = 2 /\ f = 1)%Z \/ (t = 3 /\ f = 2)%Z \/ (t = 4 /\ f = 3)%Z ->
  match first_known s t f with
  | None =>
      fallback 4 s (Fin (inject_Z t)) (Fin (inject_Z f)) (Fin (inject_Z t)) = None
  | Some (b, r) =>
      exists bq,
        fallback 4 s (Fin (inject_Z t)) (Fin (inject_Z f)) (Fin (inject_Z t)) =
          Some (Num (Fin r), Fin bq, negb (b =? t)%Z) /\
        bq == inject_Z b
  end.
Proof.
  intros Hc.
  destruct s as [k pc nm la lo ov av tb r1 r2 r3 r4 r5 dw tr inc p1 p2 p3 p4 p5].
  destruct Hc as [[-> ->] | [[-> ->] | [[-> ->] | [-> ->]]]];
    destruct r1, r2, r3, r4; cbv -[Qeq];
    try reflexivity; eexists; split; reflexivity.
Qed.

(** What [first_known] returns is the highest bedroom count between the
    floor and the target that has a median. *)
Lemma candidates_cons (t : Z) (k : nat) :
  map (fun i => (t - Z.of_nat i)%Z) (seq 0 (S k)) =
  t :: map (fun i => (t - 1 - Z.of_nat i)%Z) (seq 0 k).
Proof.
  cbn [seq map]. rewrite <- seq_shift, map_map. f_equal; [lia|].
  apply map_ext. intros i. lia.
Qed.

Lemma find_candidates (P : Z -> bool) (k : nat) :
  forall t : Z,
    match find P (map (fun i => (t - Z.of_nat i)%Z) (seq 0 k)) with
    | Some b =>
        (t - Z.of_nat k < b <= t)%Z /\ P b = true /\
        (forall b', (b < b' <= t)%Z -> P b' = false)
    | None => forall b', (t - Z.of_nat k < b' <= t)%Z -> P b' = false
    end.
Proof.
  induction k as [|k IH]; intros t.
  - cbn. intros b' Hb'. lia.
  - rewrite candidates_cons. cbn [find].
    destruct (P t) eqn:Et.
    + split; [lia|]. split; [exact Et|]. intros b' Hb'. lia.
    + specialize (IH (t - 1)%Z).
      destruct (find P _) as [b|].
      * destruct IH as (Hb & HP & Hmax).
        split; [lia|]. split; [exact HP|].
        intros b' Hb'. destruct (Z.eq_dec b' t) as [-> | Hne]; [exact Et|].
        apply Hmax. lia.
      * intros b' Hb'. destruct (Z.eq_dec b' t) as [-> | Hne]; [exact Et|].
        apply IH. lia.
Qed.

Lemma first_known_spec (s : Suburb) (t f : Z) :
  (f <= t)%Z ->
  match first_known s t f with
  | Some (b, r) =>
      (f <= b <= t)%Z /\ rent_for s b = Some r /\
      (forall b', (b < b' <= t)%Z -> rent_for s b' = None)
  | None => forall b', (f <= b' <= t)%Z -> rent_for s b' = None
  end.
Proof.
  intros Hft. unfold first_known, candidates.
  pose proof (find_candidates
                (fun b => match rent_for s b with Some _ => true | None => false end)
                (Z.to_nat (t - f + 1)) t) as H.
  destruct (find _ _) as [b|].
  - destruct H as (Hb & HP & Hmax).
    destruct (rent_for s b) as [r|] eqn:Er; [|discriminate]. cbn.
    split; [lia|]. split; [exact Er|].
    intros b' Hb'. specialize (Hmax b' Hb').
    destruct (rent_for s b'); [discriminate|reflexivity].
  - intros b' Hb'. specialize (H b').
    destruct (rent_for s b'); [|reflexivity].
    discriminate H. lia.
Qed.

(** C4.  [resolveSharedRent] follows the shared-living policy.
    For a group of one it returns the median of the requested bedroom
    count (the overall median when none is requested) unchanged as total
    and per-person rent, not flagged as estimated, and [null] when that
    median is [null].  For a group of [n >= 2] the target is
    [min (n, 4)] bedrooms, or 1 for a pair sharing a bedroom; the rent is
    the median of the first bedroom count with a known median from the
    target down to the floor (1 for the bedroom-sharing pair, 2 for three
    people, 3 for four or more), flagged as estimated exactly when that
    count is below the target, and [null] when there is none; the
    per-person rent is [round (total / n * 10) / 10]. *)
Theorem resolveSharedRent_policy (s : Suburb) (shareBedroom : bool) :
  (resolveSharedRent s None (Fin 1) shareBedroom =
     match median_rent_overall s with
     | Some r =>
         Some {| totalRent := Num (Fin r); perPersonRent := Num (Fin r);
                 rentEstimated := false; bedsUsed := Fin 0 |}
     | None => None
     end) /\
  (forall b : Z, (1 <= b)%Z ->
     resolveSharedRent s (Some (Fin (inject_Z b))) (Fin 1) shareBedroom =
     match rent_for s b with
     | Some r =>
         Some {| totalRent := Num (Fin r); perPersonRent := Num (Fin r);
                 rentEstimated := false; bedsUsed := Fin (inject_Z b) |}
     | None => None
     end) /\
  (forall (n : Z) (userBedrooms : option num), (2 <= n)%Z ->
     let target := target_bedrooms n shareBedroom in
     let floor := floor_bedrooms n shareBedroom in
     (floor <= target)%Z /\
     match first_known s target floor with
     | Some (b, r) =>
         exists res,
           resolveSharedRent s userBedrooms (Fin (inject_Z n)) shareBedroom = Some res /\
           totalRent res = Num (Fin r) /\
           perPersonRent res =
             Num (Fin (inject_Z (round (r / inject_Z n * 10)) / 10)) /\
           rentEstimated res = negb (b =? target)%Z /\
           bedsUsed res =n= Fin (inject_Z b)
     | None =>
         resolveSharedRent s userBedrooms (Fin (inject_Z n)) shareBedroom = None
     end).
Proof.
  split; [|split].
  - unfold resolveSharedRent, resolveSharedRent_fuel. cbn.
    destruct (median_rent_overall s); reflexivity.
  - intros b Hb. unfold resolveSharedRent, resolveSharedRent_fuel.
    change (nle (Fin 1) (Fin 1)) with true. cbv iota.
    assert (Et : truthy (Num (Fin (inject_Z b))) = true).
    { cbn [truthy]. apply negb_true_iff.
      rewrite (nseq_inject_Z b 0 : Qeq_bool (inject_Z b) 0 = _).
      apply Z.eqb_neq. lia. }
    rewrite Et.
    assert (Ek : get s (medianRentKey (Fin (inject_Z b))) = ofOption (rent_for s b)).
    { unfold medianRentKey, nge.
      rewrite (nle_inject_Z 5 b : nle (Fin 5) _ = _).
      rewrite (nseq_inject_Z b 1 : nseq _ (Fin 1) = _).
      rewrite (nseq_inject_Z b 2 : nseq _ (Fin 2) = _).
      rewrite (nseq_inject_Z b 3 : nseq _ (Fin 3) = _).
      rewrite (nseq_inject_Z b 4 : nseq _ (Fin 4) = _).
      assert (Hc : (b = 1 \/ b = 2 \/ b = 3 \/ b = 4 \/ 5 <= b)%Z) by lia.
      destruct Hc as [-> | [-> | [-> | [-> | H5]]]]; try reflexivity.
      assert (E5 : (5 <=? b)%Z = true) by (apply Z.leb_le; exact H5).
      rewrite E5. unfold rent_for. rewrite E5.
      destruct b as [|p|p]; try lia.
      do 3 (destruct p as [p|p|]; try lia; try reflexivity). }
    rewrite Ek. destruct (rent_for s b); reflexivity.
  - intros n userBedrooms Hn target floor.
    pose proof (policy_cases n shareBedroom Hn) as Hc.
    cbv zeta in Hc. fold target floor in Hc.
    assert (Hn0 : ~ inject_Z n == 0).
    { change 0 with (inject_Z 0). rewrite inject_Z_injective. lia. }
    assert (Eres :
      resolveSharedRent s userBedrooms (Fin (inject_Z n)) shareBedroom =
      match fallback 4 s (Fin (inject_Z target)) (Fin (inject_Z floor))
              (Fin (inject_Z target)) with
      | None => None
      | Some (rent, beds, estimated) =>
          Some {| totalRent := rent;
                  perPersonRent :=
                    Num (ndiv (Math_round
                                 (nmul (ndiv (toNumber rent) (Fin (inject_Z n)))
                                       (Fin 10)))
                              (Fin 10));
                  rentEstimated := estimated; bedsUsed := beds |}
      end).
    { unfold resolveSharedRent, resolveSharedRent_fuel.
      assert (E1 : nle (Fin (inject_Z n)) (Fin 1) = false).
      { rewrite (nle_inject_Z n 1 : nle _ (Fin 1) = _). apply Z.leb_gt. lia. }
      rewrite E1, targetBedsOf_whole, minBedsOf_whole. reflexivity. }
    rewrite Eres. clear Eres.
    pose proof (fallback_first_known s target floor Hc) as Hf.
    clearbody target floor.
    split; [lia|].
    destruct (first_known s target floor) as [[b r]|].
    + destruct Hf as (bq & -> & Hbq).
      eexists. split; [reflexivity|].
      cbn [totalRent perPersonRent rentEstimated bedsUsed].
      split; [reflexivity|]. split; [|split; [reflexivity|exact Hbq]].
      cbn [toNumber]. rewrite (ndiv_Fin r (inject_Z n) Hn0).
      cbn [nmul lift2 Math_round]. rewrite ndiv_Fin by discriminate. reflexivity.
    + rewrite Hf. reflexivity.
Qed.

(** A pair sharing the one bedroom of a postcode whose only median is the
    1-bedroom one, 520 a week: 260 each, not estimated. *)
Lemma resolveSharedRent_policy_witness :
  (2 <= 2)%Z /\
  exists res,
    resolveSharedRent
      (Examples.mkSuburb "Ryde_2112" "2112" (Some "Ryde"%string) 100
         (Some 520) None None None)
      None (Fin (inject_Z 2)) true = Some res /\
    totalRent res = Num (Fin 520) /\
    perPersonRent res = Num (Fin (inject_Z 2600 / 10)) /\
    rentEstimated res = false /\
    bedsUsed res =n= Fin (inject_Z 1).
Proof.
  split; [discriminate|].
  exact (proj2 (proj2 (proj2 (resolveSharedRent_policy
           (Examples.mkSuburb "Ryde_2112" "2112" (Some "Ryde"%string) 100
              (Some 520) None None None) true))
         2%Z None ltac:(discriminate))).
Defined.

(** Four people where the 4-bedroom median is missing: the 3-bedroom one
    is used and flagged; with the 3-bedroom one missing too, nothing
    resolves although a 2-bedroom median exists. *)
Example resolveSharedRent_four_people :
  option_map (fun r => (totalRent r, perPersonRent r, rentEstimated r))
    (resolveSharedRent
       (Examples.mkSuburb "A" "2000" None 0 (Some 500) (Some 700) (Some 900) None)
       None (Fin 4) false)
  = Some (Num (Fin 900), Num (Fin (inject_Z 2250 / 10)), true) /\
  resolveSharedRent
    (Examples.mkSuburb "B" "2001" None 0 (Some 500) (Some 700) None None)
    None (Fin 4) false = None.
Proof. split; reflexivity. Qed.

End SharedRent.

(* ===================================================================== *)
(** * Array.prototype.sort                                                *)
(* ===================================================================== *)

Section ArraySort.

Import Recommend.
Local Open Scope Q_scope.

Context {A : Type}.

Lemma insert_Permutation (cmp : A -> A -> num) (x : A) (l : list A) :
  Permutation (insert cmp x l) (x :: l).
Proof.
  induction l as [|y l IH]; cbn [insert]; [reflexivity|].
  destruct (ngt (cmp x y) (Fin 0)); [|reflexivity].
  rewrite IH. apply perm_swap.
Qed.

Lemma Array_sort_Permutation (cmp : A -> A -> num) (l : list A) :
  Permutation (Array_sort cmp l) l.
Proof.
  induction l as [|x l IH]; cbn; [reflexivity|].
  fold (Array_sort cmp l). rewrite insert_Permutation. now constructor.
Qed.


Lemma Array_sort_length (cmp : A -> A -> num) (l : list A) :
  length (Array_sort cmp l) = length l.
Proof. apply Permutation_length, Array_sort_Permutation. Qed.

Lemma firstn_Sorted (R : A -> A -> Prop) (n : nat) (l : list A) :
  Sorted R l -> Sorted R (firstn n l).
Proof.
  revert l. induction n as [|n IH]; intros l Hs; [constructor|].
  destruct l as [|x l]; [constructor|].
  inversion Hs as [|? ? Hs' Hhd]; subst. cbn [firstn].
  constructor; [apply IH; exact Hs'|].
  destruct l as [|y l]; [destruct n; constructor|]. inversion Hhd; subst.
  destruct n; cbn [firstn]; constructor. assumption.
Qed.


(** Sorting by the difference of a numeric key. *)
Variable key : A -> num.

Lemma by_key_gt (a b : A) (x y : Q) :
  key a = Fin x -> key b = Fin y ->
  ngt (by_key key a b) (Fin 0) = negb (Qle_bool x y).
Proof.
  intros Ha Hb. unfold by_key, ngt. rewrite Ha, Hb. cbn [nsub lift2 nlt].
  f_equal. destruct (Qle_bool x y) eqn:E.
  - apply Qle_bool_iff in E. apply Qle_bool_iff. lraQ.
  - destruct (Qle_bool (x - y) 0) eqn:E'; [|reflexivity].
    apply Qle_bool_iff in E'.
    assert (Hxy : x <= y) by lraQ. apply Qle_bool_iff in Hxy. congruence.
Qed.

Lemma key_le_trans (a b c : A) : key_le key a b -> key_le key b c -> key_le key a c.
Proof.
  unfold key_le. destruct (key a), (key b), (key c); cbn; try discriminate.
  rewrite !Qle_bool_iff. apply Qle_trans.
Qed.

Lemma insert_HdRel (a x : A) (l : list A) :
  key_le key a x -> HdRel (key_le key) a l -> HdRel (key_le key) a (insert (by_key key) x l).
Proof.
  intros Hax Hal. destruct l as [|y l]; cbn [insert]; [now constructor|].
  destruct (ngt (by_key key x y) (Fin 0)); constructor; [|exact Hax].
  now inversion Hal.
Qed.

Lemma insert_Sorted (x : A) (l : list A) :
  finite_key key x -> Forall (finite_key key) l ->
  Sorted (key_le key) l -> Sorted (key_le key) (insert (by_key key) x l).
Proof.
  intros [qx Hx] Hfin Hs.
  induction l as [|y l IH]; cbn [insert]; [repeat constructor|].
  inversion Hfin as [|? ? [qy Hy] Hfin']; subst.
  inversion Hs as [|? ? Hs' Hhd]; subst.
  rewrite (by_key_gt x y qx qy Hx Hy).
  destruct (Qle_bool qx qy) eqn:E; cbn [negb].
  - constructor; [exact Hs|]. constructor.
    unfold key_le. rewrite Hx, Hy. exact E.
  - constructor; [apply IH; assumption|].
    apply insert_HdRel; [|exact Hhd].
    unfold key_le. rewrite Hx, Hy. cbn [nle].
    apply Qle_bool_iff. apply Qlt_le_weak. apply (nle_Fin_false qx qy). exact E.
Qed.

Lemma insert_Forall (P : A -> Prop) (cmp : A -> A -> num) (x : A) (l : list A) :
  P x -> Forall P l -> Forall P (insert cmp x l).
Proof.
  intros Hx Hl. rewrite (insert_Permutation cmp x l). now constructor.
Qed.

(** A list whose keys are all finite comes out of [sort] in ascending
    order of the key. *)
Lemma Array_sort_Sorted (l : list A) :
  Forall (finite_key key) l -> Sorted (key_le key) (Array_sort (by_key key) l).
Proof.
  induction l as [|x l IH]; intros Hfin; cbn; [constructor|].
  fold (Array_sort (by_key key) l).
  inversion Hfin as [|? ? Hx Hl]; subst.
  apply insert_Sorted; [exact Hx| |apply IH; exact Hl].
  rewrite (Array_sort_Permutation (by_key key) l). exact Hl.
Qed.

End ArraySort.

(* ===================================================================== *)
(** * GET /api/recommend                                                  *)
(* ===================================================================== *)

Section RecommendFacts.

Import Suburbs Commute Recommend.
Local Open Scope Q_scope.

Variable Number : string -> num.
Variable dataset : list (string * Suburb).
Variable stations : list TrainStation.

(** ** Validation *)

Lemma bedrooms_check (req : Request) :
  match bedroomsOf Number req with
  | Some b => isNaN b || nlt b (Fin 1) || ngt b (Fin 5)
  | None => false
  end = false <-> bedrooms_in_range Number req.
Proof.
  unfold bedroomsOf, bedrooms_in_range.
  destruct (present (p_bedrooms req)) as [s|]; cbn [option_map]; [|tauto].
  destruct (Number s) as [|q]; cbn [isNaN orb].
  - split; [discriminate|]. intros (q & Hq & _). discriminate.
  - unfold ngt. rewrite orb_false_iff, (nlt_Fin_false q 1), (nlt_Fin_false 5 q).
    split.
    + intros [H1 H5]. exists q. auto.
    + intros (q' & Hq & H1 & H5). injection Hq as ->. auto.
Qed.

Lemma income_check (s : string) :
  isNaN (Number s) || nle (Number s) (Fin 0) = false <->
  exists q, Number s = Fin q /\ 0 < q.
Proof.
  destruct (Number s) as [|q]; cbn [isNaN orb].
  - split; [discriminate|]. intros (q & Hq & _). discriminate.
  - rewrite (nle_Fin_false q 0). split.
    + intros H. exists q. auto.
    + intros (q' & Hq & H). injection Hq as ->. exact H.
Qed.

(** The handler answers 200 exactly on a valid request, and then with the
    sorted, truncated list of scored suburbs. *)
Lemma GET_200 (req : Request) (body : Body) :
  GET Number dataset stations req = Status200 body ->
  income_positive Number req /\ bedrooms_in_range Number req /\
  income_weekly body = incomeOf Number req /\
  bedrooms body = bedroomsOf Number req /\
  body_sharing_mode body = sharingCountOf Number req /\
  suburbs body = firstn MAX_RESULTS (Array_sort byRentStress (scoredOf Number dataset stations req)) /\
  total_matching body = length (scoredOf Number dataset stations req) /\
  showing body = length (suburbs body).
Proof.
  unfold GET, scoredOf, incomeOf, income_positive.
  destruct (present (p_income req)) as [s|] eqn:Es; [|discriminate].
  destruct (isNaN (Number s) || nle (Number s) (Fin 0)) eqn:Ei; [discriminate|].
  fold (bedroomsOf Number req).
  destruct (match bedroomsOf Number req with
            | Some b => isNaN b || nlt b (Fin 1) || ngt b (Fin 5)
            | None => false
            end) eqn:Eb; [discriminate|].
  intros H. injection H as <-. cbn.
  apply income_check in Ei. destruct Ei as (q & Hq & Hpos).
  apply bedrooms_check in Eb.
  split; [exists s, q; auto|]. split; [exact Eb|].
  repeat split. apply Array_sort_length.
Qed.

Lemma GET_valid (req : Request) :
  income_positive Number req -> bedrooms_in_range Number req ->
  exists body, GET Number dataset stations req = Status200 body.
Proof.
  intros (s & q & Es & Hq & Hpos) Hb. unfold GET. rewrite Es.
  assert (Ei : isNaN (Number s) || nle (Number s) (Fin 0) = false)
    by (apply income_check; eauto).
  rewrite Ei. fold (bedroomsOf Number req).
  apply bedrooms_check in Hb. rewrite Hb. eexists. reflexivity.
Qed.

Lemma GET_invalid (req : Request) :
  ~ (income_positive Number req /\ bedrooms_in_range Number req) ->
  exists e, GET Number dataset stations req = Status400 e.
Proof.
  intros Hno. unfold GET.
  destruct (present (p_income req)) as [s|] eqn:Es; [|eexists; reflexivity].
  destruct (isNaN (Number s) || nle (Number s) (Fin 0)) eqn:Ei;
    [eexists; reflexivity|].
  fold (bedroomsOf Number req).
  destruct (match bedroomsOf Number req with
            | Some b => isNaN b || nlt b (Fin 1) || ngt b (Fin 5)
            | None => false
            end) eqn:Eb; [eexists; reflexivity|].
  exfalso. apply Hno. split.
  - apply income_check in Ei. destruct Ei as (q & Hq & Hpos). exists s, q. auto.
  - apply bedrooms_check. exact Eb.
Qed.

(** C6 (as amended).  [GET /recommend] responds 400 exactly when the
    income parameter is missing or empty or does not parse to a number
    above zero, or the bedrooms parameter is present and does not parse to
    a number from 1 to 5; every other request is answered 200 with the
    suburb list, and the handler never answers 500. *)
Theorem GET_status (req : Request) :
  ((exists e, GET Number dataset stations req = Status400 e) <->
   ~ (income_positive Number req /\ bedrooms_in_range Number req)) /\
  ((exists body, GET Number dataset stations req = Status200 body) <->
   income_positive Number req /\ bedrooms_in_range Number req) /\
  (forall e, GET Number dataset stations req <> Status500 e).
Proof.
  split; [|split].
  - split; [|apply GET_invalid].
    intros [e He] [Hi Hb].
    destruct (GET_valid req Hi Hb) as [body Hbody]. congruence.
  - split.
    + intros [body Hbody]. apply GET_200 in Hbody. tauto.
    + intros [Hi Hb]. apply GET_valid; assumption.
  - intros e He.
    assert (D : (income_positive Number req /\ bedrooms_in_range Number req) \/
                ~ (income_positive Number req /\ bedrooms_in_range Number req)).
    { destruct (GET Number dataset stations req) eqn:E; try discriminate.
      unfold GET in E.
      destruct (present (p_income req)); [|discriminate].
      destruct (isNaN _ || _); [discriminate|].
      destruct (match option_map Number (present (p_bedrooms req)) with
                | Some b => _ | None => _ end); discriminate. }
    destruct D as [[Hi Hb] | Hno].
    + destruct (GET_valid req Hi Hb) as [body Hbody]. congruence.
    + destruct (GET_invalid req Hno) as [e' He']. congruence.
Qed.

(** ** The scored list *)

Lemma fold_left_push {X Y} (f : X -> option Y) (l : list X) (acc : list Y) :
  fold_left (fun scored x => match f x with
                             | Some e => scored ++ [e]
                             | None => scored
                             end) l acc =
  acc ++ flat_map (fun x => match f x with Some e => [e] | None => [] end) l.
Proof.
  revert acc. induction l as [|x l IH]; intros acc; cbn.
  - now rewrite app_nil_r.
  - rewrite IH. destruct (f x); [|reflexivity].
    now rewrite <- app_assoc.
Qed.


Lemma scoredList_In (income : num) (bedrooms : option num) (sharingCount : num)
  (shareBedroom : bool) (wp : option string) (e : ScoredSuburb) :
  In e (scoredList dataset stations income bedrooms sharingCount shareBedroom wp) <->
  exists s, In s (getAllSuburbs dataset) /\
            scoreSuburb dataset stations income bedrooms sharingCount
              shareBedroom wp s = Some e.
Proof.
  unfold scoredList. rewrite fold_left_push. cbn [app].
  rewrite in_flat_map. split; intros (s & Hs & He); exists s; (split; [exact Hs|]).
  - destruct (scoreSuburb _ _ _ _ _ _ _ s); [|contradiction].
    destruct He as [-> | []]. reflexivity.
  - rewrite He. now left.
Qed.

(** What an entry of the scored list says about its suburb. *)
Lemma scoreSuburb_Some (income : num) (bedrooms : option num) (sharingCount : num)
  (shareBedroom : bool) (wp : option string) (s : Suburb) (e : ScoredSuburb) :
  scoreSuburb dataset stations income bedrooms sharingCount shareBedroom wp s = Some e ->
  exists r,
    resolveSharedRent s bedrooms sharingCount shareBedroom = Some r /\
    rent_stress_pct e =
      percentage (calculateRentStress income (toNumber (perPersonRent r))) /\
    ngt (rent_stress_pct e) (Fin 100) = false /\
    s_rating e = rating (calculateRentStress income (toNumber (perPersonRent r))) /\
    s_suburb_key e = suburb_key s /\ s_postcode e = postcode s /\
    per_person_rent e = perPersonRent r /\ total_rent e = totalRent r /\
    rent_estimated e = rentEstimated r.
Proof.
  unfold scoreSuburb.
  destruct (resolveSharedRent s bedrooms sharingCount shareBedroom) as [r|];
    [|discriminate].
  destruct (ngt _ (Fin 100)) eqn:E; [discriminate|].
  intros H. injection H as <-. exists r. cbn. repeat split. exact E.
Qed.


(** ** Whole-number parameters give finite figures *)

Lemma medianRentKey_whole (x : Q) (z : Z) :
  x == inject_Z z -> (1 <= z)%Z -> medianRentKey (Fin x) <> no_such_field.
Proof.
  intros Hx Hz. unfold medianRentKey, nge.
  destruct (nle (Fin 5) (Fin x)) eqn:E5; [discriminate|].
  apply nle_Fin_false in E5. rewrite Hx in E5.
  change 5 with (inject_Z 5) in E5. rewrite <- Zlt_Qlt in E5.
  assert (Hne : forall k : Z, nseq (Fin x) (Fin (inject_Z k)) = false -> z <> k).
  { intros k Hk ->. cbn [nseq] in Hk. apply Qeq_bool_false_iff in Hk. auto. }
  destruct (nseq (Fin x) (Fin 1)) eqn:E1; [discriminate|]. apply (Hne 1%Z) in E1.
  destruct (nseq (Fin x) (Fin 2)) eqn:E2; [discriminate|]. apply (Hne 2%Z) in E2.
  destruct (nseq (Fin x) (Fin 3)) eqn:E3; [discriminate|]. apply (Hne 3%Z) in E3.
  destruct (nseq (Fin x) (Fin 4)) eqn:E4; [discriminate|]. apply (Hne 4%Z) in E4.
  lia.
Qed.

Lemma get_field (s : Suburb) (key : RentField) :
  key <> no_such_field ->
  get s key = Null \/ exists r, get s key = Num (Fin r).
Proof.
  intros Hk. destruct key; cbn [get]; try contradiction;
    match goal with
    | |- context [ofOption ?o] => destruct o; cbn [ofOption]; eauto
    end.
Qed.

Lemma fallback_number (fuel : nat) (s : Suburb) (t : num) (m : Q) :
  1 <= m ->
  forall (b : Q) (v : value) (used : num) (est : bool),
    is_whole (Fin b) ->
    fallback fuel s t (Fin m) (Fin b) = Some (v, used, est) ->
    exists r, v = Num (Fin r).
Proof.
  intros Hm. induction fuel as [|fuel IH]; intros b v used est Hb H;
    cbn [fallback] in H; [discriminate|].
  unfold nge in H. destruct (nle (Fin m) (Fin b)) eqn:E; [|discriminate].
  apply nle_Fin in E. destruct Hb as [z Hz]. cbn [num_eq] in Hz.
  assert (Hz1 : (1 <= z)%Z).
  { rewrite Zle_Qle. change (inject_Z 1) with 1. rewrite <- Hz. lraQ. }
  destruct (get_field s _ (medianRentKey_whole b z Hz Hz1)) as [Hg | [r Hg]];
    rewrite Hg in H.
  - cbn [nsub lift2] in H. apply IH in H; [exact H|].
    exists (z - 1)%Z. cbn [num_eq]. rewrite Hz.
    unfold Z.sub. rewrite inject_Z_plus, inject_Z_opp. reflexivity.
  - injection H as <- _ _. eauto.
Qed.

Lemma targetBedsOf_is_whole (x : Q) (sb : bool) :
  is_whole (Fin x) ->
  exists t, targetBedsOf (Fin x) sb = Fin t /\ is_whole (Fin t).
Proof.
  intros [z Hz]. cbn [num_eq] in Hz. unfold targetBedsOf.
  destruct (nseq (Fin x) (Fin 2) && sb).
  - exists 1. split; [reflexivity|]. exists 1%Z. reflexivity.
  - exists (Qmin x 4). split; [reflexivity|].
    destruct (Q.min_spec x 4) as [[_ E] | [_ E]].
    + exists z. cbn [num_eq]. now rewrite E.
    + exists 4%Z. cbn [num_eq]. now rewrite E.
Qed.

Lemma minBedsOf_floor (sharingCount : num) (sb : bool) :
  exists m, minBedsOf sharingCount sb = Fin m /\ 1 <= m.
Proof.
  destruct (minBedsOf_cases sharingCount sb) as [-> | [-> | ->]];
    eexists; (split; [reflexivity|discriminate]).
Qed.

(** With a whole group size, and in solo mode a whole bedroom count of at
    least 1 (or none), what [resolveSharedRent] returns has a finite
    per-person rent. *)
Lemma resolveSharedRent_finite (s : Suburb) (bedrooms : option num)
  (x : Q) (sb : bool) (r : Resolved) :
  is_whole (Fin x) ->
  match bedrooms with
  | Some b => exists z : Z, b =n= Fin (inject_Z z) /\ (1 <= z)%Z
  | None => True
  end ->
  resolveSharedRent s bedrooms (Fin x) sb = Some r ->
  exists q, perPersonRent r = Num (Fin q).
Proof.
  intros Hx Hb. unfold resolveSharedRent, resolveSharedRent_fuel.
  destruct (nle (Fin x) (Fin 1)) eqn:E1.
  - assert (Hkey : forall key, key <> no_such_field ->
               match get s key with
               | Null => None
               | rent => Some {| totalRent := rent; perPersonRent := rent;
                                 rentEstimated := false;
                                 bedsUsed := match bedrooms with
                                             | Some b => b
                                             | None => Fin 0
                                             end |}
               end = Some r -> exists q, perPersonRent r = Num (Fin q)).
    { intros key Hk. destruct (get_field s key Hk) as [-> | [q ->]];
        [discriminate|].
      intros H. injection H as <-. cbn. eauto. }
    destruct bedrooms as [[|b]|].
    + destruct Hb as (z & [] & _).
    + destruct Hb as (z & Hz & Hz1). cbn [num_eq] in Hz.
      destruct (truthy (Num (Fin b))).
      * apply Hkey. apply (medianRentKey_whole b z Hz Hz1).
      * apply Hkey. discriminate.
    + apply Hkey. discriminate.
  - apply nle_Fin_false in E1.
    destruct (targetBedsOf_is_whole x sb Hx) as (t & -> & Ht).
    destruct (minBedsOf_floor (Fin x) sb) as (m & -> & Hm).
    destruct (fallback 4 s (Fin t) (Fin m) (Fin t)) as [[[v used] est]|] eqn:Ef;
      [|discriminate].
    apply (fallback_number 4 s (Fin t) m Hm) in Ef; [|exact Ht].
    destruct Ef as [q ->]. intros H. injection H as <-.
    cbn [perPersonRent toNumber].
    assert (E0 : Qeq_bool x 0 = false).
    { apply Qeq_bool_false_iff. intros E0. rewrite E0 in E1. discriminate. }
    rewrite E0. cbn [nmul lift2 Math_round]. rewrite ndiv_Fin by discriminate.
    eauto.
Qed.

Lemma sharingCountOf_range (req : Request) :
  exists x, sharingCountOf Number req = Fin x /\ 1 <= x <= 4.
Proof.
  unfold sharingCountOf.
  destruct (present (p_sharing req)) as [s|];
    [|exists 1; split; [reflexivity|split; discriminate]].
  assert (Hy : exists y, nor (Number s) (Fin 1) = Fin y).
  { unfold nor. destruct (Number s) as [|q]; cbn [truthy]; [eauto|].
    destruct (negb (Qeq_bool q 0)); eauto. }
  destruct Hy as [y ->]. cbn [Math_max Math_min lift2].
  exists (Qmin 4 (Qmax 1 y)). split; [reflexivity|].
  pose proof (Q.le_max_l 1 y). pose proof (Q.le_min_l 4 (Qmax 1 y)).
  split; [|assumption].
  apply Q.min_glb; [discriminate|assumption].
Qed.

Lemma scoredOf_finite (req : Request) :
  income_positive Number req -> bedrooms_in_range Number req -> whole_params Number req ->
  Forall (finite_key rent_stress_pct) (scoredOf Number dataset stations req).
Proof.
  intros (si & qi & Esi & Hqi & Hpos) Hb [Hws Hwb].
  apply List.Forall_forall. intros e He. unfold scoredOf in He.
  apply scoredList_In in He. destruct He as (s & _ & He).
  apply scoreSuburb_Some in He. destruct He as (r & Hr & Hpct & _).
  destruct (sharingCountOf_range req) as (x & Ex & _).
  rewrite Ex in Hr, Hws.
  apply resolveSharedRent_finite in Hr; [|exact Hws|].
  - destruct Hr as [q Hq]. rewrite Hq in Hpct. cbn [toNumber] in Hpct.
    unfold incomeOf in Hpct. rewrite Esi, Hqi in Hpct.
    rewrite (calculateRentStress_percentage qi q Hpos) in Hpct.
    eexists. exact Hpct.
  - unfold bedrooms_in_range in Hb. unfold bedroomsOf in *.
    destruct (present (p_bedrooms req)) as [sb|]; cbn [option_map] in *; [|exact I].
    destruct Hb as (q & Hq & H1 & _). rewrite Hq in *.
    destruct Hwb as [z Hz]. exists z. split; [exact Hz|].
    cbn [num_eq] in Hz. rewrite Zle_Qle. change (inject_Z 1) with 1.
    rewrite <- Hz. exact H1.
Qed.

(** C1 (as amended).  For a request with whole-number group size and
    bedroom count, the list of suburbs in the response of [GET /recommend]
    is sorted ascending by [rent_stress_pct]: of two adjacent entries the
    earlier one has the lower or equal rent-stress percentage.  The list
    has at most [MAX_RESULTS] = 500 entries. *)
Theorem GET_sorted_by_rent_stress (req : Request) (body : Body) :
  GET Number dataset stations req = Status200 body ->
  whole_params Number req ->
  Sorted (fun a b => nle (rent_stress_pct a) (rent_stress_pct b) = true)
         (suburbs body) /\
  (length (suburbs body) <= 500)%nat.
Proof.
  intros Hget Hwhole.
  destruct (GET_200 req body Hget) as (Hi & Hb & _ & _ & _ & -> & _).
  split; [|apply firstn_le_length].
  apply firstn_Sorted.
  apply (Array_sort_Sorted rent_stress_pct).
  apply scoredOf_finite; assumption.
Qed.



End RecommendFacts.

(** ** Concrete requests *)

Section RecommendExamples.

Import Suburbs Commute Recommend Examples.
Local Open Scope Q_scope.

(** C1, counterexample.  Income 1000 and one bedroom over [two_suburbs]:
    the response lists A (stress 30.0, composite score 30.0) before B
    (stress 31.0, composite score 26.0), so it is not ascending in the
    composite score. *)
Lemma GET_not_sorted_by_affordability_score :
  exists body,
    GET Number_decimal two_suburbs [] income_1000_one_bedroom = Status200 body /\
    whole_params Number_decimal income_1000_one_bedroom /\
    map s_suburb_key (suburbs body) = ["A_2000"; "B_2001"]%string /\
    map rent_stress_pct (suburbs body) = [Fin (300 # 10); Fin (310 # 10)] /\
    map affordability_score (suburbs body) = [Fin (300 # 10); Fin (260 # 10)] /\
    ~ Sorted (fun a b => nle (affordability_score a) (affordability_score b) = true)
        (suburbs body).
Proof.
  eexists. split; [reflexivity|].
  split; [split; exists 1%Z; reflexivity|].
  set (l := suburbs _).
  assert (Ek : map s_suburb_key l = ["A_2000"; "B_2001"]%string)
    by (vm_compute; reflexivity).
  assert (Ep : map rent_stress_pct l = [Fin (300 # 10); Fin (310 # 10)])
    by (vm_compute; reflexivity).
  assert (Es : map affordability_score l = [Fin (300 # 10); Fin (260 # 10)])
    by (vm_compute; reflexivity).
  clearbody l.
  split; [exact Ek|]. split; [exact Ep|]. split; [exact Es|].
  destruct l as [|a [|b l]]; try discriminate Es.
  injection Es as Ea Eb _.
  intros H. inversion H as [|? ? _ Hhd]; subst.
  inversion Hhd as [|? ? Hab]; subst.
  rewrite Ea, Eb in Hab. discriminate Hab.
Qed.

Lemma GET_sorted_by_rent_stress_witness :
  exists body,
    GET Number_decimal two_suburbs [] income_1000_one_bedroom = Status200 body /\
    whole_params Number_decimal income_1000_one_bedroom /\
    Sorted (fun a b => nle (rent_stress_pct a) (rent_stress_pct b) = true)
           (suburbs body) /\
    (length (suburbs body) <= 500)%nat.
Proof.
  eexists. split; [reflexivity|].
  assert (Hw : whole_params Number_decimal income_1000_one_bedroom)
    by (split; exists 1%Z; reflexivity).
  split; [exact Hw|].
  exact (GET_sorted_by_rent_stress Number_decimal two_suburbs []
           income_1000_one_bedroom _ eq_refl Hw).
Defined.


(** A bedroom count that is no whole number passes validation; no rent
    field has its name, the rent read is [undefined] and every suburb is
    listed with the rent stress [NaN].  The two theorems above leave such
    requests out. *)
Example GET_fractional_bedrooms :
  exists body,
    GET Number_decimal two_suburbs []
      (request (Some "1000"%string) (Some "2.5"%string) None None None)
      = Status200 body /\
    map s_suburb_key (suburbs body) = ["A_2000"; "B_2001"]%string /\
    map median_rent (suburbs body) = [Undefined; Undefined] /\
    map rent_stress_pct (suburbs body) = [NaN; NaN].
Proof.
  eexists. split; [reflexivity|].
  repeat split; vm_compute; reflexivity.
Qed.


(** C6, counterexample.  The income "0" parses to 0, a non-negative
    number, and no bedroom count is given; the handler answers 400. *)
Lemma GET_rejects_zero_income :
  let req := request (Some "0"%string) None None None None in
  Number_decimal "0" = Fin 0 /\
  income_nonnegative Number_decimal req /\
  bedrooms_in_range Number_decimal req /\
  GET Number_decimal two_suburbs [] req =
    Status400 "income must be a positive number (weekly $)" /\
  ~ ((exists e, GET Number_decimal two_suburbs [] req = Status400 e) <->
     ~ (income_nonnegative Number_decimal req /\
        bedrooms_in_range Number_decimal req)).
Proof.
  intros req.
  assert (Hi : income_nonnegative Number_decimal req).
  { exists "0"%string, 0. repeat split. discriminate. }
  assert (Hb : bedrooms_in_range Number_decimal req) by exact I.
  split; [reflexivity|]. split; [exact Hi|]. split; [exact Hb|].
  split; [reflexivity|].
  intros [H _]. apply H; [|split; assumption].
  eexists. reflexivity.
Qed.

Lemma GET_status_witness :
  exists body,
    GET Number_decimal two_suburbs [] income_1000_one_bedroom = Status200 body.
Proof.
  apply (proj2 (proj1 (proj2 (GET_status Number_decimal two_suburbs []
                                income_1000_one_bedroom)))).
  split.
  - exists "1000"%string, 1000. repeat split.
  - exists 1. repeat split; discriminate.
Defined.

End RecommendExamples.

(* ===================================================================== *)
(** * Suburb search                                                       *)
(* ===================================================================== *)

Section Search.

Import Suburbs Recommend.

Variable dataset : list (string * Suburb).

Lemma app_assoc_cons {X} (l1 l2 : list X) (x : X) :
  (l1 ++ [x]) ++ l2 = l1 ++ x :: l2.
Proof. now rewrite <- app_assoc. Qed.

Lemma search_fold (q : string) (l : list Suburb) :
  forall b : Buckets,
    fold_left (search_step q) l b =
    {| exact := exact b ++ List.filter (exact_match q) l;
       startsWith := startsWith b ++ List.filter (prefix_match q) l;
       contains := contains b ++ List.filter (substring_match q) l;
       postcodeMatch := postcodeMatch b ++ List.filter (postcode_match q) l |}.
Proof.
  induction l as [|s l IH]; intros [e p c pc]; cbn [fold_left List.filter].
  - cbn. now rewrite !app_nil_r.
  - rewrite IH. cbn [List.filter].
    unfold search_step, prefix_match, substring_match, postcode_match, exact_match.
    destruct (String.eqb (lowerName s) q);
      destruct (Str.startsWith (lowerName s) q);
      destruct (Str.includes (lowerName s) q);
      destruct (Str.startsWith (postcode s) q);
      cbn [negb andb exact startsWith contains postcodeMatch];
      f_equal; try reflexivity; apply app_assoc_cons.
Qed.

Lemma nonempty_false (s : string) : nonempty s = false <-> s = EmptyString.
Proof. destruct s; cbn; split; congruence. Qed.

Lemma searchSuburbs_grouped (query : string) :
  Str.trim (Str.toLowerCase query) <> EmptyString ->
  searchSuburbs dataset query =
  grouped (Str.trim (Str.toLowerCase query)) (getAllSuburbs dataset).
Proof.
  intros Hq. unfold searchSuburbs.
  destruct (nonempty (Str.trim (Str.toLowerCase query))) eqn:E.
  - cbn [negb]. rewrite search_fold. reflexivity.
  - apply nonempty_false in E. contradiction.
Qed.

(** C7 (as amended).  For every query that is not empty after
    lower-casing and trimming, [searchSuburbs] returns the matches grouped
    in strict priority order: the suburbs whose lower-cased name is the
    query, then those whose name only starts with it, then those whose
    name only contains it, then those matched only by a postcode prefix,
    each group in dataset order; so a suburb named exactly like the query
    precedes one whose name merely starts with it.  The workplace
    resolution of [GET /recommend] takes the first element of the list
    for the trimmed workplace text. *)
Theorem searchSuburbs_priority (query : string) :
  Str.trim (Str.toLowerCase query) <> EmptyString ->
  let q := Str.trim (Str.toLowerCase query) in
  let all := getAllSuburbs dataset in
  searchSuburbs dataset query =
    List.filter (exact_match q) all ++ List.filter (prefix_match q) all ++
    List.filter (substring_match q) all ++ List.filter (postcode_match q) all /\
  (forall s1 s2,
     In s1 all -> In s2 all ->
     lowerName s1 = q -> lowerName s2 <> q ->
     Str.startsWith (lowerName s2) q = true ->
     exists l1 l2 l3, searchSuburbs dataset query = l1 ++ s1 :: l2 ++ s2 :: l3) /\
  (forall (req : Request) (workplaceStr : string) (m : Suburb) (rest : list Suburb),
     present (p_workplace req) = Some workplaceStr ->
     searchSuburbs dataset (Str.trim workplaceStr) = m :: rest ->
     resolveWorkplace dataset req = Some m).
Proof.
  intros Hq q all.
  pose proof (searchSuburbs_grouped query Hq) as Hg. fold q all in Hg.
  split; [exact Hg|]. split.
  - intros s1 s2 H1 H2 Hexact Hnot Hpre. rewrite Hg. unfold grouped.
    assert (He : In s1 (List.filter (exact_match q) all)).
    { apply filter_In. split; [exact H1|]. unfold exact_match.
      apply String.eqb_eq. exact Hexact. }
    assert (Hp : In s2 (List.filter (prefix_match q) all)).
    { apply filter_In. split; [exact H2|]. unfold prefix_match, exact_match.
      apply andb_true_intro. split; [|exact Hpre].
      apply negb_true_iff. apply String.eqb_neq. exact Hnot. }
    apply in_split in He. destruct He as (l1 & l1' & ->).
    apply in_split in Hp. destruct Hp as (p1 & p2 & ->).
    exists l1, (l1' ++ p1),
      (p2 ++ List.filter (substring_match q) all ++ List.filter (postcode_match q) all).
    rewrite <- !app_assoc. cbn [app]. rewrite <- ?app_assoc. reflexivity.
  - intros req w m rest Hw Hm. unfold resolveWorkplace. rewrite Hw, Hm.
    reflexivity.
Qed.

End Search.

Section SearchExamples.

Import Suburbs Recommend Examples.

Example string_functions :
  Str.toLowerCase "Bondi Junction" = "bondi junction"%string /\
  Str.trim "  North Bondi  " = "North Bondi"%string /\
  Str.startsWith "bondi junction" "bondi" = true /\
  Str.startsWith "north bondi" "bondi" = false /\
  Str.includes "north bondi" "bondi" = true /\
  Str.includes "bondi" "bondi junction" = false /\
  Str.four_digits "2026" = true /\ Str.four_digits "20261" = false.
Proof. repeat split; reflexivity. Qed.

(** White space and letters beyond ASCII: the no-break space U+00A0 is
    trimmed, U+00C9 has the lower case U+00E9 and the multiplication sign
    U+00D7 has none; a query of one no-break space is blank. *)
Example string_functions_latin1 :
  Str.trim (String (ascii_of_nat 160) (String (ascii_of_nat 9) "Bondi")) =
    "Bondi"%string /\
  Str.toLowerCase (String (ascii_of_nat 201) "COLE") =
    String (ascii_of_nat 233) "cole" /\
  Str.toLowerCase (String (ascii_of_nat 215) EmptyString) =
    String (ascii_of_nat 215) EmptyString /\
  searchSuburbs bondi_suburbs (String (ascii_of_nat 160) EmptyString) =
    getAllSuburbs bondi_suburbs.
Proof. repeat split; reflexivity. Qed.

(** The keys of the example datasets are in an order [Object.values]
    produces. *)
Example example_datasets_enumerable :
  forallb (fun d => enumeration_order (map fst d))
    [ two_suburbs; many_suburbs; bondi_suburbs; unnamed_second;
      sydney_parramatta; equator_and_sydney ] = true.
Proof. vm_compute. reflexivity. Qed.

Lemma searchSuburbs_priority_witness :
  Str.trim (Str.toLowerCase " Bondi") <> EmptyString /\
  map suburb_key (searchSuburbs bondi_suburbs " Bondi") =
    ["Bondi_2026"; "Bondi Junction_2022"; "North Bondi_2026"]%string.
Proof.
  assert (Hq : Str.trim (Str.toLowerCase " Bondi") <> EmptyString)
    by discriminate.
  split; [exact Hq|].
  rewrite (proj1 (searchSuburbs_priority bondi_suburbs " Bondi" Hq)).
  reflexivity.
Defined.

(** C7, counterexample.  The query of one blank is not empty, but it is
    empty once trimmed, and [searchSuburbs] returns the whole dataset in
    dataset order: Ryde, which neither contains a blank nor has a postcode
    starting with one, comes first, before the record whose (missing)
    name is the normalised query exactly.  The grouped order is the
    opposite one, and the workplace " " resolves to Ryde.  The keys of the
    dataset are no array indices, so [Object.values] lists the records in
    the order of the JSON text, Ryde first. *)
Lemma searchSuburbs_blank_query :
  " "%string <> EmptyString /\
  enumeration_order (map fst unnamed_second) = true /\
  map array_index (map fst unnamed_second) = [None; None] /\
  map suburb_key (searchSuburbs unnamed_second " ") =
    ["Ryde_2112"; "Unnamed_2000"]%string /\
  map suburb_key
    (grouped (Str.trim (Str.toLowerCase " ")) (getAllSuburbs unnamed_second)) =
    ["Unnamed_2000"; "Ryde_2112"]%string /\
  searchSuburbs unnamed_second " " <>
    grouped (Str.trim (Str.toLowerCase " ")) (getAllSuburbs unnamed_second) /\
  (forall s, In s (getAllSuburbs unnamed_second) ->
     suburb_key s = "Ryde_2112"%string ->
     exact_match " " s || prefix_match " " s || substring_match " " s
       || postcode_match " " s = false) /\
  option_map suburb_key
    (resolveWorkplace unnamed_second (request None None None None (Some " "%string)))
    = Some "Ryde_2112"%string.
Proof.
  split; [discriminate|]. split; [reflexivity|]. split; [reflexivity|].
  split; [reflexivity|]. split; [reflexivity|].
  split; [discriminate|]. split; [|reflexivity].
  intros s [<- | [<- | []]]; [reflexivity|discriminate].
Qed.

End SearchExamples.

(* ===================================================================== *)
(** * Cache expiry                                                        *)
(* ===================================================================== *)

Section CacheExpiry.

Import Cache.

Variable Data : Type.

(** An entry no older than the time-to-live is served and stays. *)
Lemma getCached_fresh (now : Z) (key : string)
  (cache : gmap string (CachedResult Data)) (entry : CachedResult Data) :
  cache !! key = Some entry ->
  (now - timestamp entry <= CACHE_TTL_MS)%Z ->
  getCached Data now key cache = (Some (data entry), cache).
Proof.
  intros Hk Hage. unfold getCached. rewrite Hk.
  destruct (Z.gtb_spec (now - timestamp entry) CACHE_TTL_MS); [lia|reflexivity].
Qed.

Lemma getCached_absent (now : Z) (key : string)
  (cache : gmap string (CachedResult Data)) :
  cache !! key = None -> getCached Data now key cache = (None, cache).
Proof. intros Hk. unfold getCached. now rewrite Hk. Qed.

Lemma getCached_stale (now : Z) (key : string)
  (cache : gmap string (CachedResult Data)) (entry : CachedResult Data) :
  cache !! key = Some entry ->
  (now - timestamp entry > CACHE_TTL_MS)%Z ->
  getCached Data now key cache = (None, delete key cache).
Proof.
  intros Hk Hage. unfold getCached. rewrite Hk.
  destruct (Z.gtb_spec (now - timestamp entry) CACHE_TTL_MS); [reflexivity|lia].
Qed.

(** Whatever is stored, [getCached] never hands out an entry older than
    the time-to-live. *)
Lemma getCached_Some (now : Z) (key : string)
  (cache : gmap string (CachedResult Data)) (d : Data) :
  fst (getCached Data now key cache) = Some d ->
  exists entry, cache !! key = Some entry /\ data entry = d /\
                (now - timestamp entry <= CACHE_TTL_MS)%Z.
Proof.
  unfold getCached. destruct (cache !! key) as [entry|]; [|discriminate].
  destruct (Z.gtb_spec (now - timestamp entry) CACHE_TTL_MS); [discriminate|].
  cbn. intros [= <-]. exists entry. auto.
Qed.

End CacheExpiry.

(** On an expired entry [GET /api/commute] issues its transit and driving
    requests and stores the new response under the key. *)
Lemma GET_commute_refetches (cacheKey : R -> R -> R -> R -> string)
  (fromLat fromLng toLat toLng : R) (now now_store : Z)
  (transitResult : Cache.TransitResult + string)
  (drivingResult : Cache.DrivingResult + string)
  (cache : gmap string (Cache.CachedResult Cache.CommuteResponse))
  (entry : Cache.CachedResult Cache.CommuteResponse)
  (issued : list Cache.CommuteCall) :
  cache !! cacheKey fromLat fromLng toLat toLng = Some entry ->
  (now - Cache.timestamp entry > Cache.CACHE_TTL_MS)%Z ->
  let out :=
    Cache.GET_commute cacheKey fromLat fromLng toLat toLng now now_store
      transitResult drivingResult
      {| Cache.cache := cache; Cache.upstream := issued |} in
  Cache.upstream (snd out) =
    issued ++ [Cache.fetchTransit fromLat fromLng toLat toLng;
               Cache.fetchDriving fromLat fromLng toLat toLng] /\
  exists response,
    fst out = Cache.Json response /\
    Cache.cache (snd out) !! cacheKey fromLat fromLng toLat toLng =
      Some {| Cache.data := response; Cache.timestamp := now_store |}.
Proof.
  intros Hk Hage out. unfold out, Cache.GET_commute.
  cbn [Cache.cache Cache.upstream].
  rewrite (getCached_stale _ now _ cache entry Hk Hage). cbn [fst snd].
  split; [reflexivity|]. eexists. split; [reflexivity|].
  cbn [Cache.cache]. apply lookup_insert_eq.
Qed.

(** C8.  For every key and every read time, an entry whose age exceeds
    the 24-hour time-to-live (86 400 000 ms) is not returned: [getCached]
    answers [null] although the entry is stored, and deletes it from the
    map at that read, leaving the other keys alone.  The route then
    fetches afresh: [POST /api/overpass-poi] issues its upstream request
    and stores the answer under the key with the new time (or answers 500
    and stores nothing when the fetch throws).  [GET_commute_refetches]
    is the same fact for [GET /api/commute]. *)
Theorem getCached_expired (Data : Type) (now : Z) (key : string)
  (cache : gmap string (Cache.CachedResult Data))
  (entry : Cache.CachedResult Data) :
  cache !! key = Some entry ->
  (now - Cache.timestamp entry > Cache.CACHE_TTL_MS)%Z ->
  Cache.CACHE_TTL_MS = (24 * 60 * 60 * 1000)%Z /\
  Cache.getCached Data now key cache = (None, delete key cache) /\
  delete key cache !! key = None /\
  (forall k, k <> key -> delete key cache !! k = cache !! k) /\
  (forall (Call : Type) (call : Call) (now_store : Z) (answer : Data + string)
          (issued : list Call),
     let w := {| Cache.cache := cache; Cache.upstream := issued |} in
     let out := Cache.POST_overpass_poi Data call key now now_store answer w in
     Cache.upstream (snd out) = issued ++ [call] /\
     match answer with
     | inl amenities =>
         fst out = Cache.Json amenities /\
         Cache.cache (snd out) !! key =
           Some {| Cache.data := amenities; Cache.timestamp := now_store |}
     | inr message =>
         fst out = Cache.Error500 message /\
         Cache.cache (snd out) !! key = None
     end).
Proof.
  intros Hk Hage.
  pose proof (getCached_stale Data now key cache entry Hk Hage) as Hg.
  split; [reflexivity|]. split; [exact Hg|].
  split; [apply lookup_delete_eq|].
  split; [intros k Hne; apply lookup_delete_ne; congruence|].
  intros Call call now_store answer issued w out.
  unfold out, Cache.POST_overpass_poi, w. cbn [Cache.cache Cache.upstream].
  rewrite Hg. destruct answer as [amenities | message]; cbn.
  - split; [reflexivity|]. split; [reflexivity|]. apply lookup_insert_eq.
  - split; [reflexivity|]. split; [reflexivity|]. apply lookup_delete_eq.
Qed.

Lemma getCached_expired_witness :
  let entry := {| Cache.data := "stale"%string; Cache.timestamp := 1000 |} in
  let cache : gmap string (Cache.CachedResult string) := {[ "k"%string := entry ]} in
  cache !! "k"%string = Some entry /\
  (86401001 - Cache.timestamp entry > Cache.CACHE_TTL_MS)%Z /\
  Cache.getCached string 86401001 "k" cache = (None, delete "k"%string cache).
Proof.
  intros entry cache.
  assert (Hk : cache !! "k"%string = Some entry) by apply lookup_singleton_eq.
  assert (Hage : (86401001 - Cache.timestamp entry > Cache.CACHE_TTL_MS)%Z)
    by reflexivity.
  split; [exact Hk|]. split; [exact Hage|].
  exact (proj1 (proj2 (getCached_expired string 86401001 "k" cache entry Hk Hage))).
Defined.

(* ===================================================================== *)
(** * Haversine distance and the commute estimate                         *)
(* ===================================================================== *)

Section Geo.

Import Suburbs Commute.
Local Open Scope R_scope.

(** The quantity under the square roots does not depend on the order of
    the two points. *)
Lemma haversine_term_sym (lat1 lng1 lat2 lng2 : R) :
  (sin (toRad (lat2 - lat1) / 2)) ^ 2 +
    cos (toRad lat1) * cos (toRad lat2) * (sin (toRad (lng2 - lng1) / 2)) ^ 2 =
  (sin (toRad (lat1 - lat2) / 2)) ^ 2 +
    cos (toRad lat2) * cos (toRad lat1) * (sin (toRad (lng1 - lng2) / 2)) ^ 2.
Proof.
  assert (Hneg : forall x y, sin (toRad (x - y) / 2) = - sin (toRad (y - x) / 2)).
  { intros x y. rewrite <- sin_neg. f_equal. unfold toRad. field. }
  rewrite (Hneg lat2 lat1), (Hneg lng2 lng1). ring.
Qed.

Lemma atan2_0_1 : atan2 0 1 = 0.
Proof.
  unfold atan2. destruct (Rlt_dec 0 1) as [_ | H]; [|exfalso; apply H; lraR].
  replace (0 / 1) with 0 by field. apply atan_0.
Qed.

Lemma atan2_1_0 : atan2 1 0 = PI / 2.
Proof.
  unfold atan2.
  destruct (Rlt_dec 0 0) as [H | _]; [lraR|].
  destruct (Rlt_dec 0 1) as [_ | H]; [reflexivity|exfalso; apply H; lraR].
Qed.

(** C9.  [haversineKm] is symmetric in its two points and is 0 on a
    point and itself; its Earth radius is 6371 km: two antipodal points of
    the equator are [6371 * PI] km apart. *)
Theorem haversineKm_symmetric (lat1 lng1 lat2 lng2 : R) :
  haversineKm lat1 lng1 lat2 lng2 = haversineKm lat2 lng2 lat1 lng1 /\
  haversineKm lat1 lng1 lat1 lng1 = 0 /\
  haversineKm 0 0 0 180 = 6371 * PI.
Proof.
  split; [|split].
  - unfold haversineKm. cbv zeta.
    rewrite (haversine_term_sym lat1 lng1 lat2 lng2). reflexivity.
  - unfold haversineKm. cbv zeta.
    replace (toRad (lat1 - lat1) / 2) with 0 by (unfold toRad; field).
    replace (toRad (lng1 - lng1) / 2) with 0 by (unfold toRad; field).
    rewrite sin_0.
    replace (0 ^ 2 + cos (toRad lat1) * cos (toRad lat1) * 0 ^ 2) with 0 by ring.
    rewrite Rminus_0_r, sqrt_0, sqrt_1, atan2_0_1. ring.
  - unfold haversineKm. cbv zeta.
    replace (toRad (0 - 0) / 2) with 0 by (unfold toRad; field).
    replace (toRad (180 - 0) / 2) with (PI / 2) by (unfold toRad; field).
    replace (toRad 0) with 0 by (unfold toRad; field).
    rewrite sin_0, cos_0, sin_PI2.
    replace (0 ^ 2 + 1 * 1 * 1 ^ 2) with 1 by ring.
    replace (1 - 1) with 0 by ring.
    rewrite sqrt_0, sqrt_1, atan2_1_0. field.
Qed.

Variable suburbs : list (string * Suburb).

Lemma usable_coords_Some (o : option Suburb) (la lo : Q) :
  usable_coords o = Some (la, lo) <->
  exists s, o = Some s /\ lat s = Some la /\ lng s = Some lo /\
            ~ (la == 0)%Q /\ ~ (lo == 0)%Q.
Proof.
  unfold usable_coords. split.
  - destruct o as [s|]; [|discriminate].
    destruct (lat s) as [a|] eqn:Hla, (lng s) as [b|] eqn:Hlo; cbn [falsy orb];
      try discriminate;
      try (destruct (Qeq_bool a 0); discriminate).
    destruct (Qeq_bool a 0) eqn:Ea; [discriminate|].
    destruct (Qeq_bool b 0) eqn:Eb; [discriminate|].
    cbn [orb]. intros [= <- <-]. exists s.
    apply Qeq_bool_false_iff in Ea. apply Qeq_bool_false_iff in Eb. auto.
  - intros (s & -> & -> & -> & Ha & Hb). cbn [falsy].
    apply Qeq_bool_false_iff in Ha. apply Qeq_bool_false_iff in Hb.
    rewrite Ha, Hb. reflexivity.
Qed.

Lemma usable_coords_None (pc : string) :
  usable_coords (getSuburbByPostcode suburbs pc) = None <->
  ~ exists la lo, has_coordinates suburbs pc la lo.
Proof.
  split.
  - intros Hn (la & lo & H). apply usable_coords_Some in H. congruence.
  - intros Hn. destruct (usable_coords _) as [[la lo]|] eqn:E; [|reflexivity].
    exfalso. apply Hn. exists la, lo. apply usable_coords_Some. exact E.
Qed.

(** C10 (as amended).  [estimateCommuteTime] returns [null] exactly when
    one of the two postcodes does not resolve to a suburb with latitude
    and longitude both given and non-zero.  Otherwise it returns an
    estimate of at least 5 minutes: distance 0 and 5 minutes when the two
    postcodes are equal, and else [max (5, round (dist * 2.5))] minutes
    and distance [round (dist * 10) / 10], where [dist] is the haversine
    distance between the two suburbs. *)
Theorem estimateCommuteTime_spec (fromPostcode toPostcode : string) :
  (estimateCommuteTime suburbs fromPostcode toPostcode = None <->
   (~ exists la lo, has_coordinates suburbs fromPostcode la lo) \/
   (~ exists la lo, has_coordinates suburbs toPostcode la lo)) /\
  (forall e, estimateCommuteTime suburbs fromPostcode toPostcode = Some e ->
             (5 <= estimatedMinutes e)%Z) /\
  (forall fromLat fromLng toLat toLng,
     has_coordinates suburbs fromPostcode fromLat fromLng ->
     has_coordinates suburbs toPostcode toLat toLng ->
     exists e,
       estimateCommuteTime suburbs fromPostcode toPostcode = Some e /\
       (fromPostcode = toPostcode ->
        distanceKm e = 0 /\ estimatedMinutes e = 5%Z) /\
       (fromPostcode <> toPostcode ->
        let dist :=
          haversineKm (Q2R fromLat) (Q2R fromLng) (Q2R toLat) (Q2R toLng) in
        estimatedMinutes e = Z.max 5 (Rround (dist * 2.5)) /\
        distanceKm e = IZR (Rround (dist * 10)) / 10)).
Proof.
  split; [|split].
  - rewrite <- !usable_coords_None. unfold estimateCommuteTime.
    destruct (usable_coords (getSuburbByPostcode suburbs fromPostcode))
      as [[fla flo]|]; [|tauto].
    destruct (usable_coords (getSuburbByPostcode suburbs toPostcode))
      as [[tla tlo]|]; [|tauto].
    destruct (String.eqb fromPostcode toPostcode);
      (split; [discriminate|intros [H | H]; discriminate H]).
  - intros e. unfold estimateCommuteTime.
    destruct (usable_coords _) as [[fla flo]|]; [|discriminate].
    destruct (usable_coords _) as [[tla tlo]|]; [|discriminate].
    destruct (String.eqb fromPostcode toPostcode); intros [= <-]; cbn; lia.
  - intros fla flo tla tlo Hf Ht.
    apply usable_coords_Some in Hf. apply usable_coords_Some in Ht.
    unfold estimateCommuteTime. rewrite Hf, Ht.
    destruct (String.eqb_spec fromPostcode toPostcode) as [E | E];
      eexists; (split; [reflexivity|]); cbn; split; intros H;
      try contradiction; auto.
Qed.

End Geo.

Section GeoExamples.

Import Suburbs Commute Examples.
Local Open Scope Q_scope.

Lemma estimateCommuteTime_spec_witness :
  has_coordinates sydney_parramatta "2000" (-33.87) 151.21 /\
  has_coordinates sydney_parramatta "2150" (-33.81) 151.00 /\
  exists e,
    estimateCommuteTime sydney_parramatta "2000" "2150" = Some e /\
    (5 <= estimatedMinutes e)%Z.
Proof.
  assert (H1 : has_coordinates sydney_parramatta "2000" (-33.87) 151.21).
  { eexists. split; [reflexivity|]. repeat split; discriminate. }
  assert (H2 : has_coordinates sydney_parramatta "2150" (-33.81) 151.00).
  { eexists. split; [reflexivity|]. repeat split; discriminate. }
  split; [exact H1|]. split; [exact H2|].
  destruct (proj2 (proj2 (estimateCommuteTime_spec sydney_parramatta "2000" "2150"))
              _ _ _ _ H1 H2) as (e & He & _).
  exists e. split; [exact He|].
  exact (proj1 (proj2 (estimateCommuteTime_spec sydney_parramatta "2000" "2150")) e He).
Defined.

(** C10, counterexample.  Both postcodes resolve to suburbs whose
    latitude and longitude are known, one of them with latitude 0;
    [estimateCommuteTime] returns [null], in both directions and from the
    postcode to itself. *)
Lemma estimateCommuteTime_zero_latitude :
  (exists s1 s2,
     getSuburbByPostcode equator_and_sydney "0001" = Some s1 /\
     getSuburbByPostcode equator_and_sydney "2000" = Some s2 /\
     lat s1 = Some 0 /\ lng s1 = Some 151.21 /\
     lat s2 = Some (-33.87) /\ lng s2 = Some 151.21) /\
  estimateCommuteTime equator_and_sydney "0001" "2000" = None /\
  estimateCommuteTime equator_and_sydney "2000" "0001" = None /\
  estimateCommuteTime equator_and_sydney "0001" "0001" = None.
Proof.
  split; [do 2 eexists; repeat split|].
  repeat split; reflexivity.
Qed.

End GeoExamples.

(* ===================================================================== *)
(** * Further properties: rent stress                                     *)
(* ===================================================================== *)

Section RentStressOrder.

Import Suburbs.
Local Open Scope Q_scope.

Lemma round_monotone (x y : Q) : x <= y -> (round x <= round y)%Z.
Proof.
  intros H. unfold round. apply Qfloor_resp_le. lraQ.
Qed.

Lemma getRentStressRating_monotone (p q : Q) :
  p <= q ->
  (severity (getRentStressRating (Fin p)) <= severity (getRentStressRating (Fin q)))%nat.
Proof.
  intros Hpq.
  pose proof (getRentStressRating_Fin p) as (P1 & P2 & P3 & P4).
  pose proof (getRentStressRating_Fin q) as (Q1 & Q2 & Q3 & Q4).
  destruct (getRentStressRating (Fin p)) eqn:Ep;
    destruct (getRentStressRating (Fin q)) eqn:Eq; cbn; try lia; exfalso;
    repeat match goal with
           | H : ?a = ?a <-> _ |- _ => apply proj1 in H; specialize (H eq_refl)
           | H : _ <-> _ |- _ => clear H
           end;
    lraQ.
Qed.

(** X1.  For a fixed positive income a higher rent never gives a lower
    rent-stress percentage nor a better rating, and for a fixed
    non-negative rent a higher income never gives a higher percentage nor
    a worse rating. *)
Theorem calculateRentStress_monotone (income income' rent rent' : Q) :
  0 < income -> income <= income' -> 0 <= rent -> rent <= rent' ->
  nle (percentage (calculateRentStress (Fin income) (Fin rent)))
      (percentage (calculateRentStress (Fin income) (Fin rent'))) = true /\
  (severity (rating (calculateRentStress (Fin income) (Fin rent))) <=
   severity (rating (calculateRentStress (Fin income) (Fin rent'))))%nat /\
  nle (percentage (calculateRentStress (Fin income') (Fin rent)))
      (percentage (calculateRentStress (Fin income) (Fin rent))) = true /\
  (severity (rating (calculateRentStress (Fin income') (Fin rent))) <=
   severity (rating (calculateRentStress (Fin income) (Fin rent))))%nat.
Proof.
  intros Hi Hii Hr Hrr.
  assert (Hi' : 0 < income') by lraQ.
  rewrite !calculateRentStress_Fin by assumption. cbv zeta.
  cbn [percentage rating].
  assert (Hinv : 0 < / income) by (apply Qinv_lt_0_compat; exact Hi).
  assert (H1 : rent / income * 1000 <= rent' / income * 1000).
  { unfold Qdiv. apply Qmult_le_compat_r; [|discriminate].
    apply Qmult_le_compat_r; [exact Hrr|]. lraQ. }
  assert (H2 : rent / income' * 1000 <= rent / income * 1000).
  { unfold Qdiv. apply Qmult_le_compat_r; [|discriminate].
    rewrite (Qmult_comm rent (/ income')), (Qmult_comm rent (/ income)).
    apply Qmult_le_compat_r; [|exact Hr].
    apply Qle_shift_inv_l; [exact Hi|].
    rewrite Qmult_comm. apply Qle_shift_div_r; [exact Hi'|]. lraQ. }
  assert (M : forall x y, x <= y ->
                inject_Z (round x) / 10 <= inject_Z (round y) / 10).
  { intros x y Hxy. apply round_monotone in Hxy. rewrite Zle_Qle in Hxy.
    unfold Qdiv. apply Qmult_le_compat_r; [exact Hxy|discriminate]. }
  repeat split.
  - apply nle_Fin, M, H1.
  - apply getRentStressRating_monotone, M, H1.
  - apply nle_Fin, M, H2.
  - apply getRentStressRating_monotone, M, H2.
Qed.

Lemma calculateRentStress_monotone_witness :
  0 < 1200 /\ 1200 <= 1500 /\ 0 <= 400 /\ 400 <= 450 /\
  nle (percentage (calculateRentStress (Fin 1200) (Fin 400)))
      (percentage (calculateRentStress (Fin 1200) (Fin 450))) = true.
Proof.
  assert (H1 : 0 < 1200) by reflexivity.
  assert (H2 : 1200 <= 1500) by discriminate.
  assert (H3 : 0 <= 400) by discriminate.
  assert (H4 : 400 <= 450) by discriminate.
  repeat (split; [assumption|]).
  exact (proj1 (calculateRentStress_monotone 1200 1500 400 450 H1 H2 H3 H4)).
Defined.

(** X2.  The percentage exceeds 100 only when the rent exceeds the income:
    with a positive income, a rent up to the income gives at most 100, and
    a percentage above 100 means a rent above 1.0005 times the income. *)
Theorem calculateRentStress_above_100 (income rent : Q) :
  0 < income ->
  (rent <= income ->
   nle (percentage (calculateRentStress (Fin income) (Fin rent))) (Fin 100) = true) /\
  (ngt (percentage (calculateRentStress (Fin income) (Fin rent))) (Fin 100) = true ->
   income * (10005 # 10000) <= rent).
Proof.
  intros Hi. rewrite calculateRentStress_percentage by exact Hi.
  pose proof (round_spec (rent / income * 1000)) as [Hlo Hhi].
  set (k := round (rent / income * 1000)) in *.
  assert (Ex : rent / income * 1000 * income == rent * 1000).
  { field. intros E. rewrite E in Hi. discriminate. }
  split.
  - intros Hle. apply nle_Fin.
    assert (Hx : rent / income * 1000 <= 1000).
    { apply Qmult_le_r with (z := income); [exact Hi|]. rewrite Ex. lraQ. }
    assert (Hk : (k <= 1000)%Z).
    { apply Z.lt_succ_r. rewrite Zlt_Qlt.
      replace (inject_Z (Z.succ 1000)) with 1001 by reflexivity. lraQ. }
    rewrite Zle_Qle in Hk. change (inject_Z 1000) with 1000 in Hk.
    unfold Qdiv. change (/ 10) with (1 # 10). lraQ.
  - intros Hgt. apply (nlt_Fin 100 _) in Hgt.
    unfold Qdiv in Hgt. change (/ 10) with (1 # 10) in Hgt.
    assert (Hk : (1000 < k)%Z).
    { rewrite Zlt_Qlt. change (inject_Z 1000) with 1000. lraQ. }
    assert (Hk' : 1001 <= inject_Z k).
    { change 1001 with (inject_Z 1001). rewrite <- Zle_Qle. lia. }
    assert (Hx : (2001 # 2) <= rent / income * 1000) by lraQ.
    apply Qmult_le_compat_r with (z := income) in Hx; [|lraQ].
    rewrite Ex in Hx. lraQ.
Qed.

Lemma calculateRentStress_above_100_witness :
  0 < 1000 /\ 1000 <= 1000 /\
  nle (percentage (calculateRentStress (Fin 1000) (Fin 1000))) (Fin 100) = true.
Proof.
  split; [reflexivity|]. split; [discriminate|].
  apply (proj1 (calculateRentStress_above_100 1000 1000 eq_refl)). discriminate.
Defined.

End RentStressOrder.

(* ===================================================================== *)
(** * Further properties: lookup and search                               *)
(* ===================================================================== *)

Section Lookup.

Import Suburbs.

Variable dataset : list (string * Suburb).

Lemma getSuburbByKey_Some (key : string) (s : Suburb) :
  getSuburbByKey dataset key = Some s -> In (key, s) dataset.
Proof.
  unfold getSuburbByKey. destruct (find _ dataset) as [[k s']|] eqn:E; [|discriminate].
  cbn. intros [= <-]. apply find_some in E. destruct E as [Hin Hk].
  cbn in Hk. apply String.eqb_eq in Hk. now subst.
Qed.

Lemma getSuburbByKey_None (key : string) :
  getSuburbByKey dataset key = None <-> forall k s, In (k, s) dataset -> k <> key.
Proof.
  unfold getSuburbByKey. split.
  - destruct (find _ dataset) eqn:E; [discriminate|]. intros _ k s Hin Hk.
    apply (find_none _ _ E) in Hin. cbn in Hin. apply String.eqb_neq in Hin.
    contradiction.
  - intros H. destruct (find _ dataset) as [[k s]|] eqn:E; [|reflexivity].
    apply find_some in E. destruct E as [Hin Hk]. cbn in Hk.
    apply String.eqb_eq in Hk. exfalso. exact (H k s Hin Hk).
Qed.

Lemma In_getAllSuburbs (s : Suburb) :
  In s (getAllSuburbs dataset) <-> exists k, In (k, s) dataset.
Proof.
  unfold getAllSuburbs. rewrite in_map_iff. split.
  - intros ([k s'] & <- & Hin). exists k. exact Hin.
  - intros [k Hin]. exists (k, s). auto.
Qed.

(** A read finds the record under the key, or else the inherited value,
    or else nothing. *)
Lemma read_cases {A} (obj : list (string * A)) (key : string) :
  (exists a, In (key, a) obj /\ Lookup.read obj key = Some (Lookup.Own a)) \/
  ((forall k a, In (k, a) obj -> k <> key) /\
   Lookup.read obj key =
     if Lookup.inherited key then Some (Lookup.Inherited key) else None).
Proof.
  unfold Lookup.read.
  destruct (find _ obj) as [[k a]|] eqn:E.
  - left. apply find_some in E as [Hin Hk]. cbn in Hk.
    apply String.eqb_eq in Hk. subst k. exists a. auto.
  - right. split; [|reflexivity]. intros k a Hin Hk.
    apply (find_none _ _ E) in Hin. cbn in Hin.
    apply String.eqb_neq in Hin. contradiction.
Qed.

(** Outside the inherited names the lookups are those of [Suburbs]. *)
Lemma Lookup_getSuburbByKey (key : string) :
  Lookup.inherited key = false ->
  Lookup.getSuburbByKey dataset key =
  option_map Lookup.Own (getSuburbByKey dataset key).
Proof.
  intros Hi. unfold Lookup.getSuburbByKey, Lookup.read, getSuburbByKey.
  destruct (find _ dataset); [reflexivity|]. now rewrite Hi.
Qed.

Lemma Lookup_getSuburbByPostcode (pc : string) :
  Lookup.inherited pc = false ->
  Lookup.getSuburbByPostcode dataset pc =
  option_map Lookup.Own (getSuburbByPostcode dataset pc).
Proof.
  intros Hi. unfold Lookup.getSuburbByPostcode, Lookup.read,
    getSuburbByPostcode, getSuburbByKey.
  destruct (find _ dataset); [reflexivity|]. rewrite Hi. reflexivity.
Qed.

(** X3.  [getSuburbByPostcode] returns the record the dataset has under the
    text as key; when there is no such key and the text is a name every
    object inherits, it returns the inherited value; otherwise it returns
    the first record with the text as postcode.  It returns nothing exactly
    when the text is no inherited name and no record has it as key or
    postcode.  Outside the inherited names it is the lookup of
    [Suburbs]. *)
Theorem getSuburbByPostcode_spec (pc : string) :
  (forall s, Lookup.getSuburbByPostcode dataset pc = Some (Lookup.Own s) ->
     In (pc, s) dataset \/
     ((forall k s', In (k, s') dataset -> k <> pc) /\
      Lookup.inherited pc = false /\
      In s (getAllSuburbs dataset) /\ postcode s = pc)) /\
  (forall n, Lookup.getSuburbByPostcode dataset pc = Some (Lookup.Inherited n) <->
     n = pc /\ Lookup.inherited pc = true /\
     forall k s, In (k, s) dataset -> k <> pc) /\
  (Lookup.getSuburbByPostcode dataset pc = None <->
   Lookup.inherited pc = false /\
   forall k s, In (k, s) dataset -> k <> pc /\ postcode s <> pc) /\
  (Lookup.inherited pc = false ->
   Lookup.getSuburbByPostcode dataset pc =
   option_map Lookup.Own (getSuburbByPostcode dataset pc)) /\
  Lookup.getSuburbByPostcode [] "constructor" =
    Some (Lookup.Inherited "constructor").
Proof.
  split; [|split; [|split; [|split; [apply Lookup_getSuburbByPostcode|reflexivity]]]].
  - intros s. unfold Lookup.getSuburbByPostcode.
    destruct (read_cases dataset pc) as [(a & Hin & ->)|[Hno ->]].
    + intros [= <-]. left. exact Hin.
    + destruct (Lookup.inherited pc); [discriminate|].
      destruct (find _ (getAllSuburbs dataset)) as [s'|] eqn:Ef; [|discriminate].
      cbn [option_map]. intros [= <-]. right.
      apply find_some in Ef as [Hin Hp]. apply String.eqb_eq in Hp. auto.
  - intros n. unfold Lookup.getSuburbByPostcode.
    destruct (read_cases dataset pc) as [(a & Hin & ->)|[Hno ->]].
    + split; [discriminate|]. intros (_ & _ & H). exfalso. exact (H pc a Hin eq_refl).
    + destruct (Lookup.inherited pc).
      * split; [intros [= <-]; auto|]. intros (-> & _ & _). reflexivity.
      * destruct (find _ (getAllSuburbs dataset)); cbn [option_map];
          (split; [discriminate|]); intros (_ & H & _); discriminate.
  - unfold Lookup.getSuburbByPostcode.
    destruct (read_cases dataset pc) as [(a & Hin & ->)|[Hno ->]].
    + split; [discriminate|]. intros (_ & H). exfalso.
      exact (proj1 (H pc a Hin) eq_refl).
    + destruct (Lookup.inherited pc).
      * split; [discriminate|]. intros (H & _). discriminate.
      * destruct (find _ (getAllSuburbs dataset)) as [s|] eqn:Ef; cbn [option_map].
        -- split; [discriminate|]. intros (_ & H). exfalso.
           apply find_some in Ef as [Hin Hp]. apply String.eqb_eq in Hp.
           apply In_getAllSuburbs in Hin as [k Hin].
           exact (proj2 (H k s Hin) Hp).
        -- split; [|reflexivity]. intros _. split; [reflexivity|].
           intros k s Hin. split; [exact (Hno k s Hin)|].
           assert (Hs : In s (getAllSuburbs dataset))
             by (apply In_getAllSuburbs; eauto).
           apply (find_none _ _ Ef) in Hs. apply String.eqb_neq. exact Hs.
Qed.

Lemma find_hd_filter {X} (f : X -> bool) (l : list X) :
  find f l = List.hd_error (List.filter f l).
Proof.
  induction l as [|x l IH]; cbn; [reflexivity|].
  destruct (f x); [reflexivity|exact IH].
Qed.

(** X4.  [getSuburbsByPostcode] returns exactly the records with the postcode,
    in dataset order.  When no record has the text as its key,
    [getSuburbByPostcode] returns the first of them, unless the text is a
    name every object inherits: then it returns the inherited value,
    whatever [getSuburbsByPostcode] lists. *)
Theorem getSuburbsByPostcode_spec (pc : string) :
  (forall s, In s (getSuburbsByPostcode dataset pc) <->
             In s (getAllSuburbs dataset) /\ postcode s = pc) /\
  ((forall k s, In (k, s) dataset -> k <> pc) ->
   Lookup.getSuburbByPostcode dataset pc =
   if Lookup.inherited pc then Some (Lookup.Inherited pc)
   else option_map Lookup.Own (List.hd_error (getSuburbsByPostcode dataset pc))).
Proof.
  split.
  - intros s. unfold getSuburbsByPostcode. rewrite filter_In.
    now rewrite String.eqb_eq.
  - intros Hk. unfold Lookup.getSuburbByPostcode, getSuburbsByPostcode.
    destruct (read_cases dataset pc) as [(a & Hin & _)|[_ ->]].
    + exfalso. exact (Hk pc a Hin eq_refl).
    + destruct (Lookup.inherited pc); [reflexivity|].
      now rewrite find_hd_filter.
Qed.

End Lookup.

Section SearchComplete.

Import Suburbs.

Lemma prefix_refl (s : string) : String.prefix s s = true.
Proof.
  induction s as [|a s IH]; cbn; [reflexivity|].
  destruct (ascii_dec a a); [exact IH|contradiction].
Qed.

Lemma prefix_includes (s q : string) :
  String.prefix q s = true -> Str.includes s q = true.
Proof.
  intros H. destruct s; cbn [Str.includes]; rewrite H; reflexivity.
Qed.

Lemma Permutation_insert_second {X} (a b c d : list X) (x : X) :
  Permutation (x :: a ++ b ++ c ++ d) (a ++ (x :: b) ++ c ++ d).
Proof. cbn [app]. apply Permutation_middle. Qed.

Lemma Permutation_insert_third {X} (a b c d : list X) (x : X) :
  Permutation (x :: a ++ b ++ c ++ d) (a ++ b ++ (x :: c) ++ d).
Proof.
  cbn [app]. etransitivity; [apply Permutation_middle|].
  apply Permutation_app_head. apply Permutation_middle.
Qed.

Lemma Permutation_insert_fourth {X} (a b c d : list X) (x : X) :
  Permutation (x :: a ++ b ++ c ++ d) (a ++ b ++ c ++ x :: d).
Proof.
  etransitivity; [apply Permutation_middle|]. apply Permutation_app_head.
  etransitivity; [apply Permutation_middle|]. apply Permutation_app_head.
  apply Permutation_middle.
Qed.

(** The four groups together are the matching suburbs, each once. *)
Lemma grouped_Permutation (q : string) (l : list Suburb) :
  Permutation (grouped q l) (List.filter (matches q) l).
Proof.
  unfold grouped. induction l as [|s l IH]; cbn [List.filter app]; [reflexivity|].
  unfold matches at 1, exact_match at 1, prefix_match at 1,
    substring_match at 1, postcode_match at 1, exact_match, Str.startsWith.
  destruct (String.eqb (lowerName s) q) eqn:Ee.
  - apply String.eqb_eq in Ee.
    assert (Hp : String.prefix q (lowerName s) = true)
      by (rewrite Ee; apply prefix_refl).
    rewrite (prefix_includes _ _ Hp). cbn [negb andb orb app].
    now constructor.
  - cbn [negb andb].
    destruct (String.prefix q (lowerName s)) eqn:Ep.
    + rewrite (prefix_includes _ _ Ep). cbn [negb andb orb].
      rewrite <- IH. symmetry. apply Permutation_insert_second.
    + cbn [negb andb].
      destruct (Str.includes (lowerName s) q) eqn:Ei; cbn [negb andb orb].
      * rewrite <- IH. symmetry. apply Permutation_insert_third.
      * destruct (String.prefix q (postcode s)) eqn:Epc.
        -- rewrite <- IH. symmetry. apply Permutation_insert_fourth.
        -- exact IH.
Qed.

Variable dataset : list (string * Suburb).

(** X5.  For a query that is not blank, [searchSuburbs] returns exactly the
    suburbs whose lower-cased name contains the normalised query or whose
    postcode starts with it, each as often as the dataset has it; a blank
    query returns the whole dataset. *)
Theorem searchSuburbs_complete (query : string) :
  let q := Str.trim (Str.toLowerCase query) in
  (q <> EmptyString ->
   (forall s, In s (searchSuburbs dataset query) <->
              In s (getAllSuburbs dataset) /\ matches q s = true) /\
   Permutation (searchSuburbs dataset query)
     (List.filter (matches q) (getAllSuburbs dataset)) /\
   (length (searchSuburbs dataset query) <= length dataset)%nat) /\
  (q = EmptyString -> searchSuburbs dataset query = getAllSuburbs dataset).
Proof.
  intros q. split.
  - intros Hq.
    assert (HP : Permutation (searchSuburbs dataset query)
                   (List.filter (matches q) (getAllSuburbs dataset))).
    { rewrite (searchSuburbs_grouped dataset query Hq). apply grouped_Permutation. }
    split; [|split; [exact HP|]].
    + intros s. rewrite <- filter_In. split; apply Permutation_in;
        [exact HP|symmetry; exact HP].
    + rewrite (Permutation_length HP).
      etransitivity; [apply filter_length_le|].
      unfold getAllSuburbs. now rewrite length_map.
  - intros Hq. unfold searchSuburbs. fold q. rewrite Hq. reflexivity.
Qed.

End SearchComplete.

Lemma searchSuburbs_complete_witness :
  Str.trim (Str.toLowerCase " Bondi") <> EmptyString /\
  (length (Suburbs.searchSuburbs Examples.bondi_suburbs " Bondi") <= 3)%nat.
Proof.
  assert (Hq : Str.trim (Str.toLowerCase " Bondi") <> EmptyString)
    by discriminate.
  split; [exact Hq|].
  exact (proj2 (proj2 (proj1 (searchSuburbs_complete Examples.bondi_suburbs " Bondi") Hq))).
Defined.

(* ===================================================================== *)
(** * Further properties: the Sydney-wide median                          *)
(* ===================================================================== *)

Section Median.

Import Suburbs Recommend Medians.
Local Open Scope Q_scope.

Lemma filter_length_Permutation {X} (p : X -> bool) (l l' : list X) :
  Permutation l l' -> length (List.filter p l) = length (List.filter p l').
Proof.
  induction 1 as [|x l l' _ IH|x y l|l l' l'' _ IH1 _ IH2]; cbn.
  - reflexivity.
  - destruct (p x); cbn; now rewrite IH.
  - destruct (p x), (p y); reflexivity.
  - now rewrite IH1.
Qed.

Lemma filter_length_Forall {X} (p : X -> bool) (l : list X) :
  Forall (fun x => p x = true) l -> length (List.filter p l) = length l.
Proof.
  induction 1 as [|x l Hx _ IH]; cbn; [reflexivity|].
  rewrite Hx. cbn. now rewrite IH.
Qed.

Lemma filter_length_firstn {X} (p : X -> bool) (m : nat) (l : list X) :
  Forall (fun x => p x = true) (firstn m l) ->
  (length (firstn m l) <= length (List.filter p l))%nat.
Proof.
  intros H. rewrite <- (firstn_skipn m l) at 2.
  rewrite List.filter_app, length_app, (filter_length_Forall p _ H). lia.
Qed.

Lemma filter_length_skipn {X} (p : X -> bool) (m : nat) (l : list X) :
  Forall (fun x => p x = true) (skipn m l) ->
  (length (skipn m l) <= length (List.filter p l))%nat.
Proof.
  intros H. rewrite <- (firstn_skipn m l) at 2.
  rewrite List.filter_app, length_app, (filter_length_Forall p _ H). lia.
Qed.

(** In a sorted list the element at an index bounds the ones before it
    and is bounded by the ones after it. *)
Lemma sorted_nth_bounds {X} (R : X -> X -> Prop) (vs : list X) :
  (forall x, R x x) -> StronglySorted R vs ->
  forall (k : nat) (v : X),
    nth_error vs k = Some v ->
    Forall (fun x => R x v) (firstn (S k) vs) /\ Forall (R v) (skipn k vs).
Proof.
  intros Hrefl Hs. induction Hs as [|x l Hs IH Hx]; intros k v Hk.
  - destruct k; discriminate.
  - destruct k as [|k].
    + cbn in Hk. injection Hk as <-. cbn [firstn skipn]. split.
      * constructor; [apply Hrefl|]. destruct l; constructor.
      * constructor; [apply Hrefl|exact Hx].
    + cbn in Hk. destruct (IH k v Hk) as [H1 H2]. split.
      * change (firstn (S (S k)) (x :: l)) with (x :: firstn (S k) l).
        constructor; [|exact H1].
        rewrite List.Forall_forall in Hx. apply Hx. eapply nth_error_In, Hk.
      * exact H2.
Qed.

Lemma ascending_sorted (l : list Q) :
  StronglySorted Qle (Array_sort ascending l).
Proof.
  assert (Hs : Sorted (key_le Fin) (Array_sort (by_key Fin) l)).
  { apply Array_sort_Sorted. apply List.Forall_forall. intros x _. now exists x. }
  apply Sorted_StronglySorted in Hs; [|intros a b c; apply key_le_trans].
  change (Array_sort (by_key Fin) l) with (Array_sort ascending l) in Hs.
  induction Hs as [|x l' Hs IH Hx]; constructor; [exact IH|].
  eapply List.Forall_impl; [|exact Hx]. intros y Hy. apply nle_Fin. exact Hy.
Qed.

Variable suburbs : list (string * Suburb).

(** X6.  [sydneyMedianRent] is 0 when no suburb has the figure.  Otherwise it
    is one of the figures, the upper median: of [n] figures at least
    [n/2 + 1] (rounded down) are at most it and at least [n - n/2] are at
    least it. *)
Theorem sydneyMedianRent_spec (field : RentField) :
  let figures := numbers (map (fun s => get s field) (getAllSuburbs suburbs)) in
  let n := length figures in
  (figures = [] -> sydneyMedianRent suburbs field = Fin 0) /\
  (figures <> [] ->
   exists v,
     sydneyMedianRent suburbs field = Fin v /\ In v figures /\
     (Nat.div n 2 + 1 <= length (List.filter (fun x => Qle_bool x v) figures))%nat /\
     (n - Nat.div n 2 <= length (List.filter (fun x => Qle_bool v x) figures))%nat).
Proof.
  intros figures n. unfold sydneyMedianRent. fold figures.
  pose proof (Array_sort_Permutation ascending figures) as HP.
  pose proof (ascending_sorted figures) as Hs.
  set (values := Array_sort ascending figures) in *.
  assert (Hlen : length values = n) by (apply Permutation_length, HP).
  rewrite Hlen. split.
  - intros E. unfold values. rewrite E.
    change (Array_sort ascending []) with (@nil Q).
    now destruct (Nat.div n 2).
  - intros Hne.
    assert (Hn : (0 < n)%nat).
    { unfold n. destruct figures; [contradiction|cbn; lia]. }
    assert (Hk : (Nat.div n 2 < n)%nat) by (apply Nat.div_lt; lia).
    destruct (nth_error values (Nat.div n 2)) as [v|] eqn:Ev.
    2:{ apply nth_error_None in Ev. lia. }
    exists v. split; [reflexivity|]. split.
    { apply (Permutation_in _ HP). eapply nth_error_In, Ev. }
    destruct (sorted_nth_bounds Qle values Qle_refl Hs _ _ Ev) as [H1 H2].
    split.
    + rewrite <- (filter_length_Permutation _ _ _ HP).
      etransitivity; [|apply (filter_length_firstn _ (S (Nat.div n 2)))].
      * rewrite length_firstn. lia.
      * eapply List.Forall_impl; [|exact H1]. intros x Hx. apply Qle_bool_iff, Hx.
    + rewrite <- (filter_length_Permutation _ _ _ HP).
      etransitivity; [|apply (filter_length_skipn _ (Nat.div n 2))].
      * rewrite length_skipn. lia.
      * eapply List.Forall_impl; [|exact H2]. intros x Hx. apply Qle_bool_iff, Hx.
Qed.

End Median.

(* ===================================================================== *)
(** * Further properties: stations and commute estimates                  *)
(* ===================================================================== *)

Section StationFacts.

Import Suburbs Commute Stations.
Local Open Scope R_scope.

Lemma Rround_0 : Rround 0 = 0%Z.
Proof.
  unfold Rround. symmetry. apply Int_part_spec. cbn. lraR.
Qed.

Lemma haversineKm_self (la lo : R) : haversineKm la lo la lo = 0.
Proof.
  unfold haversineKm. cbv zeta.
  replace (toRad (la - la) / 2) with 0 by (unfold toRad; field).
  replace (toRad (lo - lo) / 2) with 0 by (unfold toRad; field).
  rewrite sin_0.
  replace (0 ^ 2 + cos (toRad la) * cos (toRad la) * 0 ^ 2) with 0 by ring.
  rewrite Rminus_0_r, sqrt_0, sqrt_1, atan2_0_1. ring.
Qed.

Lemma atan2_quadrant (y x : R) :
  0 <= y -> 0 <= x -> 0 <= atan2 y x <= PI / 2.
Proof.
  intros Hy Hx. pose proof PI_RGT_0 as Hpi. unfold atan2.
  destruct (Rlt_dec 0 x) as [Hpos|Hnpos].
  - pose proof (atan_bound (y / x)) as [_ Hub]. split; [|lraR].
    destruct (Req_dec y 0) as [->|Hy0].
    + replace (0 / x) with 0 by (field; lraR). rewrite atan_0. lraR.
    + rewrite <- atan_0. left. apply atan_increasing.
      apply Rdiv_lt_0_compat; lraR.
  - destruct (Rlt_dec x 0) as [Hneg|_]; [lraR|].
    destruct (Rlt_dec 0 y) as [_|_]; [lraR|].
    destruct (Rlt_dec y 0) as [Hyneg|_]; lraR.
Qed.

(** X7.  [haversineKm] is never negative and never more than half the
    circumference of its sphere, [6371 * PI] km. *)
Theorem haversineKm_range (lat1 lng1 lat2 lng2 : R) :
  0 <= haversineKm lat1 lng1 lat2 lng2 <= 6371 * PI.
Proof.
  unfold haversineKm. cbv zeta.
  match goal with
  | |- _ <= _ * _ * atan2 ?y ?x <= _ =>
      pose proof (atan2_quadrant y x (sqrt_pos _) (sqrt_pos _)) as [H1 H2]
  end.
  lraR.
Qed.

Variable suburbs : list (string * Suburb).
Variable stations : list TrainStation.

Lemma nearest_fold (la lo : R) (l : list TrainStation) :
  forall (seen : list TrainStation) (b : TrainStation),
    In b seen ->
    (forall s, In s seen -> distance_to la lo b <= distance_to la lo s) ->
    exists b',
      fold_left (nearest_step la lo) l (b, Some (distance_to la lo b)) =
        (b', Some (distance_to la lo b')) /\
      In b' (seen ++ l) /\
      (forall s, In s (seen ++ l) -> distance_to la lo b' <= distance_to la lo s).
Proof.
  induction l as [|s l IH]; intros seen b Hb Hmin.
  - exists b. rewrite app_nil_r. auto.
  - cbn [fold_left]. unfold nearest_step at 2. cbn [snd].
    fold (distance_to la lo s).
    replace (seen ++ s :: l) with ((seen ++ [s]) ++ l)
      by (rewrite <- app_assoc; reflexivity).
    destruct (Rlt_dec (distance_to la lo s) (distance_to la lo b)) as [Hlt|Hge].
    + apply IH.
      * apply in_or_app. right. left. reflexivity.
      * intros t Ht. apply in_app_or in Ht as [Ht|[<-|[]]].
        -- specialize (Hmin t Ht). lraR.
        -- lraR.
    + apply IH.
      * apply in_or_app. left. exact Hb.
      * intros t Ht. apply in_app_or in Ht as [Ht|[<-|[]]].
        -- apply Hmin, Ht.
        -- lraR.
Qed.

(** X8.  [getNearestStation] returns [null] only for an empty station list.
    Otherwise the station it returns is one of the list, no station of the
    list is nearer to the point, and the distance it reports is that
    station's distance rounded to one decimal. *)
Theorem getNearestStation_spec (la lo : R) :
  (stations = [] -> getNearestStation stations la lo = None) /\
  (stations <> [] ->
   exists r,
     getNearestStation stations la lo = Some r /\
     In (station r) stations /\
     (forall s, In s stations ->
                distance_to la lo (station r) <= distance_to la lo s) /\
     station_distanceKm r =
       IZR (Rround (distance_to la lo (station r) * 10)) / 10).
Proof.
  split.
  - intros ->. reflexivity.
  - intros Hne. unfold getNearestStation.
    destruct stations as [|s0 l]; [contradiction|].
    cbn [fold_left]. unfold nearest_step at 2. cbn [snd].
    fold (distance_to la lo s0).
    destruct (nearest_fold la lo l [s0] s0) as (b & E & Hin & Hmin).
    + left. reflexivity.
    + intros s [<-|[]]. lraR.
    + rewrite E. eexists. split; [reflexivity|]. cbn [station station_distanceKm].
      auto.
Qed.

End StationFacts.

Section RealSort.

Import Stations.
Local Open Scope R_scope.

Context {A : Type}.

Lemma insert_real_Permutation (cmp : A -> A -> R) (x : A) (l : list A) :
  Permutation (insert_real cmp x l) (x :: l).
Proof.
  induction l as [|y l IH]; cbn [insert_real]; [reflexivity|].
  destruct (Rlt_dec 0 (cmp x y)); [|reflexivity].
  rewrite IH. apply perm_swap.
Qed.

Lemma Array_sort_real_Permutation (cmp : A -> A -> R) (l : list A) :
  Permutation (Array_sort_real cmp l) l.
Proof.
  induction l as [|x l IH]; cbn; [reflexivity|].
  fold (Array_sort_real cmp l). rewrite insert_real_Permutation. now constructor.
Qed.

Variable key : A -> R.

Lemma insert_real_HdRel (x y : A) (l : list A) :
  key y <= key x -> HdRel (fun a b => key a <= key b) y l ->
  HdRel (fun a b => key a <= key b) y (insert_real (fun a b => key a - key b) x l).
Proof.
  intros Hyx Hhd. destruct l as [|z l]; cbn [insert_real].
  - now constructor.
  - destruct (Rlt_dec 0 (key x - key z)); constructor; [|exact Hyx].
    now inversion Hhd.
Qed.

Lemma insert_real_Sorted (x : A) (l : list A) :
  Sorted (fun a b => key a <= key b) l ->
  Sorted (fun a b => key a <= key b) (insert_real (fun a b => key a - key b) x l).
Proof.
  intros Hs. induction l as [|y l IH]; cbn [insert_real]; [repeat constructor|].
  inversion Hs as [|? ? Hs' Hhd]; subst.
  destruct (Rlt_dec 0 (key x - key y)) as [Hgt|Hle].
  - constructor; [apply IH, Hs'|].
    apply insert_real_HdRel; [lraR|exact Hhd].
  - constructor; [exact Hs|]. constructor. lraR.
Qed.

(** Sorting by the difference of a real key puts the list in ascending
    order of the key. *)
Lemma Array_sort_real_Sorted (l : list A) :
  StronglySorted (fun a b => key a <= key b)
    (Array_sort_real (fun a b => key a - key b) l).
Proof.
  apply Sorted_StronglySorted.
  - intros a b c Hab Hbc. lraR.
  - induction l as [|x l IH]; cbn; [constructor|].
    apply insert_real_Sorted, IH.
Qed.

End RealSort.

Section NearbyStations.

Import Suburbs Commute Stations.
Local Open Scope R_scope.

Variable stations : list TrainStation.

Lemma within_radius_eq (la lo radiusKm : R) :
  within_radius stations la lo radiusKm =
  map (fun s => {| station := s;
                   station_distanceKm :=
                     IZR (Rround (distance_to la lo s * 100)) / 100 |})
      (List.filter (within la lo radiusKm) stations).
Proof.
  unfold within_radius.
  set (mk := fun s => {| station := s;
                         station_distanceKm :=
                           IZR (Rround (distance_to la lo s * 100)) / 100 |}).
  set (step := fun (results : list NearestStationResult) (s : TrainStation) => _).
  assert (H : forall l acc,
             fold_left step l acc =
             acc ++ map mk (List.filter (within la lo radiusKm) l)).
  { induction l as [|s l IH]; intros acc; cbn [fold_left List.filter map].
    - now rewrite app_nil_r.
    - rewrite IH. unfold step. fold (distance_to la lo s).
      assert (W : within la lo radiusKm s =
                  if Rle_dec (distance_to la lo s) radiusKm then true else false)
        by reflexivity.
      rewrite W.
      destruct (Rle_dec (distance_to la lo s) radiusKm); [|reflexivity].
      cbn [map]. now rewrite <- app_assoc. }
  apply H.
Qed.

Lemma getNearbyStations_In (la lo radiusKm : R) (r : NearestStationResult) :
  In r (getNearbyStations stations la lo radiusKm) <->
  exists s, In s stations /\ distance_to la lo s <= radiusKm /\
            r = {| station := s;
                   station_distanceKm :=
                     IZR (Rround (distance_to la lo s * 100)) / 100 |}.
Proof.
  unfold getNearbyStations.
  pose proof (Array_sort_real_Permutation
                (fun a b => station_distanceKm a - station_distanceKm b)
                (within_radius stations la lo radiusKm)) as HP.
  split.
  - intros Hin. apply (Permutation_in _ HP) in Hin.
    rewrite within_radius_eq in Hin. apply in_map_iff in Hin as (s & <- & Hs).
    apply List.filter_In in Hs as [Hs Hw]. exists s. split; [exact Hs|].
    split; [|reflexivity]. unfold within in Hw.
    destruct (Rle_dec (distance_to la lo s) radiusKm); [assumption|discriminate].
  - intros (s & Hs & Hd & ->). apply (Permutation_in _ (Permutation_sym HP)).
    rewrite within_radius_eq. apply in_map_iff. exists s. split; [reflexivity|].
    apply List.filter_In. split; [exact Hs|]. unfold within.
    destruct (Rle_dec (distance_to la lo s) radiusKm); [reflexivity|contradiction].
Qed.

Lemma getNearbyStations_Sorted (la lo radiusKm : R) :
  StronglySorted closer_or_equal (getNearbyStations stations la lo radiusKm).
Proof. apply (Array_sort_real_Sorted station_distanceKm). Qed.

(** X9.  [getNearbyStations] returns one result for each station within the
    radius of the point and nothing else, each with the station's distance
    rounded to two decimals, in ascending order of that rounded distance. *)
Theorem getNearbyStations_spec (la lo radiusKm : R) :
  (forall r,
     In r (getNearbyStations stations la lo radiusKm) <->
     exists s, In s stations /\ distance_to la lo s <= radiusKm /\
               r = {| station := s;
                      station_distanceKm :=
                        IZR (Rround (distance_to la lo s * 100)) / 100 |}) /\
  Permutation (map station (getNearbyStations stations la lo radiusKm))
              (List.filter (within la lo radiusKm) stations) /\
  StronglySorted closer_or_equal (getNearbyStations stations la lo radiusKm).
Proof.
  split; [apply getNearbyStations_In|]. split; [|apply getNearbyStations_Sorted].
  unfold getNearbyStations.
  rewrite (Permutation_map station
             (Array_sort_real_Permutation
                (fun a b => station_distanceKm a - station_distanceKm b)
                (within_radius stations la lo radiusKm))),
    within_radius_eq, map_map.
  cbn [station]. now rewrite map_id.
Qed.

End NearbyStations.

Section CommuteFromCoords.

Import Suburbs Commute Stations.
Local Open Scope R_scope.

Variable suburbs : list (string * Suburb).

(** X10.  [estimateCommuteTime] between two postcodes is
    [estimateCommuteFromCoords] from the coordinates of the first suburb
    to the second postcode, also when the two postcodes are equal: the
    fixed answer for that case is what the general formula gives for
    distance 0. *)
Theorem estimateCommuteTime_from_coords (fromPostcode toPostcode : string) :
  estimateCommuteTime suburbs fromPostcode toPostcode =
  match usable_coords (getSuburbByPostcode suburbs fromPostcode) with
  | Some (fromLat, fromLng) =>
      estimateCommuteFromCoords suburbs (Q2R fromLat) (Q2R fromLng) toPostcode
  | None => None
  end.
Proof.
  unfold estimateCommuteTime, estimateCommuteFromCoords.
  destruct (usable_coords (getSuburbByPostcode suburbs fromPostcode))
    as [[fla flo]|] eqn:Ef; [|reflexivity].
  destruct (String.eqb_spec fromPostcode toPostcode) as [<-|Hne].
  - rewrite Ef. cbv zeta. rewrite haversineKm_self.
    replace (0 * 2.5) with 0 by ring. replace (0 * 10) with 0 by ring.
    rewrite Rround_0. change (Z.max 5 0) with 5%Z.
    replace (0 / 10) with 0 by field. reflexivity.
  - destruct (usable_coords (getSuburbByPostcode suburbs toPostcode))
      as [[tla tlo]|]; reflexivity.
Qed.

End CommuteFromCoords.

(* ===================================================================== *)
(** * Further properties: the amenity score                               *)
(* ===================================================================== *)

Section AmenityScore.

Import Amenities.

Variable data : list (string * SuburbAmenities).

(** X11.  For a postcode that has amenity data the amenity score is a multiple
    of 5 between 0 and 100; it is 100 exactly when all six criteria hold
    and 0 exactly when none does, and the summary counts the six lists.  A
    postcode without amenity data scores 0 and all its counts are 0,
    unless it is a name every object inherits: then [getAmenities] returns
    the inherited value and both [getAmenityScore] and
    [getAmenitySummary] throw a [TypeError]. *)
Theorem getAmenityScore_spec (postcode : string) :
  (forall a, getAmenities data postcode = Lookup.Own a ->
     exists score,
       getAmenityScore data postcode = Returned score /\
       (0 <= score <= 100)%Z /\
       (score mod 5 = 0)%Z /\
       (score = 100%Z <-> forallb (fun c => c) (amenity_criteria a) = true) /\
       (score = 0%Z <-> existsb (fun c => c) (amenity_criteria a) = false) /\
       getAmenitySummary data postcode =
         Returned
           {| hospital_count := length (hospitals a);
              school_count := length (schools a);
              university_count := length (universities a);
              fire_station_count := length (fire_stations a);
              police_count := length (police a);
              childcare_count := length (childcare a) |}) /\
  (forall n, getAmenities data postcode = Lookup.Inherited n ->
     n = postcode /\ Lookup.inherited postcode = true /\
     getAmenityScore data postcode = TypeError /\
     getAmenitySummary data postcode = TypeError) /\
  ((forall e, In e data -> fst e <> postcode) ->
   if Lookup.inherited postcode
   then getAmenities data postcode = Lookup.Inherited postcode
   else getAmenityScore data postcode = Returned 0%Z /\
        getAmenitySummary data postcode =
          Returned
            {| hospital_count := 0; school_count := 0; university_count := 0;
               fire_station_count := 0; police_count := 0;
               childcare_count := 0 |}).
Proof.
  split; [|split].
  - intros a Ha. unfold getAmenityScore, getAmenitySummary. rewrite Ha.
    eexists. split; [reflexivity|]. cbv zeta. unfold amenity_criteria.
    destruct (some_within 2 (hospitals a)),
             (3 <=? length (List.filter _ (schools a)))%nat,
             (some_within 5 (universities a)),
             (some_within 5 (fire_stations a)),
             (some_within 5 (police a)),
             (some_within 3 (childcare a));
      cbn; (split; [lia|]); (split; [reflexivity|]);
      (split; [split; intros H; solve [reflexivity | discriminate H]|]);
      (split; [split; intros H; solve [reflexivity | discriminate H]|]);
      reflexivity.
  - intros n Hn. unfold getAmenityScore, getAmenitySummary. rewrite Hn.
    revert Hn. unfold getAmenities.
    destruct (read_cases data postcode) as [(a & _ & ->)|[_ ->]]; [discriminate|].
    destruct (Lookup.inherited postcode); [|discriminate].
    intros [= <-]. auto.
  - intros Hno. unfold getAmenityScore, getAmenitySummary, getAmenities.
    destruct (read_cases data postcode) as [(a & Hin & _)|[_ ->]].
    + exfalso. exact (Hno _ Hin eq_refl).
    + destruct (Lookup.inherited postcode); [reflexivity|]. split; reflexivity.
Qed.

End AmenityScore.

(* ===================================================================== *)
(** * Further properties: the recommendations                             *)
(* ===================================================================== *)

Section SortStable.

Import Recommend.
Local Open Scope Q_scope.

Context {A : Type}.
Variable key : A -> num.

Lemma by_key_gt_keys (x y : A) (k : num) :
  ngt (by_key key x y) (Fin 0) = true ->
  nseq (key x) k = true -> nseq (key y) k = false.
Proof.
  unfold by_key, ngt. destruct (key x) as [|qx], (key y) as [|qy], k as [|qk];
    cbn [nsub lift2 nlt nseq]; try discriminate; try reflexivity.
  intros Hgt Heq. apply (nlt_Fin 0 (qx - qy)) in Hgt.
  apply Qeq_bool_iff in Heq. apply Qeq_bool_false_iff. intros E. lraQ.
Qed.

Lemma insert_filter (k : num) (x : A) (l : list A) :
  List.filter (fun e => nseq (key e) k) (insert (by_key key) x l) =
  List.filter (fun e => nseq (key e) k) (x :: l).
Proof.
  induction l as [|y l IH]; cbn [insert]; [reflexivity|].
  destruct (ngt (by_key key x y) (Fin 0)) eqn:E; [|reflexivity].
  cbn [List.filter] in *. rewrite IH.
  destruct (nseq (key x) k) eqn:Ex; [|reflexivity].
  now rewrite (by_key_gt_keys x y k E Ex).
Qed.

(** The sort is stable, whatever the keys: the elements with a given key
    come out in the order they went in. *)
Lemma Array_sort_stable (k : num) (l : list A) :
  List.filter (fun e => nseq (key e) k) (Array_sort (by_key key) l) =
  List.filter (fun e => nseq (key e) k) l.
Proof.
  induction l as [|x l IH]; [reflexivity|].
  change (Array_sort (by_key key) (x :: l))
    with (insert (by_key key) x (Array_sort (by_key key) l)).
  rewrite insert_filter. cbn [List.filter]. now rewrite IH.
Qed.

End SortStable.

Section RecommendOrder.

Import Suburbs Commute Recommend.
Local Open Scope Q_scope.

Variable Number : string -> num.
Variable dataset : list (string * Suburb).
Variable stations : list TrainStation.

(** X12.  In a 200 answer of [GET /recommend] the suburbs with equal rent stress
    stand in dataset order: for every percentage, the entries of the
    answer that have it are the first of the dataset's entries that have
    it, in the order of the dataset; all of them when no more than 500
    suburbs match. *)
Theorem GET_ties_in_dataset_order (req : Request) (body : Body) :
  GET Number dataset stations req = Status200 body ->
  scoredOf Number dataset stations req =
    flat_map (fun s => match entry_of Number dataset stations req s with
                       | Some e => [e]
                       | None => []
                       end)
             (getAllSuburbs dataset) /\
  forall k : num,
    let same := fun e => nseq (rent_stress_pct e) k in
    (exists rest,
       List.filter same (scoredOf Number dataset stations req) =
       List.filter same (suburbs body) ++ rest) /\
    ((total_matching body <= MAX_RESULTS)%nat ->
     List.filter same (suburbs body) =
     List.filter same (scoredOf Number dataset stations req)).
Proof.
  intros H. apply GET_200 in H as (_ & _ & _ & _ & _ & Hs & Ht & _).
  split.
  - unfold scoredOf, scoredList. rewrite fold_left_push. reflexivity.
  - intros k same. rewrite Hs, Ht.
    pose proof (Array_sort_stable rent_stress_pct k
                  (scoredOf Number dataset stations req)) as Hst.
    change (by_key rent_stress_pct) with byRentStress in Hst.
    fold same in Hst. split.
    + exists (List.filter same
                (skipn MAX_RESULTS
                   (Array_sort byRentStress (scoredOf Number dataset stations req)))).
      rewrite <- List.filter_app, firstn_skipn. symmetry. exact Hst.
    + intros Hle. rewrite firstn_all2; [exact Hst|].
      now rewrite Array_sort_length.
Qed.

End RecommendOrder.

Lemma GET_ties_in_dataset_order_witness :
  exists body,
    Recommend.GET Examples.Number_decimal Examples.two_suburbs []
      Examples.income_1000_one_bedroom = Recommend.Status200 body /\
    List.filter (fun e => nseq (Recommend.rent_stress_pct e) (Fin 30)) (Recommend.suburbs body) =
    List.filter (fun e => nseq (Recommend.rent_stress_pct e) (Fin 30))
      (scoredOf Examples.Number_decimal Examples.two_suburbs []
         Examples.income_1000_one_bedroom).
Proof.
  eexists. split; [reflexivity|].
  refine (proj2 (proj2 (GET_ties_in_dataset_order Examples.Number_decimal
                          Examples.two_suburbs []
                          Examples.income_1000_one_bedroom _ eq_refl) (Fin 30)) _).
  vm_compute. lia.
Defined.

Section ScoreBand.

Import Suburbs Commute Recommend.
Local Open Scope Q_scope.

(** The trend penalty is 0, or ten times the relative increase when that
    is above one tenth, capped at 5. *)
Lemma trendPenaltyOf_range (t : list (string * Q)) :
  exists x, trendPenaltyOf t = Fin x /\ 0 <= x <= 5.
Proof.
  assert (Z0 : exists x, Fin 0 = Fin x /\ 0 <= x <= 5).
  { exists 0. split; [reflexivity|]. split; discriminate. }
  unfold trendPenaltyOf. cbv zeta.
  destruct (2 <=? length (sorted_keys t))%nat; [|exact Z0].
  destruct (lookup_number t (hd EmptyString (sorted_keys t))) as [|o];
    [exact Z0|].
  destruct (ngt (Fin o) (Fin 0)) eqn:Eo; [|exact Z0].
  destruct (lookup_number t (List.last (sorted_keys t) EmptyString)) as [|n];
    [exact Z0|].
  apply (nlt_Fin 0 o) in Eo.
  cbn [nsub lift2]. rewrite ndiv_Fin by (intros E; rewrite E in Eo; discriminate).
  destruct (ngt (Fin ((n - o) / o)) (Fin (1 # 10))) eqn:Ei; [|exact Z0].
  apply (nlt_Fin (1 # 10)) in Ei.
  cbn [Math_min nmul lift2]. eexists. split; [reflexivity|]. split.
  - apply Q.min_glb; [discriminate|lraQ].
  - apply Q.le_min_l.
Qed.

Variable dataset : list (string * Suburb).
Variable stations : list TrainStation.

(** X13.  The composite affordability score of an entry stays within 5.05
    points of its rent-stress percentage: it is never lower than the
    percentage minus 5.05 and, for a suburb whose bond count is not
    negative, never higher than the percentage plus 5.05. *)
Theorem scoreSuburb_score_band (income : num) (bedrooms : option num)
  (sharingCount : num) (shareBedroom : bool) (wp : option string)
  (s : Suburb) (e : ScoredSuburb) (p : Q) :
  scoreSuburb dataset stations income bedrooms sharingCount shareBedroom wp s
    = Some e ->
  rent_stress_pct e = Fin p ->
  exists a,
    affordability_score e = Fin a /\
    p - (505 # 100) <= a /\
    (0 <= total_bonds s -> a <= p + (505 # 100)).
Proof.
  unfold scoreSuburb.
  destruct (resolveSharedRent s bedrooms sharingCount shareBedroom) as [r|];
    [|discriminate].
  destruct (ngt _ (Fin 100)); [discriminate|].
  intros H. injection H as <-. cbn [rent_stress_pct affordability_score].
  intros ->.
  destruct (trendPenaltyOf_range (rent_trend s)) as (pen & -> & Hpen0 & Hpen5).
  cbn [Math_min nsub nadd nmul lift2 Math_round].
  rewrite ndiv_Fin by discriminate.
  eexists. split; [reflexivity|].
  set (bonus := Qmin 5 (total_bonds s / 500)).
  pose proof (round_spec ((p - bonus + pen) * 10)) as [Hlo Hhi].
  set (z := inject_Z (round ((p - bonus + pen) * 10))) in *.
  assert (Ez : z / 10 == z * (1 # 10)) by (unfold Qdiv; reflexivity).
  assert (Hb5 : bonus <= 5) by apply Q.le_min_l.
  split.
  - rewrite Ez. lraQ.
  - intros Hbonds.
    assert (Hb0 : 0 <= bonus).
    { apply Q.min_glb; [discriminate|].
      unfold Qdiv. change (/ 500) with (1 # 500). lraQ. }
    rewrite Ez. lraQ.
Qed.

End ScoreBand.

Lemma scoreSuburb_score_band_witness :
  exists e,
    Recommend.scoreSuburb Examples.two_suburbs [] (Fin 1000) (Some (Fin 1))
      (Fin 1) false None
      (Examples.mkSuburb "B_2001" "2001" (Some "B"%string) 2500
         (Some 310%Q) None None None) = Some e /\
    Recommend.rent_stress_pct e = Fin (310 # 10) /\
    exists a, Recommend.affordability_score e = Fin a /\
              ((310 # 10) - (505 # 100) <= a)%Q.
Proof.
  eexists. split; [reflexivity|]. split; [reflexivity|].
  destruct (scoreSuburb_score_band Examples.two_suburbs [] (Fin 1000)
              (Some (Fin 1)) (Fin 1) false None
              (Examples.mkSuburb "B_2001" "2001" (Some "B"%string) 2500
                 (Some 310%Q) None None None)
              _ (310 # 10)%Q eq_refl eq_refl)
    as (a & Ha & Hlo & _).
  exists a. split; [exact Ha|exact Hlo].
Defined.

(* ===================================================================== *)
(** * Further properties: GET /api/affordability                          *)
(* ===================================================================== *)

Section AffordabilityFacts.

Import Suburbs Recommend.
Local Open Scope Q_scope.

Variable Number : string -> num.
Variable String_of : num -> string.
Variable dataset : list (string * Suburb).
Variable stations : list Commute.TrainStation.

Lemma affordability_income_check (s : string) :
  isNaN (Number s) || nlt (Number s) (Fin 0) = false <->
  exists q, Number s = Fin q /\ 0 <= q.
Proof.
  destruct (Number s) as [|q]; cbn [isNaN orb].
  - split; [discriminate|]. intros (q & Hq & _). discriminate.
  - rewrite (nlt_Fin_false q 0). split.
    + intros H. exists q. auto.
    + intros (q' & Hq & H). injection Hq as ->. exact H.
Qed.

Lemma affordability_bedrooms_check (p : option string) :
  match option_map Number (present p) with
  | Some b => isNaN b || nlt b (Fin 1) || ngt b (Fin 5)
  | None => false
  end = false <->
  match present p with
  | None => True
  | Some s => exists q, Number s = Fin q /\ 1 <= q <= 5
  end.
Proof.
  destruct (present p) as [s|]; cbn [option_map]; [|tauto].
  destruct (Number s) as [|q]; cbn [isNaN orb].
  - split; [discriminate|]. intros (q & Hq & _). discriminate.
  - unfold ngt. rewrite orb_false_iff, (nlt_Fin_false q 1), (nlt_Fin_false 5 q).
    split.
    + intros [H1 H5]. exists q. auto.
    + intros (q' & Hq & H1 & H5). injection Hq as ->. auto.
Qed.


(** X15.  The two endpoints agree on a suburb: when the income is positive and
    the bedrooms are in range, and [/recommend] without sharing lists the
    suburb that the postcode resolves to, [/affordability] answers 200 for
    that postcode with the same median rent, rent-stress percentage and
    rating. *)
Theorem affordability_matches_recommend (req : Affordability.Request)
  (pc i : string) (q : Q) (wp : option string) (s : Suburb) (e : ScoredSuburb) :
  present (Affordability.p_postcode req) = Some pc ->
  present (Affordability.p_income req) = Some i ->
  Number i = Fin q -> 0 < q ->
  match present (Affordability.p_bedrooms req) with
  | None => True
  | Some b => exists x, Number b = Fin x /\ 1 <= x <= 5
  end ->
  getSuburbByPostcode dataset pc = Some s ->
  scoreSuburb dataset stations (Number i)
    (option_map Number (present (Affordability.p_bedrooms req)))
    (Fin 1) false wp s = Some e ->
  exists body,
    Affordability.GET Number String_of dataset req = Affordability.Status200 body /\
    Affordability.postcode body = s_postcode e /\
    Affordability.median_rent body = median_rent e /\
    Affordability.rent_stress_pct body = rent_stress_pct e /\
    Affordability.rating body = s_rating e.
Proof.
  intros Hpc Hi Hq Hpos Hb Hs He.
  unfold Affordability.GET. rewrite Hpc, Hi.
  assert (Einc : isNaN (Number i) || nlt (Number i) (Fin 0) = false).
  { apply affordability_income_check. exists q. split; [exact Hq|]. lraQ. }
  rewrite Einc.
  apply affordability_bedrooms_check in Hb. rewrite Hb, Hs.
  revert He. unfold scoreSuburb, resolveSharedRent, resolveSharedRent_fuel.
  assert (E1 : nle (Fin 1) (Fin 1) = true) by reflexivity.
  rewrite E1. cbv zeta.
  set (bedrooms := option_map Number (present (Affordability.p_bedrooms req))).
  set (key := match bedrooms with
              | Some b => if truthy (Num b) then medianRentKey b else field_overall
              | None => field_overall
              end).
  destruct (get s key) as [| |n]; try discriminate;
    cbn [perPersonRent];
    (destruct (ngt _ (Fin 100)); [discriminate|]);
    intros [= <-]; eexists; (split; [reflexivity|]); cbn; auto.
Qed.

End AffordabilityFacts.

Lemma affordability_matches_recommend_witness :
  let req := {| Affordability.p_postcode := Some "2000"%string;
                Affordability.p_income := Some "1000"%string;
                Affordability.p_bedrooms := Some "1"%string |} in
  exists body,
    Affordability.GET Examples.Number_decimal (fun _ => EmptyString)
      Examples.two_suburbs req = Affordability.Status200 body /\
    Affordability.rent_stress_pct body = Fin (300 # 10).
Proof.
  intros req.
  set (s := Examples.mkSuburb "A_2000" "2000" (Some "A"%string) 0
              (Some 300%Q) None None None).
  assert (Hi : Examples.Number_decimal "1000" = Fin 1000)
    by (vm_compute; reflexivity).
  assert (Hb : match Recommend.present (Affordability.p_bedrooms req) with
               | None => True
               | Some b => exists x, Examples.Number_decimal b = Fin x /\
                                     (1 <= x <= 5)%Q
               end).
  { exists 1%Q. split; [vm_compute; reflexivity|]. split; discriminate. }
  assert (Hs : Suburbs.getSuburbByPostcode Examples.two_suburbs "2000" = Some s)
    by (vm_compute; reflexivity).
  assert (He : exists e,
             Recommend.scoreSuburb Examples.two_suburbs []
               (Examples.Number_decimal "1000")
               (option_map Examples.Number_decimal
                  (Recommend.present (Affordability.p_bedrooms req)))
               (Fin 1) false None s = Some e /\
             Recommend.rent_stress_pct e = Fin (300 # 10)).
  { eexists. split; vm_compute; reflexivity. }
  destruct He as (e & He & Hp).
  destruct (affordability_matches_recommend Examples.Number_decimal
              (fun _ => EmptyString) Examples.two_suburbs [] req
              "2000" "1000" 1000 None s e eq_refl eq_refl Hi eq_refl Hb Hs He)
    as (body & Hbody & _ & _ & Hpct & _).
  exists body. split; [exact Hbody|]. rewrite Hpct. exact Hp.
Defined.

(* ===================================================================== *)
(** * Further properties: the caches across two requests                  *)
(* ===================================================================== *)

Section CacheRoundTrip.

Import Cache.

Variable Data : Type.

(** A read that misses leaves no entry under the key. *)
Lemma getCached_miss (now : Z) (key : string)
  (cache : gmap string (CachedResult Data)) :
  fst (getCached Data now key cache) = None ->
  exists cache1,
    getCached Data now key cache = (None, cache1) /\ cache1 !! key = None.
Proof.
  unfold getCached. destruct (cache !! key) as [entry|] eqn:Hk.
  - destruct (now - timestamp entry >? CACHE_TTL_MS)%Z; [|discriminate].
    intros _. eexists. split; [reflexivity|]. apply lookup_delete_eq.
  - intros _. eexists. split; [reflexivity|]. exact Hk.
Qed.

(** X16.  A request to [POST /api/overpass-poi] that misses the cache, followed
    by a second one for the same key no later than 24 hours after the
    first answer was stored.  When the first fetch succeeded, the second
    request is answered with the same amenities from the cache, whatever
    the upstream would say by then, and only one upstream request has been
    made.  When the first fetch failed, nothing was stored and the second
    request asks the upstream again. *)
Theorem POST_overpass_poi_repeat {Call : Type} (call : Call) (key : string)
  (now1 store1 now2 store2 : Z) (answer1 answer2 : Data + string)
  (w : World Data Call) :
  fst (getCached Data now1 key (cache w)) = None ->
  (now2 - store1 <= CACHE_TTL_MS)%Z ->
  let out1 := POST_overpass_poi Data call key now1 store1 answer1 w in
  let out2 := POST_overpass_poi Data call key now2 store2 answer2 (snd out1) in
  match answer1 with
  | inl amenities =>
      fst out1 = Json amenities /\ fst out2 = Json amenities /\
      snd out2 = snd out1 /\
      upstream (snd out2) = upstream w ++ [call]
  | inr message =>
      fst out1 = Error500 message /\
      fst out2 = match answer2 with
                 | inl amenities => Json amenities
                 | inr message2 => Error500 message2
                 end /\
      upstream (snd out2) = upstream w ++ [call; call]
  end.
Proof.
  intros Hmiss Hage out1 out2.
  destruct (getCached_miss _ _ _ Hmiss) as (cache1 & Hg & Hnone).
  unfold out2, out1, POST_overpass_poi. rewrite Hg.
  destruct answer1 as [amenities|message]; cbn [fst snd cache upstream].
  - rewrite (getCached_fresh Data now2 key _
               {| data := amenities; timestamp := store1 |});
      [|apply lookup_insert_eq|exact Hage].
    cbn. auto.
  - rewrite (getCached_absent Data now2 key cache1 Hnone).
    destruct answer2; cbn; rewrite <- app_assoc; auto.
Qed.

End CacheRoundTrip.

Lemma POST_overpass_poi_repeat_witness :
  let w : Cache.World string nat := {| Cache.cache := empty; Cache.upstream := [] |} in
  let out1 := Cache.POST_overpass_poi string 7%nat "k" 0 5 (inl "parks"%string) w in
  let out2 :=
    Cache.POST_overpass_poi string 7%nat "k" 86400005 86400006
      (inr "down"%string) (snd out1) in
  fst out2 = Cache.Json "parks"%string /\ Cache.upstream (snd out2) = [7%nat].
Proof.
  intros w out1 out2.
  pose proof (POST_overpass_poi_repeat string 7%nat "k" 0 5 86400005 86400006
                (inl "parks"%string) (inr "down"%string) w eq_refl
                ltac:(vm_compute; discriminate)) as (_ & H2 & _ & H4).
  split; [exact H2|exact H4].
Defined.

(** X17.  [GET /api/commute] stores every response it builds, also one
    that records failed lookups.  After a miss, a second request whose
    coordinates give the same cache key, no later than 24 hours after the
    store, is answered with the first response and makes no upstream
    request; in that response the driving part is never missing. *)
Theorem GET_commute_repeat (cacheKey : R -> R -> R -> R -> string)
  (fromLat fromLng toLat toLng fromLat' fromLng' toLat' toLng' : R)
  (now1 store1 now2 store2 : Z)
  (transit1 transit2 : Cache.TransitResult + string)
  (driving1 driving2 : Cache.DrivingResult + string)
  (w : Cache.World Cache.CommuteResponse Cache.CommuteCall) :
  fst (Cache.getCached Cache.CommuteResponse now1
         (cacheKey fromLat fromLng toLat toLng) (Cache.cache w)) = None ->
  cacheKey fromLat' fromLng' toLat' toLng' = cacheKey fromLat fromLng toLat toLng ->
  (now2 - store1 <= Cache.CACHE_TTL_MS)%Z ->
  let out1 :=
    Cache.GET_commute cacheKey fromLat fromLng toLat toLng now1 store1
      transit1 driving1 w in
  let out2 :=
    Cache.GET_commute cacheKey fromLat' fromLng' toLat' toLng' now2 store2
      transit2 driving2 (snd out1) in
  exists response,
    fst out1 = Cache.Json response /\
    Cache.driving response <> None /\
    Cache.straight_line_km response =
      (IZR (Commute.Rround (Commute.haversineKm fromLat fromLng toLat toLng * 10)) / 10)%R /\
    (Cache.transit response = None <-> exists m, transit1 = inr m) /\
    fst out2 = Cache.Json response /\
    snd out2 = snd out1 /\
    Cache.upstream (snd out2) =
      Cache.upstream w ++ [Cache.fetchTransit fromLat fromLng toLat toLng;
                           Cache.fetchDriving fromLat fromLng toLat toLng].
Proof.
  intros Hmiss Hkey Hage out1 out2.
  destruct (getCached_miss _ _ _ _ Hmiss) as (cache1 & Hg & Hnone).
  unfold out2, out1, Cache.GET_commute. rewrite Hg, Hkey.
  cbn [fst snd Cache.cache Cache.upstream].
  match goal with
  | |- context [<[_ := ?en]> cache1] =>
      rewrite (getCached_fresh Cache.CommuteResponse now2 _ _ en);
        [|apply lookup_insert_eq|exact Hage]
  end.
  eexists. split; [reflexivity|]. cbn.
  split; [destruct driving1; discriminate|].
  split; [reflexivity|].
  split; [|auto].
  destruct transit1 as [t|m]; split; try discriminate.
  - intros [m Hm]. discriminate.
  - intros _. eauto.
  - reflexivity.
Qed.

Lemma GET_commute_repeat_witness :
  let w : Cache.World Cache.CommuteResponse Cache.CommuteCall :=
    {| Cache.cache := empty; Cache.upstream := [] |} in
  let out1 :=
    Cache.GET_commute (fun _ _ _ _ => "k"%string) 0 0 0 0 0 5
      (inr "no transit"%string) (inr "no driving"%string) w in
  let out2 :=
    Cache.GET_commute (fun _ _ _ _ => "k"%string) 0 0 0 0 10 11
      (inr "no transit"%string) (inr "no driving"%string) (snd out1) in
  fst out2 = fst out1 /\ Cache.upstream (snd out2) = Cache.upstream (snd out1).
Proof.
  intros w out1 out2.
  pose proof (GET_commute_repeat (fun _ _ _ _ => "k"%string)
                0 0 0 0 0 0 0 0 0 5 10 11
                (inr "no transit"%string) (inr "no transit"%string)
                (inr "no driving"%string) (inr "no driving"%string)
                w eq_refl eq_refl ltac:(vm_compute; discriminate))
    as (response & H1 & _ & _ & _ & H2 & H3 & _).
  split.
  - change (fst out2 = fst out1). etransitivity; [exact H2|]. symmetry. exact H1.
  - exact (f_equal Cache.upstream H3).
Defined.

(* ===================================================================== *)
(** * Further properties: the matrix request                              *)
(* ===================================================================== *)

Section MatrixIndices.

Import OrsMatrix.

Lemma nth_error_seq_lt (a n i : nat) :
  (i < n)%nat -> nth_error (seq a n) i = Some (a + i)%nat.
Proof.
  revert a i. induction n as [|n IH]; intros a i Hi; [lia|].
  destruct i as [|i]; cbn [seq nth_error].
  - f_equal. lia.
  - rewrite IH by lia. f_equal. lia.
Qed.

Lemma nth_error_map_index {A B} (f : nat -> B) (arr : list A) (i : nat) :
  (i < length arr)%nat -> nth_error (map_index f arr) i = Some (f i).
Proof.
  intros Hi. unfold map_index.
  rewrite nth_error_map, nth_error_seq_lt by exact Hi. reflexivity.
Qed.

(** X18.  The request [fetchOrsMatrix] sends is consistent: the source index of
    the i-th suburb and the destination index of the j-th hub point at the
    coordinates of that suburb and of that hub in [locations], longitude
    first; there is one source per suburb and one destination per hub, and
    no index is both. *)
Theorem matrixRequest_indices (suburbs hubs : list Point) :
  let r := matrixRequest suburbs hubs in
  length (locations r) = (length suburbs + length hubs)%nat /\
  length (sources r) = length suburbs /\
  length (destinations r) = length hubs /\
  (forall i s,
     nth_error suburbs i = Some s ->
     exists k, nth_error (sources r) i = Some k /\
               nth_error (locations r) k = Some (pt_lng s, pt_lat s)) /\
  (forall j h,
     nth_error hubs j = Some h ->
     exists k, nth_error (destinations r) j = Some k /\
               nth_error (locations r) k = Some (pt_lng h, pt_lat h)) /\
  (forall k, In k (sources r) -> ~ In k (destinations r)).
Proof.
  intros r. unfold r, matrixRequest. cbn [locations sources destinations].
  unfold map_index at 1 2.
  rewrite length_app, !length_map, !length_seq.
  repeat split.
  - intros i s Hs.
    assert (Hi : (i < length suburbs)%nat) by (apply nth_error_Some; congruence).
    exists i. split; [apply nth_error_map_index, Hi|].
    rewrite nth_error_app1 by (rewrite length_map; exact Hi).
    rewrite nth_error_map, Hs. reflexivity.
  - intros j h Hh.
    assert (Hj : (j < length hubs)%nat) by (apply nth_error_Some; congruence).
    exists (length suburbs + j)%nat. split; [apply nth_error_map_index, Hj|].
    rewrite nth_error_app2 by (rewrite length_map; lia).
    rewrite length_map.
    replace (length suburbs + j - length suburbs)%nat with j by lia.
    rewrite nth_error_map, Hh. reflexivity.
  - intros k Hs Hd. unfold map_index in Hs, Hd.
    apply in_map_iff in Hs as (i & <- & Hi). apply in_seq in Hi.
    apply in_map_iff in Hd as (j & Hj & _). lia.
Qed.

End MatrixIndices.

(* ===================================================================== *)
(** * Further properties: the helpers of the pages                        *)
(* ===================================================================== *)

Section PageHelpers.

Import Suburbs Pages.
Local Open Scope Q_scope.

Lemma budgetBadge_label (p : Q) :
  (badge_label (budgetBadge (Fin p)) = "Great Value"%string <-> p <= 25) /\
  (badge_label (budgetBadge (Fin p)) = "Comfortable"%string <-> 25 < p <= 30) /\
  (badge_label (budgetBadge (Fin p)) = "Manageable"%string <-> 30 < p <= 40) /\
  (badge_label (budgetBadge (Fin p)) = "Pricey"%string <-> 40 < p).
Proof.
  unfold budgetBadge.
  destruct (nle (Fin p) (Fin 25)) eqn:E1;
    [apply nle_Fin in E1 | apply nle_Fin_false in E1;
     destruct (nle (Fin p) (Fin 30)) eqn:E2;
       [apply nle_Fin in E2 | apply nle_Fin_false in E2;
        destruct (nle (Fin p) (Fin 40)) eqn:E3;
          [apply nle_Fin in E3 | apply nle_Fin_false in E3]]];
    cbn [badge_label];
    (split; [|split; [|split]]); (split; intros H);
    try discriminate H; try reflexivity; try (split; lraQ); try lraQ;
    try (destruct H; exfalso; lraQ).
Qed.

(** X19.  The suburb page words a percentage as the rating of
    [getRentStressRating] does.  The badge of the results page has its own
    thresholds: it says "Great Value" up to 25 inclusive, and its
    "Comfortable" and "Manageable" are the percentages the rating calls
    manageable and stressed; "Pricey" is the rating severe. *)
Theorem page_labels_and_rating (p : Q) :
  stressLabel (Some (Fin p)) = rating_label (getRentStressRating (Fin p)) /\
  stressLabel (Some NaN) = rating_label (getRentStressRating NaN) /\
  (badge_label (budgetBadge (Fin p)) = "Great Value"%string <->
   getRentStressRating (Fin p) = comfortable \/ p == 25) /\
  (badge_label (budgetBadge (Fin p)) = "Comfortable"%string <->
   getRentStressRating (Fin p) = manageable /\ ~ p == 25) /\
  (badge_label (budgetBadge (Fin p)) = "Manageable"%string <->
   getRentStressRating (Fin p) = stressed) /\
  (badge_label (budgetBadge (Fin p)) = "Pricey"%string <->
   getRentStressRating (Fin p) = severe).
Proof.
  split; [|split; [reflexivity|]].
  - unfold stressLabel, getRentStressRating.
    destruct (nlt (Fin p) (Fin 25)); [reflexivity|].
    destruct (nle (Fin p) (Fin 30)); [reflexivity|].
    destruct (nle (Fin p) (Fin 40)); reflexivity.
  - pose proof (getRentStressRating_Fin p) as (R1 & R2 & R3 & R4).
    pose proof (budgetBadge_label p) as (B1 & B2 & B3 & B4).
    rewrite B1, B2, B3, B4, R1, R2, R3, R4.
    split; [|split; [|split]]; try reflexivity.
    + split.
      * intros H. destruct (Qlt_le_dec p 25) as [Hlt|Hge]; [left; exact Hlt|].
        right. lraQ.
      * intros [H|H]; lraQ.
    + split.
      * intros [H1 H2]. split; [split; lraQ|]. intros E. lraQ.
      * intros [[H1 H2] H3]. split; [|exact H2].
        destruct (Qlt_le_dec 25 p) as [Hlt|Hge]; [exact Hlt|].
        exfalso. apply H3. lraQ.
Qed.

Lemma Math_max_whole (a b : Z) :
  Math_max (Fin (inject_Z a)) (Fin (inject_Z b)) = Fin (inject_Z (Z.max a b)).
Proof.
  cbn [Math_max lift2]. f_equal. unfold Qmax, GenericMinMax.gmax.
  change (inject_Z a ?= inject_Z b) with (a * 1 ?= b * 1)%Z.
  rewrite !Z.mul_1_r. unfold Z.max.
  destruct (a ?= b)%Z; reflexivity.
Qed.

(** X20.  The commute estimate of the results page is a whole number of minutes,
    never below 5: at most 36 under 3 km, 21 to 35 from 3 km to under
    10 km, 38 to 74 from 10 km to under 30 km, and at least 75 from 30 km
    on.  The bands overlap, so the estimate is not monotone in the
    distance: 2.9 km gives 35 minutes and 3 km gives 21. *)
Theorem estimateCommuteMinutes_bands (d : Q) :
  (exists m : Z,
     estimateCommuteMinutes (Fin d) = Fin (inject_Z m) /\
     (5 <= m)%Z /\
     (d < 3 -> (m <= 36)%Z) /\
     (3 <= d -> d < 10 -> (21 <= m <= 35)%Z) /\
     (10 <= d -> d < 30 -> (38 <= m <= 74)%Z) /\
     (30 <= d -> (75 <= m)%Z)) /\
  estimateCommuteMinutes (Fin (29 # 10)) = Fin 35 /\
  estimateCommuteMinutes (Fin 3) = Fin 21.
Proof.
  split; [|split; reflexivity].
  unfold estimateCommuteMinutes.
  destruct (nlt (Fin d) (Fin 3)) eqn:E3;
    [apply nlt_Fin in E3 | apply nlt_Fin_false in E3;
     destruct (nlt (Fin d) (Fin 10)) eqn:E10;
       [apply nlt_Fin in E10 | apply nlt_Fin_false in E10;
        destruct (nlt (Fin d) (Fin 30)) eqn:E30;
          [apply nlt_Fin in E30 | apply nlt_Fin_false in E30]]];
    cbn [nadd nmul lift2 Math_round].
  - change (Fin 5) with (Fin (inject_Z 5)). rewrite Math_max_whole.
    eexists. split; [reflexivity|].
    assert (H : (round (d * 12) <= round 36)%Z) by (apply round_monotone; lraQ).
    change (round 36) with 36%Z in H.
    repeat split; intros; try lia; exfalso; lraQ.
  - eexists. split; [reflexivity|].
    assert (H1 : (round 21 <= round (15 + d * 2))%Z) by (apply round_monotone; lraQ).
    assert (H2 : (round (15 + d * 2) <= round 35)%Z) by (apply round_monotone; lraQ).
    change (round 21) with 21%Z in H1. change (round 35) with 35%Z in H2.
    repeat split; intros; try lia; exfalso; lraQ.
  - eexists. split; [reflexivity|].
    assert (H1 : (round 38 <= round (20 + d * (18 # 10)))%Z)
      by (apply round_monotone; lraQ).
    assert (H2 : (round (20 + d * (18 # 10)) <= round 74)%Z)
      by (apply round_monotone; lraQ).
    change (round 38) with 38%Z in H1. change (round 74) with 74%Z in H2.
    repeat split; intros; try lia; exfalso; lraQ.
  - eexists. split; [reflexivity|].
    assert (H1 : (round 75 <= round (30 + d * (15 # 10)))%Z)
      by (apply round_monotone; lraQ).
    change (round 75) with 75%Z in H1.
    repeat split; intros; try lia; exfalso; lraQ.
Qed.

End PageHelpers.

Section MorePageHelpers.

Import Recommend Pages.
Local Open Scope Q_scope.

Lemma insert_nil_inv {X} (cmp : X -> X -> num) (x : X) (l : list X) :
  insert cmp x l <> [].
Proof. destruct l; cbn [insert]; [discriminate|]. now destruct (ngt _ _). Qed.

(** The head of the list sorted by descending count is the first entry
    with the largest count. *)
Lemma byCountDescending_head (l : list (string * Q)) (e : string * Q) :
  List.hd_error (Array_sort byCountDescending l) = Some e ->
  exists before after,
    l = before ++ e :: after /\
    (forall y, In y before -> snd y < snd e) /\
    (forall y, In y after -> snd y <= snd e).
Proof.
  revert e. induction l as [|x l IH]; intros e; [discriminate|].
  change (Array_sort byCountDescending (x :: l))
    with (insert byCountDescending x (Array_sort byCountDescending l)).
  destruct (Array_sort byCountDescending l) as [|h t] eqn:Es.
  - cbn. intros [= <-]. exists [], l. split; [reflexivity|].
    assert (El : l = []).
    { pose proof (Array_sort_length byCountDescending l) as Hl.
      rewrite Es in Hl. destruct l; [reflexivity|discriminate]. }
    subst l. split; intros y [].
  - destruct (IH h eq_refl) as (before & after & El & Hb & Ha).
    cbn [insert]. unfold byCountDescending at 1. cbn [nsub lift2].
    destruct (ngt (Fin (snd h - snd x)) (Fin 0)) eqn:E; cbn; intros [= <-].
    + apply (nlt_Fin 0) in E. exists (x :: before), after.
      split; [rewrite El; reflexivity|]. split; [|exact Ha].
      intros y [<-|Hy]; [lraQ|apply Hb, Hy].
    + apply (nlt_Fin_false 0) in E. exists [], l.
      split; [reflexivity|]. split; [intros y []|].
      intros y Hy. rewrite El in Hy.
      apply in_app_or in Hy as [Hy|[<-|Hy]].
      * specialize (Hb y Hy). lraQ.
      * lraQ.
      * specialize (Ha y Hy). lraQ.
Qed.

(** X21.  [topDwellingType] is [null] exactly when the record has no key other
    than "Unknown" and "Other".  Otherwise it is the first of the other
    keys, in the order of the record, whose count is the largest. *)
Theorem topDwellingType_spec (types : list (string * Q)) :
  (topDwellingType types = None <-> List.filter named_type types = []) /\
  (forall k, topDwellingType types = Some k ->
     exists c before after,
       List.filter named_type types = before ++ (k, c) :: after /\
       k <> "Unknown"%string /\ k <> "Other"%string /\
       (forall y, In y before -> snd y < c) /\
       (forall y, In y after -> snd y <= c)).
Proof.
  unfold topDwellingType.
  destruct (List.filter named_type types) as [|e0 l] eqn:Ef.
  - split; [tauto|discriminate].
  - destruct (List.hd_error (Array_sort byCountDescending (e0 :: l)))
      as [[k c]|] eqn:Eh.
    + split; [split; discriminate|].
      intros k' [= <-].
      destruct (byCountDescending_head _ _ Eh) as (before & after & El & Hb & Ha).
      exists c, before, after. split; [exact El|].
      assert (Hin : In (k, c) (List.filter named_type types)).
      { rewrite Ef, El. apply in_or_app. right. left. reflexivity. }
      apply List.filter_In in Hin as [_ Hn]. unfold named_type in Hn.
      cbn [fst] in Hn. apply andb_prop in Hn as [H1 H2].
      apply negb_true_iff in H1, H2.
      apply String.eqb_neq in H1, H2. auto.
    + exfalso. change (Array_sort byCountDescending (e0 :: l))
        with (insert byCountDescending e0 (Array_sort byCountDescending l)) in Eh.
      destruct (insert byCountDescending e0 (Array_sort byCountDescending l)) eqn:Ei;
        [|discriminate].
      now apply insert_nil_inv in Ei.
Qed.



End MorePageHelpers.


Section MapCircles.

Import SydneyMap.
Local Open Scope R_scope.

Lemma ln_35000_pos : 0 < ln 35000.
Proof. rewrite <- ln_1. apply ln_increasing; lraR. Qed.

Lemma clamp_range (bonds : R) : 1 <= Rmax 1 (Rmin bonds 35000) <= 35000.
Proof.
  split; [apply Rmax_l|].
  apply Rmax_lub; [lraR|apply Rmin_r].
Qed.

Lemma ln_le_compat (x y : R) : 0 < x -> x <= y -> ln x <= ln y.
Proof.
  intros Hx [Hlt| ->]; [|lraR]. left. apply ln_increasing; assumption.
Qed.

(** X23.  The radius of a suburb's circle is between 4 and 22 and never shrinks
    when the bond count grows; it is 4 up to one bond and 22 from 35 000
    bonds on. *)
Theorem circleRadius_range (bonds bonds' : R) :
  4 <= circleRadius bonds <= 22 /\
  (bonds <= bonds' -> circleRadius bonds <= circleRadius bonds') /\
  (bonds <= 1 -> circleRadius bonds = 4) /\
  (35000 <= bonds -> circleRadius bonds = 22).
Proof.
  pose proof ln_35000_pos as Hpos.
  assert (Ht : forall b, 0 <= ln (Rmax 1 (Rmin b 35000)) / ln 35000 <= 1).
  { intros b. destruct (clamp_range b) as [H1 H2]. split.
    - apply Rmult_le_pos; [|left; apply Rinv_0_lt_compat; exact Hpos].
      rewrite <- ln_1. apply ln_le_compat; lraR.
    - apply (Rmult_le_reg_r (ln 35000)); [exact Hpos|].
      unfold Rdiv. rewrite Rmult_assoc, Rinv_l, Rmult_1_r, Rmult_1_l by lraR.
      apply ln_le_compat; lraR. }
  unfold circleRadius. cbv zeta.
  split; [|split; [|split]].
  - specialize (Ht bonds). lraR.
  - intros Hle.
    assert (Hc : Rmax 1 (Rmin bonds 35000) <= Rmax 1 (Rmin bonds' 35000)).
    { apply Rle_max_compat_l. apply Rle_min_compat_r. exact Hle. }
    destruct (clamp_range bonds) as [H1 _].
    assert (Hl : ln (Rmax 1 (Rmin bonds 35000)) <= ln (Rmax 1 (Rmin bonds' 35000)))
      by (apply ln_le_compat; lraR).
    assert (Hd : ln (Rmax 1 (Rmin bonds 35000)) / ln 35000 <=
                 ln (Rmax 1 (Rmin bonds' 35000)) / ln 35000).
    { unfold Rdiv. apply Rmult_le_compat_r; [|exact Hl].
      left. apply Rinv_0_lt_compat. exact Hpos. }
    lraR.
  - intros Hle.
    assert (E : Rmax 1 (Rmin bonds 35000) = 1).
    { apply Rmax_left. etransitivity; [apply Rmin_l|exact Hle]. }
    rewrite E, ln_1. unfold Rdiv. rewrite Rmult_0_l. lraR.
  - intros Hge.
    assert (E : Rmax 1 (Rmin bonds 35000) = 35000).
    { rewrite Rmin_right by exact Hge. apply Rmax_right. lraR. }
    rewrite E. unfold Rdiv. rewrite Rinv_r by lraR. lraR.
Qed.

End MapCircles.

(* ===================================================================== *)
(** * Further properties: GET /api/suburbs/[suburbKey]                    *)
(* ===================================================================== *)

Section SuburbDetail.

Import Suburbs Commute Recommend SuburbRoutes.
Local Open Scope R_scope.

Variable dataset : list (string * Suburb).
Variable stations : list TrainStation.

Lemma StronglySorted_map {X Y} (f : X -> Y) (R : Y -> Y -> Prop) (l : list X) :
  StronglySorted (fun a b => R (f a) (f b)) l -> StronglySorted R (map f l).
Proof.
  induction 1 as [|x l _ IH Hx]; cbn [map]; constructor; [exact IH|].
  apply List.Forall_forall. intros y Hy. apply in_map_iff in Hy as (z & <- & Hz).
  rewrite List.Forall_forall in Hx. apply Hx, Hz.
Qed.

(** The lookup by key before the lookup by postcode adds nothing: the
    lookup by postcode tries the key itself first. *)
Lemma key_then_postcode (key : string) :
  match Lookup.getSuburbByKey dataset key with
  | Some v => Some v
  | None => Lookup.getSuburbByPostcode dataset key
  end = Lookup.getSuburbByPostcode dataset key.
Proof.
  unfold Lookup.getSuburbByPostcode, Lookup.getSuburbByKey.
  now destruct (Lookup.read dataset key).
Qed.

(** X24.  [GET /api/suburbs/[suburbKey]] answers 404 exactly when
    [getSuburbByPostcode] finds nothing for the text, and otherwise 200
    with what it finds: a suburb, or, for a name every object inherits
    that is no key of the dataset, the inherited value.  The nearby
    stations of the answer are the stations within 0.5 km of the suburb's
    coordinates (none when a coordinate is missing, and none for an
    inherited value), in ascending order of their rounded distance, and
    the nearest station is the first of them. *)
Theorem GET_suburb_spec (suburbKey : string) :
  ((exists m, GET_suburb dataset stations suburbKey = Detail404 m) <->
   Lookup.getSuburbByPostcode dataset suburbKey = None) /\
  (forall body,
     GET_suburb dataset stations suburbKey = Detail200 body ->
     Lookup.getSuburbByPostcode dataset suburbKey = Some (detail_suburb body) /\
     detail_nearest_station body = List.hd_error (nearby_stations body) /\
     (forall x,
        In x (nearby_stations body) <->
        exists s la lo st,
          detail_suburb body = Lookup.Own s /\
          lat s = Some la /\
          lng s = Some lo /\
          In st stations /\
          distance_to (Q2R la) (Q2R lo) st <= 0.5 /\
          x = {| ns_name := name st;
                 ns_distance_km :=
                   IZR (Rround (distance_to (Q2R la) (Q2R lo) st * 100)) / 100;
                 ns_type := type st;
                 ns_lines := lines st |}) /\
     StronglySorted (fun a b => ns_distance_km a <= ns_distance_km b)
       (nearby_stations body)) /\
  (Lookup.inherited suburbKey = true ->
   exists body,
     GET_suburb dataset stations suburbKey = Detail200 body /\
     ((forall k s, In (k, s) dataset -> k <> suburbKey) ->
      detail_suburb body = Lookup.Inherited suburbKey /\
      nearby_stations body = [] /\ detail_nearest_station body = None)).
Proof.
  unfold GET_suburb. rewrite key_then_postcode.
  split; [|split].
  - destruct (Lookup.getSuburbByPostcode dataset suburbKey) as [v|].
    + split; [intros [m Hm]; discriminate|discriminate].
    + split; [reflexivity|eexists; reflexivity].
  - destruct (Lookup.getSuburbByPostcode dataset suburbKey) as [v|]; [|discriminate].
    intros body [= <-].
    cbn [detail_suburb nearby_stations detail_nearest_station].
    split; [reflexivity|]. split; [reflexivity|].
    destruct v as [s|n].
    2:{ split; [|constructor].
        intros x. split; [intros []|]. intros (s & la & lo & st & H & _).
        discriminate. }
    destruct (lat s) as [la|] eqn:Ela, (lng s) as [lo|] eqn:Elo.
    + split.
      * intros x. rewrite in_map_iff. split.
        -- intros (r & <- & Hr).
           apply getNearbyStations_In in Hr as (st & Hst & Hd & ->).
           exists s, la, lo, st. cbn [station station_distanceKm]. auto 10.
        -- intros (s' & la' & lo' & st & [= <-] & Hla & Hlo & Hst & Hd & ->).
           rewrite Ela in Hla. rewrite Elo in Hlo.
           injection Hla as <-. injection Hlo as <-.
           eexists. split; [|apply getNearbyStations_In; exists st; eauto].
           reflexivity.
      * apply StronglySorted_map. apply getNearbyStations_Sorted.
    + split; [|constructor].
      intros x. split; [intros []|].
      intros (s' & la' & lo' & st & [= <-] & _ & H & _). congruence.
    + split; [|constructor].
      intros x. split; [intros []|].
      intros (s' & la' & lo' & st & [= <-] & H & _). congruence.
    + split; [|constructor].
      intros x. split; [intros []|].
      intros (s' & la' & lo' & st & [= <-] & H & _). congruence.
  - intros Hi. unfold Lookup.getSuburbByPostcode.
    destruct (read_cases dataset suburbKey) as [(a & Hin & ->)|[Hno ->]].
    + eexists. split; [reflexivity|]. intros H. exfalso.
      exact (H _ _ Hin eq_refl).
    + rewrite Hi. eexists. split; [reflexivity|]. intros _.
      cbn. auto.
Qed.

End SuburbDetail.

(* ===================================================================== *)
(** * Further properties: the amenities from Overpass                     *)
(* ===================================================================== *)

Section OverpassFacts.

Import Overpass.
Local Open Scope R_scope.

Lemma Category_eqb_eq (a b : Category) : Category_eqb a b = true <-> a = b.
Proof. destruct a, b; cbn; split; congruence. Qed.

Lemma collect_eq (lat lng : R) (elements : list OverpassElement) (c : Category) :
  collect lat lng elements c =
  flat_map (fun el => match itemOf lat lng el with
                      | Some (category, item) =>
                          if Category_eqb c category then [item] else []
                      | None => []
                      end) elements.
Proof.
  unfold collect.
  set (step := fun (result : Categorized) (el : OverpassElement) => _).
  set (f := fun el : OverpassElement => _).
  assert (H : forall l (acc : Categorized),
             fold_left step l acc c = acc c ++ flat_map f l).
  { induction l as [|el l IH]; intros acc; cbn [fold_left flat_map].
    - now rewrite app_nil_r.
    - rewrite IH.
      assert (Hs : step acc el c = acc c ++ f el).
      { unfold step, f.
        destruct (itemOf lat lng el) as [[category item]|];
          [|now rewrite app_nil_r].
        unfold push. destruct (Category_eqb c category); [reflexivity|].
        now rewrite app_nil_r. }
      rewrite Hs. now rewrite <- app_assoc. }
  rewrite H. reflexivity.
Qed.

Lemma list_sum_plus {X} (a b : X -> nat) (l : list X) :
  list_sum (map (fun c => (a c + b c)%nat) l) =
  (list_sum (map a l) + list_sum (map b l))%nat.
Proof.
  induction l as [|x l IH]; [reflexivity|].
  cbn [map]. change (list_sum (?h :: ?t)) with (h + list_sum t)%nat.
  rewrite IH. lia.
Qed.

Lemma kept_count (lat lng : R) (elements : list OverpassElement) :
  list_sum (map (fun c => length (collect lat lng elements c)) all_categories) =
  length (List.filter (kept lat lng) elements).
Proof.
  erewrite map_ext; [|intros c; rewrite collect_eq; reflexivity].
  induction elements as [|el l IH]; [reflexivity|].
  cbn [flat_map List.filter].
  erewrite map_ext; [|intros c; rewrite length_app; reflexivity].
  rewrite list_sum_plus, IH.
  destruct (itemOf lat lng el) as [[category item]|] eqn:E.
  - assert (K : kept lat lng el = true) by (unfold kept; now rewrite E).
    rewrite K. destruct category; reflexivity.
  - assert (K : kept lat lng el = false) by (unfold kept; now rewrite E).
    rewrite K. reflexivity.
Qed.

(** X25.  What [fetchOverpassAmenities] makes of the elements of an answer: an
    item is in the array of a category exactly when an element with tags,
    that category and coordinates gives it; every array is in ascending
    order of distance; and the twelve arrays hold as many items as there
    are such elements, so none is lost or listed twice. *)
Theorem categorizeElements_spec (lat lng : R) (elements : list OverpassElement) :
  (forall c item,
     In item (categorizeElements lat lng elements c) <->
     exists el, In el elements /\ itemOf lat lng el = Some (c, item)) /\
  (forall c,
     StronglySorted (fun a b => distance_km a <= distance_km b)
       (categorizeElements lat lng elements c)) /\
  list_sum (map (fun c => length (categorizeElements lat lng elements c))
                all_categories) =
    length (List.filter (kept lat lng) elements).
Proof.
  split; [|split].
  - intros c item. unfold categorizeElements.
    pose proof (Array_sort_real_Permutation
                  (fun a b => distance_km a - distance_km b)
                  (collect lat lng elements c)) as HP.
    split.
    + intros Hin. apply (Permutation_in _ HP) in Hin.
      rewrite collect_eq in Hin. apply in_flat_map in Hin as (el & Hel & Hin).
      exists el. split; [exact Hel|].
      destruct (itemOf lat lng el) as [[category it]|]; [|destruct Hin].
      destruct (Category_eqb c category) eqn:E; [|destruct Hin].
      apply Category_eqb_eq in E. destruct Hin as [<-|[]]. now subst.
    + intros (el & Hel & Hi). apply (Permutation_in _ (Permutation_sym HP)).
      rewrite collect_eq. apply in_flat_map. exists el. split; [exact Hel|].
      rewrite Hi. rewrite (proj2 (Category_eqb_eq c c) eq_refl). now left.
  - intros c. apply (Array_sort_real_Sorted distance_km).
  - rewrite <- kept_count. f_equal. apply map_ext. intros c.
    unfold categorizeElements. apply Permutation_length.
    apply Array_sort_real_Permutation.
Qed.

End OverpassFacts.

(* ===================================================================== *)
(** * Further properties: the workplace of a recommendation request       *)
(* ===================================================================== *)

Section Workplace.

Import Suburbs Recommend.

Lemma digit_char (c : ascii) :
  Str.is_digit c = true -> Str.lower_char c = c /\ Str.is_space c = false.
Proof.
  destruct c as [[] [] [] [] [] [] [] []]; intros H; vm_compute in H;
    try discriminate H; split; reflexivity.
Qed.

Lemma four_digits_normal (t : string) :
  Str.four_digits t = true ->
  Str.trim (Str.toLowerCase t) = t /\ t <> EmptyString.
Proof.
  destruct t as [|a [|b [|c [|d [|e t]]]]]; try discriminate.
  cbn [Str.four_digits]. intros H.
  apply andb_prop in H as [H Hd]. apply andb_prop in H as [H Hc].
  apply andb_prop in H as [Ha Hb].
  apply digit_char in Ha as [La Sa]. apply digit_char in Hb as [Lb Sb].
  apply digit_char in Hc as [Lc Sc]. apply digit_char in Hd as [Ld Sd].
  split; [|discriminate].
  cbn [Str.toLowerCase]. rewrite La, Lb, Lc, Ld.
  unfold Str.trim. cbn [Str.trimStart]. rewrite Sa.
  cbn [Str.trimEnd]. rewrite Sd. reflexivity.
Qed.

Variable dataset : list (string * Suburb).

(** X26.  The workplace of a request resolves to the first search result for
    the trimmed text.  The postcode lookup behind it is reached only when
    the search finds nothing, and then it can only return a record whose
    key is the four digits themselves and which the search does not match:
    a record found by its postcode would have been a search result. *)
Theorem resolveWorkplace_spec (req : Request) :
  (present (p_workplace req) = None -> resolveWorkplace dataset req = None) /\
  (forall workplaceStr,
     present (p_workplace req) = Some workplaceStr ->
     let trimmed := Str.trim workplaceStr in
     match searchSuburbs dataset trimmed with
     | m :: _ => resolveWorkplace dataset req = Some m
     | [] =>
         forall w, resolveWorkplace dataset req = Some w ->
                   Str.four_digits trimmed = true /\
                   getSuburbByKey dataset trimmed = Some w /\
                   matches trimmed w = false
     end).
Proof.
  unfold resolveWorkplace. split; [intros ->; reflexivity|].
  intros ws ->. cbv zeta.
  destruct (searchSuburbs dataset (Str.trim ws)) as [|m l] eqn:Es; [|reflexivity].
  intros w. destruct (Str.four_digits (Str.trim ws)) eqn:E4; [|discriminate].
  intros Hw. split; [reflexivity|].
  destruct (four_digits_normal _ E4) as [Hn Hne].
  assert (Hnone : forall s, In s (getAllSuburbs dataset) ->
                            matches (Str.trim ws) s = false).
  { intros s Hs. destruct (matches (Str.trim ws) s) eqn:Em; [|reflexivity].
    exfalso.
    assert (Hin : In s (List.filter (matches (Str.trim ws)) (getAllSuburbs dataset)))
      by (apply List.filter_In; auto).
    pose proof (grouped_Permutation (Str.trim ws) (getAllSuburbs dataset)) as HP.
    rewrite <- Hn in HP at 1.
    rewrite <- (searchSuburbs_grouped dataset (Str.trim ws)) in HP
      by (rewrite Hn; exact Hne).
    rewrite Es in HP. apply Permutation_nil in HP. rewrite HP in Hin.
    destruct Hin. }
  unfold getSuburbByPostcode in Hw.
  destruct (getSuburbByKey dataset (Str.trim ws)) as [s|] eqn:Ek.
  - injection Hw as <-. split; [reflexivity|]. apply Hnone.
    apply In_getAllSuburbs. exists (Str.trim ws).
    apply getSuburbByKey_Some. exact Ek.
  - exfalso. apply find_some in Hw as [Hin Hp]. apply String.eqb_eq in Hp.
    specialize (Hnone w Hin). unfold matches in Hnone.
    apply orb_false_iff in Hnone as [_ Hpre]. unfold Str.startsWith in Hpre.
    rewrite Hp, prefix_refl in Hpre. discriminate.
Qed.

End Workplace.

(* ===================================================================== *)
(** * Further properties: the matrix answer and the group size            *)
(* ===================================================================== *)

Section MatrixAnswer.

Import OrsMatrix.
Local Open Scope Q_scope.

(** X27.  The answer [fetchOrsMatrix] returns has the shape of the provider's:
    the entry at a row and column is made from the provider's entry at
    that row and column.  A duration in seconds becomes a whole number of
    minutes within half a minute of it, and a distance stays within
    0.05 km. *)
Theorem matrixResult_spec (durations distances : list (list num)) :
  let r := matrixResult durations distances in
  length (durations_min r) = length durations /\
  length (distances_km r) = length distances /\
  (forall i j row sec,
     nth_error durations i = Some row -> nth_error row j = Some (Fin sec) ->
     exists row' (m : Z),
       nth_error (durations_min r) i = Some row' /\
       length row' = length row /\
       nth_error row' j = Some (Fin (inject_Z m)) /\
       inject_Z m - (1 # 2) <= sec / 60 /\ sec / 60 < inject_Z m + (1 # 2)) /\
  (forall i j row km,
     nth_error distances i = Some row -> nth_error row j = Some (Fin km) ->
     exists row' d,
       nth_error (distances_km r) i = Some row' /\
       length row' = length row /\
       nth_error row' j = Some (Fin d) /\
       km - (5 # 100) <= d /\ d <= km + (5 # 100)).
Proof.
  intros r. unfold r, matrixResult. cbn [durations_min distances_km].
  rewrite !length_map. split; [reflexivity|]. split; [reflexivity|]. split.
  - intros i j row sec Hi Hj.
    eexists. exists (round (sec / 60)).
    rewrite nth_error_map, Hi. cbn [option_map]. split; [reflexivity|].
    rewrite length_map. split; [reflexivity|].
    rewrite nth_error_map, Hj. cbn [option_map].
    rewrite ndiv_Fin by discriminate. split; [reflexivity|].
    apply round_spec.
  - intros i j row km Hi Hj.
    eexists. exists (inject_Z (round (km * 10)) / 10).
    rewrite nth_error_map, Hi. cbn [option_map]. split; [reflexivity|].
    rewrite length_map. split; [reflexivity|].
    rewrite nth_error_map, Hj. cbn [option_map nmul lift2 Math_round].
    rewrite ndiv_Fin by discriminate. split; [reflexivity|].
    pose proof (round_spec (km * 10)) as [Hlo Hhi].
    set (z := inject_Z (round (km * 10))) in *.
    assert (Ez : z / 10 == z * (1 # 10)) by (unfold Qdiv; reflexivity).
    rewrite Ez. split; lraQ.
Qed.

End MatrixAnswer.

Section GroupSize.

Import Recommend.
Local Open Scope Q_scope.

Variable Number : string -> num.

(** X28.  The group size of a request is always a number from 1 to 4.  It is 1
    when the parameter is missing or empty or does not parse to a number,
    and when it parses to 0 or to anything below 1; it is the parsed
    number from 1 to 4, and 4 for anything above. *)
Theorem sharingCountOf_clamp (req : Request) :
  (present (p_sharing req) = None -> sharingCountOf Number req = Fin 1) /\
  (forall s,
     present (p_sharing req) = Some s ->
     match Number s with
     | NaN => sharingCountOf Number req = Fin 1
     | Fin x =>
         exists y,
           sharingCountOf Number req = Fin y /\ 1 <= y <= 4 /\
           (x <= 1 -> y == 1) /\ (1 <= x <= 4 -> y == x) /\ (4 <= x -> y == 4)
     end).
Proof.
  unfold sharingCountOf. split; [intros ->; reflexivity|].
  intros s ->. destruct (Number s) as [|x]; [reflexivity|].
  unfold nor. cbn [truthy].
  assert (Hclamp : forall z,
            1 <= Qmin 4 (Qmax 1 z) <= 4 /\
            (z <= 1 -> Qmin 4 (Qmax 1 z) == 1) /\
            (1 <= z <= 4 -> Qmin 4 (Qmax 1 z) == z) /\
            (4 <= z -> Qmin 4 (Qmax 1 z) == 4)).
  { intros z.
    destruct (Q.max_spec 1 z) as [[H1 E1]|[H1 E1]];
      destruct (Q.min_spec 4 (Qmax 1 z)) as [[H2 E2]|[H2 E2]];
      rewrite E2; rewrite E1 in *; repeat split; intros; lraQ. }
  destruct (Qeq_bool x 0) eqn:E0; cbn [negb Math_max Math_min lift2].
  - apply Qeq_bool_iff in E0. exists (Qmin 4 (Qmax 1 1)).
    split; [reflexivity|]. split; [split; discriminate|].
    repeat split; intros; try reflexivity; lraQ.
  - exists (Qmin 4 (Qmax 1 x)). split; [reflexivity|]. apply Hclamp.
Qed.

End GroupSize.
